(** * Research knowledge graph: ingestion consistency and orchestration

    A shallow embedding of the TypeScript sources of the knowledge-graph
    ingestion engine:

    - the canonicalizer [normalizeName] (node-repository.ts,
      edge-repository.ts, orchestrator.ts: three identical copies);
    - the node, edge and paper repositories, whose SQL statements
      ([INSERT ... ON CONFLICT ... DO UPDATE]) are embedded as functions on
      an explicit database state;
    - the extraction agents' normalisation of candidate confidences;
    - the orchestrator ([processPaper], [processPapers], [validateEntities],
      [validateRelationships], [getExistingPapers], [logExtraction]);
    - the ingestion pipeline ([ingestPaper], [ingestPapers],
      [reprocessPaper]).

    Modelling conventions.
    - A JavaScript string is a [string] whose characters are read as code
      units 0..255 (Latin-1).
    - A confidence is a rational number [Q]: the code only compares
      confidences and takes [Math.max]/[Math.min]/[GREATEST] of them, which
      do no rounding.
    - A row identifier (a UUID in the schema) is a natural number drawn from
      a counter kept in the database state.
    - A [metadata] column holds a [jsonb] value.  The repositories bind the
      text [JSON.stringify(metadata)] to the parameter, and the driver
      serialises a parameter of a [jsonb] column as JSON once more: what
      arrives is a JSON string scalar.  Such a text is kept as the object it
      was made from.
    - [async] code is embedded in a state-and-exception monad over the
      database state; a rejected promise is a thrown exception.  Calls that
      run concurrently ([Promise.allSettled] in [ingestPapers]) are embedded
      statement by statement, and their statements interleave in an order
      that a scheduler, a parameter of the embedding, chooses.
    - Time stamps ([created_at], [extraction_timestamp], execution times) and
      console output are left out except [updated_at], which reads the
      clock kept in the database state.
    - The state also keeps the trace of the external effects in the order
      they happen (a paper row committed, a status written, the capability
      called, a timer awaited), so that statements about order can be made.
    - The answers of the text-analysis capability and of the similarity
      search of the database are parameters of the embedding. *)

From Stdlib Require Import ZArith QArith List String Ascii Bool Lia.
From stdpp Require Import base option gmap strings list fin_maps pretty.

Import ListNotations.
Close Scope Q_scope.
Open Scope string_scope.

(** ** Canonicalizer *)

Module Canonicalizer.

(** Code unit of a character. *)
Definition code (c : ascii) : N := N_of_ascii c.

(** [String.prototype.toLowerCase] on one Latin-1 code unit: A-Z and the
    upper-case letters U+00C0..U+00DE (U+00D7, the multiplication sign,
    excepted) move up by 32. *)
Definition toLowerChar (c : ascii) : ascii :=
  let n := code c in
  if ((65 <=? n) && (n <=? 90))%N
     || ((192 <=? n) && (n <=? 222) && negb (n =? 215))%N
  then ascii_of_N (n + 32)
  else c.

(** The class [\s] (and the characters removed by [trim]) below U+0100:
    TAB, LF, VT, FF, CR, SPACE and NO-BREAK SPACE. *)
Definition isSpace (c : ascii) : bool :=
  let n := code c in
  ((9 <=? n) && (n <=? 13) || (n =? 32) || (n =? 160))%N.

(** The class [\w]: [A-Za-z0-9_]. *)
Definition isWord (c : ascii) : bool :=
  let n := code c in
  ((65 <=? n) && (n <=? 90) || (97 <=? n) && (n <=? 122)
   || (48 <=? n) && (n <=? 57) || (n =? 95))%N.

Definition isHyphen (c : ascii) : bool := (code c =? 45)%N.

Definition toLowerCase (s : list ascii) : list ascii := map toLowerChar s.

Fixpoint trimStart (s : list ascii) : list ascii :=
  match s with
  | c :: s' => if isSpace c then trimStart s' else s
  | [] => []
  end.

Definition trimEnd (s : list ascii) : list ascii :=
  rev (trimStart (rev s)).

Definition trim (s : list ascii) : list ascii := trimEnd (trimStart s).

(** [replace(/\s+/g, ' ')]: every maximal run of white space becomes one
    space.  [inRun] tells that the scan is inside a run whose space has
    been emitted already. *)
Fixpoint collapseFrom (inRun : bool) (s : list ascii) : list ascii :=
  match s with
  | [] => []
  | c :: s' =>
      if isSpace c
      then if inRun then collapseFrom true s'
           else " "%char :: collapseFrom true s'
      else c :: collapseFrom false s'
  end.

Definition collapseSpaces (s : list ascii) : list ascii := collapseFrom false s.

(** [replace(/[^\w\s-]/g, '')]. *)
Definition keptChar (c : ascii) : bool := isWord c || isSpace c || isHyphen c.

Definition stripSpecial (s : list ascii) : list ascii := List.filter keptChar s.

Definition normalizeChars (s : list ascii) : list ascii :=
  stripSpecial (collapseSpaces (trim (toLowerCase s))).

(** [name.toLowerCase().trim().replace(/\s+/g, ' ').replace(/[^\w\s-]/g, '')] *)
Definition normalizeName (name : string) : string :=
  string_of_list_ascii (normalizeChars (list_ascii_of_string name)).

End Canonicalizer.

Export Canonicalizer.

(** [String.prototype.toLowerCase] on a whole string. *)
Definition String_toLowerCase (s : string) : string :=
  string_of_list_ascii (toLowerCase (list_ascii_of_string s)).

(** ** Data model (types/index.ts, schema.sql) *)

(** Confidences. *)
Definition conf_le (a b : Q) : Prop := (a <= b)%Q.
Definition conf_lt (a b : Q) : Prop := (a < b)%Q.

(** JavaScript [a > b] on numbers. *)
Definition gtb (a b : Q) : bool := negb (Qle_bool a b).

(** Postgres [GREATEST(a, b)]. *)
Definition GREATEST (a b : Q) : Q := if Qle_bool a b then b else a.

(** [Math.max(a, b)] and [Math.min(a, b)]. *)
Definition Math_max (a b : Q) : Q := if Qle_bool a b then b else a.
Definition Math_min (a b : Q) : Q := if Qle_bool a b then a else b.

(** JSON values stored in the [metadata] JSONB columns. *)
Unset Elimination Schemes.
Inductive json : Type :=
| JNull
| JBool (b : bool)
| JNumber (q : Q)
| JString (s : string)
| JArray (l : list json)
| JObject (fields : list (string * json)).
Set Elimination Schemes.

(** A [Record<string, any>] after [JSON.stringify]: a JSON object. *)
Abbreviation metadata_t := (gmap string json).

(** The text [JSON.stringify(value)] of a metadata object.  The code never
    looks inside such a text, so it is kept as the object it was made
    from. *)
Record JsonText : Type := stringified { parsed : metadata_t }.

Definition JSON_stringify (value : metadata_t) : JsonText := stringified value.

(** A value of a [jsonb] column: an object, a string scalar that holds a
    JSON text, or an array. *)
Unset Elimination Schemes.
Inductive jsonb : Type :=
| JbObject (fields : metadata_t)
| JbString (text : JsonText)
| JbArray (items : list jsonb).
Set Elimination Schemes.

(** A JavaScript string bound to a [jsonb] parameter of a [sql] template:
    the driver (postgres.js) serialises the parameter as JSON, so the
    string arrives as a JSON string scalar, not as the document that its
    text spells out. *)
Definition jsonb_param (text : JsonText) : jsonb := JbString text.

(** The JSONB concatenation [old || new] of Postgres: two objects give the
    union of their keys in which the right operand wins ([∪] on [gmap] is
    left-biased), two arrays give the array of all elements, and in every
    other case an operand that is no array counts as the array of that one
    element. *)
Definition jsonb_items (value : jsonb) : list jsonb :=
  match value with
  | JbArray items => items
  | _ => [value]
  end.

Definition jsonb_concat (old new : jsonb) : jsonb :=
  match old, new with
  | JbObject a, JbObject b => JbObject (b ∪ a)
  | _, _ => JbArray (jsonb_items old ++ jsonb_items new)
  end.

(** [x || null] on an optional string: [undefined] and the empty string
    both become NULL. *)
Definition orNull (x : option string) : option string :=
  match x with
  | Some s => if String.eqb s "" then None else Some s
  | None => None
  end.

(** SQL [COALESCE(a, b)]. *)
Definition COALESCE {A} (a b : option A) : option A :=
  match a with Some _ => a | None => b end.

Inductive NodeType : Type :=
| paper | concept | method | dataset | metric
| author | technique | application | challenge | result.

Inductive EdgeType : Type :=
| cites | improves_on | extends | compares_with | builds_upon | contradicts
| introduces | applies | evaluates | addresses
| related_to | enables | requires | alternative_to | generalizes | specializes
| outperforms | combines_with | replaces
| authored_by
| uses_dataset | measures_with | solves | inspired_by.

Global Instance NodeType_eq_dec : EqDecision NodeType.
Proof. solve_decision. Defined.

Global Instance EdgeType_eq_dec : EqDecision EdgeType.
Proof. solve_decision. Defined.

(** The labels of the Postgres enum [node_type]. *)
Definition node_type_labels : list (string * NodeType) :=
  [("paper", paper); ("concept", concept); ("method", method);
   ("dataset", dataset); ("metric", metric); ("author", author);
   ("technique", technique); ("application", application);
   ("challenge", challenge); ("result", result)].

(** The labels of the Postgres enum [edge_type]. *)
Definition edge_type_labels : list (string * EdgeType) :=
  [("cites", cites); ("improves_on", improves_on); ("extends", extends);
   ("compares_with", compares_with); ("builds_upon", builds_upon);
   ("contradicts", contradicts); ("introduces", introduces);
   ("applies", applies); ("evaluates", evaluates); ("addresses", addresses);
   ("related_to", related_to); ("enables", enables); ("requires", requires);
   ("alternative_to", alternative_to); ("generalizes", generalizes);
   ("specializes", specializes); ("outperforms", outperforms);
   ("combines_with", combines_with); ("replaces", replaces);
   ("authored_by", authored_by); ("uses_dataset", uses_dataset);
   ("measures_with", measures_with); ("solves", solves);
   ("inspired_by", inspired_by)].

Fixpoint assoc {A} (k : string) (l : list (string * A)) : option A :=
  match l with
  | [] => None
  | (k', v) :: l' => if String.eqb k k' then Some v else assoc k l'
  end.

(** The cast of a text parameter to an enum column; [None] when the server
    rejects the value. *)
Definition node_type_of_string (s : string) : option NodeType :=
  assoc s node_type_labels.

Definition edge_type_of_string (s : string) : option EdgeType :=
  assoc s edge_type_labels.

Definition Id := nat.

(** The text of an identifier in a template literal. *)
Definition Id_text (id : Id) : string := pretty id.

Inductive ProcessingStatus : Type :=
| pending | processing | completed | failed.

Global Instance ProcessingStatus_eq_dec : EqDecision ProcessingStatus.
Proof. solve_decision. Defined.

(** A row of table [nodes]. *)
Record Node : Type := mkNode {
  node_id : Id;
  node_type : NodeType;
  node_name : string;
  canonical_name : string;
  node_metadata : jsonb;
  extraction_confidence : Q;
  node_extracted_by : string;
  updated_at : nat
}.

(** A row of table [edges]. *)
Record Edge : Type := mkEdge {
  edge_id : Id;
  edge_type : EdgeType;
  source_id : Id;
  target_id : Id;
  edge_description : option string;
  edge_evidence : option string;
  edge_confidence : Q;
  edge_extracted_by : string;
  edge_metadata : jsonb
}.

(** A row of table [papers]. *)
Record Paper : Type := mkPaper {
  paper_id : Id;
  title : string;
  abstract : option string;
  full_text : option string;
  authors : list string;
  arxiv_id : option string;
  doi : option string;
  publication_date : option nat;
  venue : option string;
  pdf_url : option string;
  pdf_path : option string;
  processing_status : ProcessingStatus;
  processed_at : option nat
}.

(** A row of table [extraction_logs] (the JSON snapshots of the input and
    output and the execution time are left out). *)
Record ExtractionLog : Type := mkLog {
  log_paper_id : Id;
  agent_name : string;
  extraction_type : string;
  success : bool;
  error_message : option string
}.

(** An entity as the orchestrator handles it. *)
Record ExtractedEntity : Type := mkEntity {
  ent_name : string;
  ent_type : string;
  ent_description : option string;
  ent_confidence : Q;
  ent_context : option string;
  ent_metadata : metadata_t
}.

(** A relationship as the orchestrator handles it. *)
Record ExtractedRelationship : Type := mkRel {
  rel_source : string;
  rel_target : string;
  rel_type : string;
  rel_description : option string;
  rel_evidence : option string;
  rel_confidence : Q;
  rel_metadata : metadata_t
}.

(** What [JSON.parse] yields for one entity of the capability's answer:
    [confidence] and [metadata] may be missing. *)
Record ParsedEntity : Type := mkParsedEntity {
  pe_name : string;
  pe_type : string;
  pe_description : option string;
  pe_confidence : option Q;
  pe_context : option string;
  pe_metadata : option metadata_t
}.

Record ParsedRelationship : Type := mkParsedRel {
  pr_source : string;
  pr_target : string;
  pr_type : string;
  pr_description : option string;
  pr_evidence : option string;
  pr_confidence : option Q;
  pr_metadata : option metadata_t
}.

Record PaperAnalysis : Type := mkAnalysis {
  analysis_paper_id : Id;
  analysis_entities : list ExtractedEntity;
  analysis_relationships : list ExtractedRelationship
}.

(** The argument of [ingestPaper] and [PaperRepository.create]. *)
Record PaperData : Type := mkPaperData {
  pd_title : string;
  pd_abstract : option string;
  pd_full_text : string;
  pd_authors : list string;
  pd_arxiv_id : option string;
  pd_doi : option string;
  pd_publication_date : option nat;
  pd_venue : option string;
  pd_pdf_url : option string
}.

(** ** Database state and effects *)

(** External effects in the order they happen: committed statements on
    table [papers], calls of the text-analysis capability, timer waits. *)
Inductive Event : Type :=
| EvPaperStored (id : Id)
| EvStatus (id : Id) (st : ProcessingStatus)
| EvCapability (agent : string) (id : Id)
| EvDelay (ms : nat).

Record State : Type := mkState {
  nodes : list Node;
  edges : list Edge;
  papers : list Paper;
  extraction_logs : list ExtractionLog;
  next_uuid : Id;
  clock : nat;
  trace : list Event
}.

Definition set_nodes (f : list Node -> list Node) (st : State) : State :=
  mkState (f (nodes st)) (edges st) (papers st) (extraction_logs st)
          (next_uuid st) (clock st) (trace st).
Definition set_edges (f : list Edge -> list Edge) (st : State) : State :=
  mkState (nodes st) (f (edges st)) (papers st) (extraction_logs st)
          (next_uuid st) (clock st) (trace st).
Definition set_papers (f : list Paper -> list Paper) (st : State) : State :=
  mkState (nodes st) (edges st) (f (papers st)) (extraction_logs st)
          (next_uuid st) (clock st) (trace st).
Definition set_logs (f : list ExtractionLog -> list ExtractionLog) (st : State) : State :=
  mkState (nodes st) (edges st) (papers st) (f (extraction_logs st))
          (next_uuid st) (clock st) (trace st).
Definition bump_uuid (st : State) : State :=
  mkState (nodes st) (edges st) (papers st) (extraction_logs st)
          (S (next_uuid st)) (clock st) (trace st).
Definition emit (e : Event) (st : State) : State :=
  mkState (nodes st) (edges st) (papers st) (extraction_logs st)
          (next_uuid st) (clock st) (trace st ++ [e])%list.

Definition empty_state : State := mkState [] [] [] [] 0 0 [].

(** A thrown JavaScript value: an [Error] with its message. *)
Inductive exn : Type := Error (message : string).

Inductive outcome (A : Type) : Type :=
| Return (a : A)
| Throw (e : exn).
Arguments Return {A} a.
Arguments Throw {A} e.

(** An [async] function: it runs on the state and returns or throws; what
    it did to the state before throwing stays done. *)
Definition M (A : Type) : Type := State -> outcome A * State.

Definition ret {A} (a : A) : M A := fun st => (Return a, st).

Definition bind {A B} (m : M A) (f : A -> M B) : M B :=
  fun st => match m st with
            | (Return a, st') => f a st'
            | (Throw e, st') => (Throw e, st')
            end.

Definition throw {A} (e : exn) : M A := fun st => (Throw e, st).

(** [try { m } catch (error) { h error }] *)
Definition try_catch {A} (m : M A) (h : exn -> M A) : M A :=
  fun st => match m st with
            | (Return a, st') => (Return a, st')
            | (Throw e, st') => h e st'
            end.

Definition get : M State := fun st => (Return st, st).
Definition modify (f : State -> State) : M unit := fun st => (Return tt, f st).

(** Lifting of an answer of the outside world. *)
Definition lift {A} (o : outcome A) : M A := fun st => (o, st).

Notation "'let!' x ':=' m 'in' k" := (bind m (fun x => k))
  (at level 10, x name, m at level 200, k at level 200).
Notation "'run!' m 'in' k" := (bind m (fun _ => k))
  (at level 10, m at level 200, k at level 200).

(** The row hit by a unique-constraint conflict is the first (and, the
    constraint holding, the only) row with the key; [DO UPDATE] rewrites
    that row in place. *)
Fixpoint update_first {A} (p : A -> bool) (f : A -> A) (l : list A) : list A :=
  match l with
  | [] => []
  | x :: l' => if p x then f x :: l' else x :: update_first p f l'
  end.

(** ** Node repository (node-repository.ts) *)

Module NodeRepository.

(** The unique constraint [UNIQUE(type, canonical_name)]. *)
Definition same_key (ty : NodeType) (cn : string) (n : Node) : bool :=
  bool_decide (node_type n = ty) && String.eqb (canonical_name n) cn.

(** [DO UPDATE SET metadata = nodes.metadata || EXCLUDED.metadata,
    extraction_confidence = GREATEST(nodes.extraction_confidence,
    EXCLUDED.extraction_confidence), updated_at = NOW()]; the excluded
    metadata is the parameter [${JSON.stringify(metadata)}]. *)
Definition merge_node (now : nat) (metadata : metadata_t) (confidence : Q)
           (n : Node) : Node :=
  mkNode (node_id n) (node_type n) (node_name n) (canonical_name n)
         (jsonb_concat (node_metadata n) (jsonb_param (JSON_stringify metadata)))
         (GREATEST (extraction_confidence n) confidence)
         (node_extracted_by n) now.

Definition upsert (type name : string) (metadata : metadata_t)
           (extractedBy : string) (confidence : Q) : M Id :=
  let canonicalName := normalizeName name in
  fun st =>
    match node_type_of_string type with
    | None => (Throw (Error "invalid input value for enum node_type"), st)
    | Some ty =>
        match List.find (same_key ty canonicalName) (nodes st) with
        | Some existing =>
            (Return (node_id existing),
             set_nodes (update_first (same_key ty canonicalName)
                          (merge_node (clock st) metadata confidence)) st)
        | None =>
            let id := next_uuid st in
            (Return id,
             bump_uuid
               (set_nodes
                  (fun ns => (ns ++ [mkNode id ty name canonicalName
                                            (jsonb_param (JSON_stringify metadata))
                                            confidence extractedBy (clock st)])%list)
                  st))
        end
    end.

(** A property that is [undefined] is dropped by [JSON.stringify]. *)
Definition optional_field (k : string) (v : option string) : metadata_t :=
  match v with
  | Some s => {[ k := JString s ]}
  | None => ∅
  end.

(** [{ description: entity.description, context: entity.context,
      ...entity.metadata }]: the spread comes last and wins. *)
Definition entity_metadata (entity : ExtractedEntity) : metadata_t :=
  ent_metadata entity
    ∪ (optional_field "description" (ent_description entity)
       ∪ optional_field "context" (ent_context entity)).

Fixpoint upsertEntities_from (nameToIdMap : gmap string Id)
         (entities : list ExtractedEntity) (extractedBy : string)
  : M (gmap string Id) :=
  match entities with
  | [] => ret nameToIdMap
  | entity :: rest =>
      let! nodeId := upsert (ent_type entity) (ent_name entity)
                            (entity_metadata entity) extractedBy
                            (ent_confidence entity) in
      upsertEntities_from (<[normalizeName (ent_name entity) := nodeId]> nameToIdMap)
                          rest extractedBy
  end.

Definition upsertEntities (entities : list ExtractedEntity)
           (extractedBy : string) : M (gmap string Id) :=
  upsertEntities_from ∅ entities extractedBy.

Definition findById (id : Id) : M (option Node) :=
  fun st => (Return (List.find (fun n => Nat.eqb (node_id n) id) (nodes st)), st).

Definition findByName (type : NodeType) (name : string) : M (option Node) :=
  fun st => (Return (List.find (same_key type (normalizeName name)) (nodes st)), st).

Section Search.
(** The ranking query of [search]
    ([WHERE name ILIKE ... ORDER BY similarity(name, query) DESC LIMIT n]),
    evaluated by the server on the current rows of [nodes]. *)
Variable ranked_search : list Node -> string -> option NodeType -> nat -> list Node.

Definition search (query : string) (type : option NodeType) (limit : nat)
  : M (list Node) :=
  fun st => (Return (ranked_search (nodes st) query type limit), st).
End Search.

End NodeRepository.

(** ** Edge repository (edge-repository.ts) *)

Module EdgeRepository.

(** The unique constraint [UNIQUE(type, source_id, target_id)]. *)
Definition same_key (ty : EdgeType) (s t : Id) (e : Edge) : bool :=
  bool_decide (edge_type e = ty) && Nat.eqb (source_id e) s
  && Nat.eqb (target_id e) t.

(** [DO UPDATE SET description = COALESCE(EXCLUDED.description,
    edges.description), evidence = COALESCE(EXCLUDED.evidence,
    edges.evidence), confidence = GREATEST(edges.confidence,
    EXCLUDED.confidence), metadata = edges.metadata || EXCLUDED.metadata];
    the excluded metadata is the parameter [${JSON.stringify(metadata)}]. *)
Definition merge_edge (description evidence : option string) (confidence : Q)
           (metadata : metadata_t) (e : Edge) : Edge :=
  mkEdge (edge_id e) (edge_type e) (source_id e) (target_id e)
         (COALESCE description (edge_description e))
         (COALESCE evidence (edge_evidence e))
         (GREATEST (edge_confidence e) confidence)
         (edge_extracted_by e)
         (jsonb_concat (edge_metadata e) (jsonb_param (JSON_stringify metadata))).

(** The foreign keys [REFERENCES nodes(id)]. *)
Definition node_exists (id : Id) (st : State) : bool :=
  existsb (fun n => Nat.eqb (node_id n) id) (nodes st).

Definition create (type : string) (sourceId targetId : Id)
           (description evidence : option string) (confidence : Q)
           (extractedBy : string) (metadata : metadata_t) : M Id :=
  fun st =>
    match edge_type_of_string type with
    | None => (Throw (Error "invalid input value for enum edge_type"), st)
    | Some ty =>
        match List.find (same_key ty sourceId targetId) (edges st) with
        | Some existing =>
            (Return (edge_id existing),
             set_edges (update_first (same_key ty sourceId targetId)
                          (merge_edge (orNull description) (orNull evidence)
                                      confidence metadata)) st)
        | None =>
            if node_exists sourceId st && node_exists targetId st then
              let id := next_uuid st in
              (Return id,
               bump_uuid
                 (set_edges
                    (fun es => (es ++ [mkEdge id ty sourceId targetId
                                              (orNull description) (orNull evidence)
                                              confidence extractedBy
                                              (jsonb_param (JSON_stringify metadata))])%list)
                    st))
            else
              (Throw (Error "insert or update on table edges violates foreign key constraint"), st)
        end
    end.

Section Resolution.
Variable ranked_search : list Node -> string -> option NodeType -> nat -> list Node.

Definition resolveEntityId (entityName : string) (paperId : Id)
           (entityNameToIdMap : gmap string Id) : M (option Id) :=
  let normalized := normalizeName entityName in
  match entityNameToIdMap !! normalized with
  | Some id => ret (Some id)
  | None =>
      let! paperNode := NodeRepository.findById paperId in
      if match paperNode with
         | Some n => String.eqb (normalizeName (node_name n)) normalized
         | None => false
         end
      then ret (Some paperId)
      else
        let! existingNodes :=
          NodeRepository.search ranked_search entityName None 5 in
        match existingNodes with
        | n :: _ => ret (Some (node_id n))
        | [] => ret None
        end
  end.

(** One turn of the loop of [createRelationships]: the new value of
    [createdCount]. *)
Definition createRelationship (rel : ExtractedRelationship) (paperId : Id)
           (entityNameToIdMap : gmap string Id) (extractedBy : string)
           (createdCount : nat) : M nat :=
  try_catch
    (let! sourceId := resolveEntityId (rel_source rel) paperId entityNameToIdMap in
     let! targetId := resolveEntityId (rel_target rel) paperId entityNameToIdMap in
     match sourceId, targetId with
     | Some s, Some t =>
         run! create (rel_type rel) s t (rel_description rel) (rel_evidence rel)
                     (rel_confidence rel) extractedBy (rel_metadata rel) in
         ret (S createdCount)
     | _, _ => ret createdCount
     end)
    (fun _ => ret createdCount).

Fixpoint createRelationships_from (createdCount : nat)
         (relationships : list ExtractedRelationship) (paperId : Id)
         (entityNameToIdMap : gmap string Id) (extractedBy : string) : M nat :=
  match relationships with
  | [] => ret createdCount
  | rel :: rest =>
      let! n := createRelationship rel paperId entityNameToIdMap extractedBy
                                   createdCount in
      createRelationships_from n rest paperId entityNameToIdMap extractedBy
  end.

Definition createRelationships (relationships : list ExtractedRelationship)
           (paperId : Id) (entityNameToIdMap : gmap string Id)
           (extractedBy : string) : M nat :=
  createRelationships_from 0 relationships paperId entityNameToIdMap extractedBy.
End Resolution.

End EdgeRepository.

(** ** Paper repository (paper-repository.ts) *)

Module PaperRepository.

(** [{ abstract: paperData.abstract, authors: paperData.authors,
      venue: paperData.venue }] *)
Definition paper_node_metadata (paperData : PaperData) : metadata_t :=
  NodeRepository.optional_field "abstract" (pd_abstract paperData)
    ∪ ({[ "authors" := JArray (map JString (pd_authors paperData)) ]}
       ∪ NodeRepository.optional_field "venue" (pd_venue paperData)).

(** The arbiter of [ON CONFLICT (arxiv_id)]: NULL never conflicts. *)
Definition arxiv_conflict (arx : option string) (p : Paper) : bool :=
  match arx, arxiv_id p with
  | Some a, Some b => String.eqb a b
  | _, _ => false
  end.

(** [DO UPDATE SET title = EXCLUDED.title, abstract = EXCLUDED.abstract] *)
Definition retitle (paperData : PaperData) (p : Paper) : Paper :=
  mkPaper (paper_id p) (pd_title paperData) (orNull (pd_abstract paperData))
          (full_text p) (authors p) (arxiv_id p) (doi p) (publication_date p)
          (venue p) (pdf_url p) (pdf_path p) (processing_status p)
          (processed_at p).

(** The statement [INSERT INTO papers ... ON CONFLICT (arxiv_id) DO UPDATE
    ... RETURNING *] of [create], for the id of the paper's node. *)
Definition insertPaper (paperData : PaperData) (nodeId : Id) : M Paper :=
  fun st =>
    let arx := orNull (pd_arxiv_id paperData) in
    match List.find (arxiv_conflict arx) (papers st) with
    | Some existing =>
        let row := retitle paperData existing in
        (Return row,
         emit (EvPaperStored (paper_id row))
              (set_papers (update_first (arxiv_conflict arx) (retitle paperData)) st))
    | None =>
        if existsb (fun p => Nat.eqb (paper_id p) nodeId) (papers st) then
          (Throw (Error "duplicate key value violates unique constraint papers_pkey"), st)
        else
          let row :=
            mkPaper nodeId (pd_title paperData) (orNull (pd_abstract paperData))
                    (orNull (Some (pd_full_text paperData))) (pd_authors paperData)
                    arx (orNull (pd_doi paperData)) (pd_publication_date paperData)
                    (orNull (pd_venue paperData)) (orNull (pd_pdf_url paperData))
                    None pending None in
          (Return row,
           emit (EvPaperStored nodeId)
                (set_papers (fun ps => (ps ++ [row])%list) st))
    end.

Definition create (paperData : PaperData) : M Paper :=
  let! nodeId := NodeRepository.upsert "paper" (pd_title paperData)
                   (paper_node_metadata paperData) "system" 1 in
  insertPaper paperData nodeId.

Definition with_status (now : nat) (status : ProcessingStatus) (p : Paper) : Paper :=
  mkPaper (paper_id p) (title p) (abstract p) (full_text p) (authors p)
          (arxiv_id p) (doi p) (publication_date p) (venue p) (pdf_url p)
          (pdf_path p) status
          (match status with completed => Some now | _ => processed_at p end).

Definition updateStatus (paperId : Id) (status : ProcessingStatus) : M unit :=
  fun st =>
    (Return tt,
     emit (EvStatus paperId status)
          (set_papers
             (map (fun p => if Nat.eqb (paper_id p) paperId
                            then with_status (clock st) status p else p))
             st)).

Definition findById (id : Id) : M (option Paper) :=
  fun st => (Return (List.find (fun p => Nat.eqb (paper_id p) id) (papers st)), st).

End PaperRepository.

(** ** Extraction agents (entity-extractor.ts, relationship-extractor.ts) *)

(** A known paper offered to the relationship extractor. *)
Record PaperRef : Type := mkPaperRef {
  ref_title : string;
  ref_arxiv_id : option string
}.

(** [value || 0.5] on a confidence read from JSON: a missing value and the
    number 0 are falsy. *)
Definition orHalf (value : option Q) : Q :=
  match value with
  | Some q => if Qeq_bool q 0 then 1 # 2 else q
  | None => 1 # 2
  end.

(** [Math.max(0, Math.min(1, value || 0.5))] *)
Definition normalizeConfidence (value : option Q) : Q :=
  Math_max 0 (Math_min 1 (orHalf value)).

(** [metadata || {}] *)
Definition orEmpty (metadata : option metadata_t) : metadata_t :=
  match metadata with Some m => m | None => ∅ end.

(** The body kept in the prompts: at most 15000 characters, with a marker
    when it was cut. *)
Definition truncateText (text : string) : string :=
  let maxLength := N.to_nat 15000 in
  if Nat.ltb maxLength (String.length text)
  then String.substring 0 maxLength text ++ String (ascii_of_nat 10)
         (String (ascii_of_nat 10) "[Text truncated...]")
  else text.

Module EntityExtractorAgent.

Definition normalizeEntity (entity : ParsedEntity) : ExtractedEntity :=
  mkEntity (pe_name entity) (pe_type entity) (pe_description entity)
           (normalizeConfidence (pe_confidence entity))
           (pe_context entity) (orEmpty (pe_metadata entity)).

Section Capability.
(** The text-analysis capability on the entity prompt: [callLLM]
    followed by [parseJSON] and the read of [.entities]; it answers or
    throws. *)
Variable capability : Paper -> string -> outcome (list ParsedEntity).

Definition process (paper : Paper) (text : string) : M (list ExtractedEntity) :=
  run! modify (emit (EvCapability "EntityExtractor" (paper_id paper))) in
  let! parsed := lift (capability paper (truncateText text)) in
  ret (map normalizeEntity parsed).
End Capability.

End EntityExtractorAgent.

Module RelationshipExtractorAgent.

Definition normalizeRelationship (rel : ParsedRelationship) : ExtractedRelationship :=
  mkRel (pr_source rel) (pr_target rel) (pr_type rel) (pr_description rel)
        (pr_evidence rel) (normalizeConfidence (pr_confidence rel))
        (orEmpty (pr_metadata rel)).

(** [entities.some(e => e.name.toLowerCase() === name.toLowerCase()) ||
     existingPapers?.some(p => p.title.toLowerCase() === name.toLowerCase())] *)
Definition endpointExists (entities : list ExtractedEntity)
           (existingPapers : option (list PaperRef)) (name : string) : bool :=
  existsb (fun e => String.eqb (String_toLowerCase (ent_name e))
                               (String_toLowerCase name)) entities
  || match existingPapers with
     | Some ps => existsb (fun p => String.eqb (String_toLowerCase (ref_title p))
                                               (String_toLowerCase name)) ps
     | None => false
     end.

Section Capability.
Variable capability :
  Paper -> list ExtractedEntity -> string -> option (list PaperRef) ->
  outcome (list ParsedRelationship).

Definition process (paper : Paper) (entities : list ExtractedEntity)
           (text : string) (existingPapers : option (list PaperRef))
  : M (list ExtractedRelationship) :=
  run! modify (emit (EvCapability "RelationshipExtractor" (paper_id paper))) in
  let! parsed :=
    lift (capability paper entities (truncateText text) existingPapers) in
  ret (map normalizeRelationship
           (List.filter
              (fun rel => endpointExists entities existingPapers (pr_source rel)
                          && endpointExists entities existingPapers (pr_target rel))
              parsed)).
End Capability.

End RelationshipExtractorAgent.

(** ** Orchestrator (orchestrator.ts) *)

(** A JavaScript [Map<string, V>]: iteration follows insertion order, and
    [set] on a present key keeps the key's place. *)
Module JsMap.

Definition t (V : Type) : Type := list (string * V).

Definition has {V} (k : string) (m : t V) : bool :=
  existsb (fun kv => String.eqb k (fst kv)) m.

Definition get {V} (k : string) (m : t V) : option V := assoc k m.

Fixpoint set {V} (k : string) (v : V) (m : t V) : t V :=
  match m with
  | [] => [(k, v)]
  | (k', v') :: m' =>
      if String.eqb k k' then (k', v) :: m' else (k', v') :: set k v m'
  end.

Definition keys {V} (m : t V) : list string := map fst m.
Definition values {V} (m : t V) : list V := map snd m.

End JsMap.

Module AgentOrchestrator.

(** One turn of the loop of [validateEntities]. *)
Definition see (seen : JsMap.t ExtractedEntity) (entity : ExtractedEntity)
  : JsMap.t ExtractedEntity :=
  let normalized := normalizeName (ent_name entity) in
  if negb (JsMap.has normalized seen) then JsMap.set normalized entity seen
  else
    match JsMap.get normalized seen with
    | Some existing =>
        if gtb (ent_confidence entity) (ent_confidence existing)
        then JsMap.set normalized entity seen
        else seen
    | None => seen
    end.

Definition validateEntities (entities : list ExtractedEntity)
  : list ExtractedEntity :=
  JsMap.values (fold_left see entities []).

Definition validateRelationships (relationships : list ExtractedRelationship)
           (entities : list ExtractedEntity) : list ExtractedRelationship :=
  let entityNames : gset string :=
    list_to_set (map (fun e => normalizeName (ent_name e)) entities) in
  List.filter
    (fun rel =>
       let sourceNorm := normalizeName (rel_source rel) in
       let targetNorm := normalizeName (rel_target rel) in
       bool_decide (sourceNorm ∈ entityNames)
       || bool_decide (targetNorm ∈ entityNames))
    relationships.

(** [ORDER BY publication_date DESC]: NULL dates sort first. *)
Definition date_ge (a b : option nat) : bool :=
  match a, b with
  | None, _ => true
  | Some _, None => false
  | Some x, Some y => Nat.leb y x
  end.

Fixpoint insert_by_date (p : Paper) (l : list Paper) : list Paper :=
  match l with
  | [] => [p]
  | q :: l' =>
      if date_ge (publication_date q) (publication_date p)
      then q :: insert_by_date p l'
      else p :: l
  end.

Definition order_by_date_desc (l : list Paper) : list Paper :=
  fold_left (fun acc p => insert_by_date p acc) l [].

(** [SELECT title, arxiv_id FROM papers WHERE processing_status =
    'completed' ORDER BY publication_date DESC LIMIT 100]; on failure the
    empty list. *)
Definition getExistingPapers : M (list PaperRef) :=
  try_catch
    (fun st =>
       (Return
          (map (fun p => mkPaperRef (title p) (arxiv_id p))
               (firstn 100
                  (order_by_date_desc
                     (List.filter
                        (fun p => bool_decide (processing_status p = completed))
                        (papers st))))),
        st))
    (fun _ => ret []).

(** The [INSERT INTO extraction_logs]; the foreign key [paper_id
    REFERENCES papers(id)] rejects a row for an unknown paper. *)
Definition insertLog (row : ExtractionLog) : M unit :=
  fun st =>
    if existsb (fun p => Nat.eqb (paper_id p) (log_paper_id row)) (papers st)
    then (Return tt, set_logs (fun ls => (ls ++ [row])%list) st)
    else (Throw (Error "insert or update on table extraction_logs violates foreign key constraint"), st).

Definition logExtraction (paperId : Id) (agentName extractionType : string)
           (success : bool) (errorMessage : option string) : M unit :=
  try_catch
    (insertLog (mkLog paperId agentName extractionType success (orNull errorMessage)))
    (fun _ => ret tt).

Section Agents.
Variable entityCapability : Paper -> string -> outcome (list ParsedEntity).
Variable relationshipCapability :
  Paper -> list ExtractedEntity -> string -> option (list PaperRef) ->
  outcome (list ParsedRelationship).

Definition processPaper (paper : Paper) (fullText : string) : M PaperAnalysis :=
  try_catch
    (let! entities := EntityExtractorAgent.process entityCapability paper fullText in
     run! logExtraction (paper_id paper) "EntityExtractor" "entity" true None in
     let! existingPapers := getExistingPapers in
     let! relationships :=
       RelationshipExtractorAgent.process relationshipCapability paper entities
                                          fullText (Some existingPapers) in
     run! logExtraction (paper_id paper) "RelationshipExtractor" "relationship"
                        true None in
     let validatedEntities := validateEntities entities in
     let validatedRelationships :=
       validateRelationships relationships validatedEntities in
     ret (mkAnalysis (paper_id paper) validatedEntities validatedRelationships))
    (fun error =>
       run! logExtraction (paper_id paper) "Orchestrator" "full_pipeline" false
                          (Some (match error with Error message => message end)) in
       throw error).
End Agents.

End AgentOrchestrator.

(** ** Ingestion pipeline (pipeline/ingest.ts) *)

(** [Array.prototype.slice(start, end)] with integer arguments. *)
Definition slice {A} (l : list A) (start end_ : Z) : list A :=
  let len := Z.of_nat (length l) in
  let k := if (start <? 0)%Z then Z.max (len + start) 0 else Z.min start len in
  let final := if (end_ <? 0)%Z then Z.max (len + end_) 0 else Z.min end_ len in
  firstn (Z.to_nat (final - k)) (skipn (Z.to_nat k) l).

Definition fulfilled {A} (o : outcome A) : bool :=
  match o with Return _ => true | Throw _ => false end.

Definition rejected {A} (o : outcome A) : bool := negb (fulfilled o).

(** [setTimeout(resolve, ms)] awaited. *)
Definition delay (ms : nat) : M unit := modify (emit (EvDelay ms)).

(** What [ingestPapers] reports at its end ([Success: n], [Failed: m]). *)
Record BatchSummary : Type := mkSummary {
  successCount : nat;
  failCount : nat
}.

(** *** Calls that run concurrently *)

(** A call of an [async] function as the database server and the other
    calls see it: the statements it awaits, one after the other.  Each
    statement runs atomically on the state it finds and yields the rest of
    the call; between two statements of a call the statements of other
    calls may run.  [Settled o] is a call that has returned or thrown. *)
Unset Elimination Schemes.
Inductive Task (A : Type) : Type :=
| Settled (o : outcome A)
| Await (statement : State -> Task A * State).
Set Elimination Schemes.

Arguments Settled {A} o.
Arguments Await {A} statement.

(** [await m] for one statement [m] (an SQL statement, or a call of the
    text-analysis capability). *)
Definition atomic {A} (m : M A) : Task A :=
  Await (fun st => let '(o, st') := m st in (Settled o, st')).

Fixpoint Task_bind {A B} (t : Task A) (k : A -> Task B) : Task B :=
  match t with
  | Settled (Return a) => k a
  | Settled (Throw e) => Settled (Throw e)
  | Await statement =>
      Await (fun st => let '(t', st') := statement st in (Task_bind t' k, st'))
  end.

(** [try { t } catch (error) { h error }] *)
Fixpoint Task_catch {A} (t : Task A) (h : exn -> Task A) : Task A :=
  match t with
  | Settled (Return a) => Settled (Return a)
  | Settled (Throw e) => h e
  | Await statement =>
      Await (fun st => let '(t', st') := statement st in (Task_catch t' h, st'))
  end.

Notation "'let!!' x ':=' t 'in' k" := (Task_bind t (fun x => k))
  (at level 10, x name, t at level 200, k at level 200).
Notation "'run!!' t 'in' k" := (Task_bind t (fun _ => k))
  (at level 10, t at level 200, k at level 200).

(** A call that runs alone, from its first statement to its last. *)
Fixpoint run_task {A} (t : Task A) : M A :=
  fun st =>
    match t with
    | Settled o => (o, st)
    | Await statement => let '(t', st') := statement st in run_task t' st'
    end.

(** The outcomes of the calls of a pool, once all are settled. *)
Fixpoint outcomes {A} (pool : list (Task A)) : option (list (outcome A)) :=
  match pool with
  | [] => Some []
  | Settled o :: rest => option_map (cons o) (outcomes rest)
  | Await _ :: _ => None
  end.

(** The server runs the next statement of the call at [index], if that
    call is pending. *)
Definition advance {A} (index : nat) (pool : list (Task A)) (st : State)
  : option (list (Task A) * State) :=
  match pool !! index with
  | Some (Await statement) =>
      let '(t', st') := statement st in Some (<[index := t']> pool, st')
  | _ => None
  end.

Fixpoint first_pending {A} (pool : list (Task A)) : nat :=
  match pool with
  | Settled _ :: rest => S (first_pending rest)
  | _ => 0
  end.

(** One statement of the pool: that of the call the scheduler names, or of
    the first pending call when the named one is settled. *)
Definition step_pool {A} (index : nat) (pool : list (Task A)) (st : State)
  : list (Task A) * State :=
  match advance index pool st with
  | Some next => next
  | None =>
      match advance (first_pending pool) pool st with
      | Some next => next
      | None => (pool, st)
      end
  end.

(** The calls of a pool run until all are settled.  Which pending call
    the server serves next is not in the hands of the program: [schedule k]
    names the call whose statement runs as the k-th.  [fuel] bounds the
    number of statements. *)
Fixpoint run_pool {A} (fuel : nat) (schedule : nat -> nat) (k : nat)
         (pool : list (Task A)) (st : State) : option (list (outcome A)) * State :=
  match outcomes pool with
  | Some results => (Some results, st)
  | None =>
      match fuel with
      | O => (None, st)
      | S fuel' =>
          let '(pool', st') := step_pool (schedule k) pool st in
          run_pool fuel' schedule (S k) pool' st'
      end
  end.

(** [await Promise.allSettled(tasks)]: the calls were all started; their
    statements interleave as the scheduler says, and the outcomes are
    collected in array order when the last call has settled.  [None] tells
    that the fuel ran out. *)
Definition allSettled {A} (schedule : nat -> nat) (fuel : nat)
           (tasks : list (Task A)) : M (option (list (outcome A))) :=
  fun st => let '(results, st') := run_pool fuel schedule 0 tasks st in
            (Return results, st').

(** The calls of the pipeline, statement by statement. *)
Module Async.

Section Pipeline.
Variable entityCapability : Paper -> string -> outcome (list ParsedEntity).
Variable relationshipCapability :
  Paper -> list ExtractedEntity -> string -> option (list PaperRef) ->
  outcome (list ParsedRelationship).
Variable ranked_search : list Node -> string -> option NodeType -> nat -> list Node.

(** [PaperRepository.create]: the upsert of the paper's node, then the
    insert of the row. *)
Definition create (paperData : PaperData) : Task Paper :=
  let!! nodeId :=
    atomic (NodeRepository.upsert "paper" (pd_title paperData)
              (PaperRepository.paper_node_metadata paperData) "system" 1) in
  atomic (PaperRepository.insertPaper paperData nodeId).

(** [AgentOrchestrator.processPaper]: the two calls of the capability, the
    query for the known papers and the writes to the log. *)
Definition processPaper (paper : Paper) (fullText : string) : Task PaperAnalysis :=
  Task_catch
    (let!! entities :=
       atomic (EntityExtractorAgent.process entityCapability paper fullText) in
     run!! atomic (AgentOrchestrator.logExtraction
                     (paper_id paper) "EntityExtractor" "entity" true None) in
     let!! existingPapers := atomic AgentOrchestrator.getExistingPapers in
     let!! relationships :=
       atomic (RelationshipExtractorAgent.process relationshipCapability paper
                 entities fullText (Some existingPapers)) in
     run!! atomic (AgentOrchestrator.logExtraction
                     (paper_id paper) "RelationshipExtractor" "relationship"
                     true None) in
     let validatedEntities := AgentOrchestrator.validateEntities entities in
     let validatedRelationships :=
       AgentOrchestrator.validateRelationships relationships validatedEntities in
     Settled (Return (mkAnalysis (paper_id paper) validatedEntities
                                 validatedRelationships)))
    (fun error =>
       run!! atomic (AgentOrchestrator.logExtraction
                       (paper_id paper) "Orchestrator" "full_pipeline" false
                       (Some (match error with Error message => message end))) in
       Settled (Throw error)).

(** [NodeRepository.upsertEntities]: one upsert per entity. *)
Fixpoint upsertEntities_from (nameToIdMap : gmap string Id)
         (entities : list ExtractedEntity) (extractedBy : string)
  : Task (gmap string Id) :=
  match entities with
  | [] => Settled (Return nameToIdMap)
  | entity :: rest =>
      let!! nodeId :=
        atomic (NodeRepository.upsert (ent_type entity) (ent_name entity)
                  (NodeRepository.entity_metadata entity) extractedBy
                  (ent_confidence entity)) in
      upsertEntities_from (<[normalizeName (ent_name entity) := nodeId]> nameToIdMap)
                          rest extractedBy
  end.

Definition upsertEntities (entities : list ExtractedEntity)
           (extractedBy : string) : Task (gmap string Id) :=
  upsertEntities_from ∅ entities extractedBy.

(** [EdgeRepository.resolveEntityId]: no statement when the map knows the
    name; else the query for the paper's node and, if need be, the
    search. *)
Definition resolveEntityId (entityName : string) (paperId : Id)
           (entityNameToIdMap : gmap string Id) : Task (option Id) :=
  let normalized := normalizeName entityName in
  match entityNameToIdMap !! normalized with
  | Some id => Settled (Return (Some id))
  | None =>
      let!! paperNode := atomic (NodeRepository.findById paperId) in
      if match paperNode with
         | Some n => String.eqb (normalizeName (node_name n)) normalized
         | None => false
         end
      then Settled (Return (Some paperId))
      else
        let!! existingNodes :=
          atomic (NodeRepository.search ranked_search entityName None 5) in
        match existingNodes with
        | n :: _ => Settled (Return (Some (node_id n)))
        | [] => Settled (Return None)
        end
  end.

Definition createRelationship (rel : ExtractedRelationship) (paperId : Id)
           (entityNameToIdMap : gmap string Id) (extractedBy : string)
           (createdCount : nat) : Task nat :=
  Task_catch
    (let!! sourceId := resolveEntityId (rel_source rel) paperId entityNameToIdMap in
     let!! targetId := resolveEntityId (rel_target rel) paperId entityNameToIdMap in
     match sourceId, targetId with
     | Some s, Some t =>
         run!! atomic (EdgeRepository.create
                         (rel_type rel) s t (rel_description rel) (rel_evidence rel)
                         (rel_confidence rel) extractedBy (rel_metadata rel)) in
         Settled (Return (S createdCount))
     | _, _ => Settled (Return createdCount)
     end)
    (fun _ => Settled (Return createdCount)).

Fixpoint createRelationships_from (createdCount : nat)
         (relationships : list ExtractedRelationship) (paperId : Id)
         (entityNameToIdMap : gmap string Id) (extractedBy : string) : Task nat :=
  match relationships with
  | [] => Settled (Return createdCount)
  | rel :: rest =>
      let!! n := createRelationship rel paperId entityNameToIdMap extractedBy
                                    createdCount in
      createRelationships_from n rest paperId entityNameToIdMap extractedBy
  end.

Definition createRelationships (relationships : list ExtractedRelationship)
           (paperId : Id) (entityNameToIdMap : gmap string Id)
           (extractedBy : string) : Task nat :=
  createRelationships_from 0 relationships paperId entityNameToIdMap extractedBy.

(** Steps 2 to 4 of [ingestPaper]. *)
Definition runStages (paper : Paper) (fullText : string) : Task PaperAnalysis :=
  let!! analysis := processPaper paper fullText in
  let!! entityMap := upsertEntities (analysis_entities analysis) "EntityExtractor" in
  let!! edgeCount :=
    createRelationships (analysis_relationships analysis) (paper_id paper) entityMap
                        "RelationshipExtractor" in
  Settled (Return analysis).

(** [IngestionPipeline.ingestPaper] *)
Definition ingestPaper (paperData : PaperData) : Task (Paper * PaperAnalysis) :=
  let!! paper := create paperData in
  run!! atomic (PaperRepository.updateStatus (paper_id paper) processing) in
  Task_catch
    (let!! analysis := runStages paper (pd_full_text paperData) in
     run!! atomic (PaperRepository.updateStatus (paper_id paper) completed) in
     Settled (Return (paper, analysis)))
    (fun error =>
       run!! atomic (PaperRepository.updateStatus (paper_id paper) failed) in
       Settled (Throw error)).
End Pipeline.

End Async.

Module IngestionPipeline.

Section Pipeline.
Variable entityCapability : Paper -> string -> outcome (list ParsedEntity).
Variable relationshipCapability :
  Paper -> list ExtractedEntity -> string -> option (list PaperRef) ->
  outcome (list ParsedRelationship).
Variable ranked_search : list Node -> string -> option NodeType -> nat -> list Node.
(** The server's choice among the pending calls of the batch that starts
    at index [i]: [schedule i k] names the call served k-th. *)
Variable schedule : Z -> nat -> nat.

(** Steps 2 to 4 of [ingestPaper]: the orchestrator's stages, then the
    storage of the entities and of the relationships. *)
Definition runStages (paper : Paper) (fullText : string) : M PaperAnalysis :=
  let! analysis :=
    AgentOrchestrator.processPaper entityCapability relationshipCapability
                                   paper fullText in
  let! entityMap :=
    NodeRepository.upsertEntities (analysis_entities analysis) "EntityExtractor" in
  let! edgeCount :=
    EdgeRepository.createRelationships ranked_search
      (analysis_relationships analysis) (paper_id paper) entityMap
      "RelationshipExtractor" in
  ret analysis.

Definition ingestPaper (paperData : PaperData) : M (Paper * PaperAnalysis) :=
  let! paper := PaperRepository.create paperData in
  run! PaperRepository.updateStatus (paper_id paper) processing in
  try_catch
    (let! analysis := runStages paper (pd_full_text paperData) in
     run! PaperRepository.updateStatus (paper_id paper) completed in
     ret (paper, analysis))
    (fun error =>
       run! PaperRepository.updateStatus (paper_id paper) failed in
       throw error).

(** The loop [for (let i = 0; i < papers.length; i += batchSize)]: the
    calls of [ingestPaper] for the papers of a batch are started together
    and awaited with [Promise.allSettled].  [fuel] bounds the number of
    turns and the number of statements of a batch; [None] tells that it ran
    out. *)
Fixpoint ingestPapers_from (fuel : nat) (i : Z) (successCount failCount : nat)
         (papers : list PaperData) (batchSize : Z) : M (option BatchSummary) :=
  match fuel with
  | O => ret None
  | S fuel' =>
      if (i <? Z.of_nat (length papers))%Z then
        let batch := slice papers i (i + batchSize) in
        let! settled :=
          allSettled (schedule i) fuel'
                     (map (Async.ingestPaper entityCapability relationshipCapability
                                             ranked_search) batch) in
        match settled with
        | None => ret None
        | Some results =>
            let successCount' :=
              successCount + length (List.filter fulfilled results) in
            let failCount' := failCount + length (List.filter rejected results) in
            run! (if (i + batchSize <? Z.of_nat (length papers))%Z
                  then delay 2000 else ret tt) in
            ingestPapers_from fuel' (i + batchSize) successCount' failCount'
                              papers batchSize
        end
      else ret (Some (mkSummary successCount failCount))
  end.

Definition ingestPapers (fuel : nat) (papers : list PaperData) (batchSize : Z)
  : M (option BatchSummary) :=
  ingestPapers_from fuel 0 0 0 papers batchSize.

(** [reprocessPaper].  The guard [!paper.full_text] holds of a missing
    and of an empty text. *)
Definition reprocessPaper (paperId : Id) : M unit :=
  let! found := PaperRepository.findById paperId in
  match found with
  | None => throw (Error ("Paper not found: " ++ Id_text paperId))
  | Some row =>
      match orNull (full_text row) with
      | None => throw (Error ("Paper has no full text: " ++ Id_text paperId))
      | Some text =>
          run! PaperRepository.updateStatus (paper_id row) processing in
          try_catch
            (let! analysis :=
               AgentOrchestrator.processPaper entityCapability
                 relationshipCapability row text in
             let! entityMap :=
               NodeRepository.upsertEntities (analysis_entities analysis)
                                             "EntityExtractor" in
             let! edgeCount :=
               EdgeRepository.createRelationships ranked_search
                 (analysis_relationships analysis) (paper_id row) entityMap
                 "RelationshipExtractor" in
             PaperRepository.updateStatus (paper_id row) completed)
            (fun error =>
               run! PaperRepository.updateStatus (paper_id row) failed in
               throw error)
      end
  end.
End Pipeline.

End IngestionPipeline.

(** ** Predicates used in the statements *)

(** A confidence in the unit interval. *)
Definition in_unit_interval (q : Q) : Prop := conf_le 0 q /\ conf_le q 1.

(** A reported confidence that JavaScript's [||] takes for false. *)
Definition reported_falsy (value : option Q) : Prop :=
  value = None \/ exists q, value = Some q /\ (q == 0)%Q.

(** A name without special characters: every character is a word
    character, white space or a hyphen. *)
Definition plain_name (name : string) : Prop :=
  Forall (fun c => keptChar c = true) (list_ascii_of_string name).

(** The filter of the relationship agent: both endpoints are known. *)
Definition kept_by_relationship_agent (entities : list ExtractedEntity)
           (existingPapers : option (list PaperRef)) (rel : ParsedRelationship) : bool :=
  RelationshipExtractorAgent.endpointExists entities existingPapers (pr_source rel)
  && RelationshipExtractorAgent.endpointExists entities existingPapers (pr_target rel).

(** The unique key of a node and of an edge. *)
Definition node_key (n : Node) : NodeType * string :=
  (node_type n, canonical_name n).

Definition edge_key (e : Edge) : EdgeType * Id * Id :=
  (edge_type e, source_id e, target_id e).

(** The unique constraints of tables [nodes] and [edges]. *)
Definition nodes_unique (st : State) : Prop := NoDup (map node_key (nodes st)).
Definition edges_unique (st : State) : Prop := NoDup (map edge_key (edges st)).

(** The shallow union of two metadata objects, key by key: a key of [new]
    overwrites the same key of [old]. *)
Definition shallow_union (old new merged : metadata_t) : Prop :=
  forall k, merged !! k = match new !! k with
                          | Some v => Some v
                          | None => old !! k
                          end.

(** The merge of a descriptive text ([description], [evidence]) as the
    statement [COALESCE(EXCLUDED.x, edges.x)] does it: a non-empty incoming
    text replaces the stored one, an absent or empty one keeps it. *)
Definition text_merged (old new merged : option string) : Prop :=
  match new with
  | Some s => if String.eqb s "" then merged = old else merged = Some s
  | None => merged = old
  end.

(** The rule of the specification's words: the stored text is replaced only
    if the incoming one is non-empty and the stored one was empty. *)
Definition prefer_new_if_absent (old new : option string) : option string :=
  match old with
  | Some s => if String.eqb s "" then orNull new else old
  | None => orNull new
  end.

(** The answer of the Entity Resolver on a store whose nodes are [ns]:
    what [resolveEntityId] returns, as a function. *)
Definition resolved (ranked_search : list Node -> string -> option NodeType -> nat -> list Node)
           (ns : list Node) (paperId : Id) (entityNameToIdMap : gmap string Id)
           (entityName : string) : option Id :=
  match entityNameToIdMap !! normalizeName entityName with
  | Some id => Some id
  | None =>
      if match List.find (fun n => Nat.eqb (node_id n) paperId) ns with
         | Some n => String.eqb (normalizeName (node_name n)) (normalizeName entityName)
         | None => false
         end
      then Some paperId
      else match ranked_search ns entityName None 5 with
           | n :: _ => Some (node_id n)
           | [] => None
           end
  end.

(** The key of the edge that a relationship yields: both endpoints resolve,
    the kind is a label of the edge-kind enumeration, and both resolved ids
    are ids of nodes. *)
Definition planned_key (ranked_search : list Node -> string -> option NodeType -> nat -> list Node)
           (ns : list Node) (paperId : Id) (entityNameToIdMap : gmap string Id)
           (rel : ExtractedRelationship) : option (EdgeType * Id * Id) :=
  match resolved ranked_search ns paperId entityNameToIdMap (rel_source rel),
        resolved ranked_search ns paperId entityNameToIdMap (rel_target rel),
        edge_type_of_string (rel_type rel) with
  | Some s, Some t, Some ty =>
      if existsb (fun n => Nat.eqb (node_id n) s) ns
         && existsb (fun n => Nat.eqb (node_id n) t) ns
      then Some (ty, s, t) else None
  | _, _, _ => None
  end.

(** The foreign keys of table [edges] hold. *)
Definition edges_reference_nodes (st : State) : Prop :=
  forall e, e ∈ edges st ->
            EdgeRepository.node_exists (source_id e) st = true
            /\ EdgeRepository.node_exists (target_id e) st = true.

(** The canonical name of a candidate entity. *)
Definition entity_key (e : ExtractedEntity) : string := normalizeName (ent_name e).

(** [entities !! i = Some e] is the best candidate of its group: no
    candidate of the same canonical name has a greater confidence, and
    every earlier one has a smaller confidence. *)
Definition best_of_group (entities : list ExtractedEntity) (i : nat)
           (e : ExtractedEntity) : Prop :=
  entities !! i = Some e
  /\ forall j e',
      entities !! j = Some e' -> entity_key e' = entity_key e ->
      conf_le (ent_confidence e') (ent_confidence e)
      /\ (j < i -> conf_lt (ent_confidence e') (ent_confidence e)).

(** The state of the loop of [validateEntities] after the candidates [p]:
    [seen] has one entry per canonical name of [p], in the order of first
    occurrence, and each entry is the best candidate of its group. *)
Definition seen_invariant (p : list ExtractedEntity) (seen : JsMap.t ExtractedEntity)
  : Prop :=
  NoDup (JsMap.keys seen)
  /\ (forall k, k ∈ JsMap.keys seen <-> k ∈ map entity_key p)
  /\ (forall k e, (k, e) ∈ seen ->
                  entity_key e = k /\ exists i, best_of_group p i e).

(** The known papers handed to the relationship extractor: the result of
    the query of [getExistingPapers] on the rows [ps]. *)
Definition completed_refs (ps : list Paper) : list PaperRef :=
  map (fun p => mkPaperRef (title p) (arxiv_id p))
      (firstn 100
         (AgentOrchestrator.order_by_date_desc
            (List.filter (fun p => bool_decide (processing_status p = completed)) ps))).

(** A row of [papers] has the id. *)
Definition paper_stored (id : Id) (st : State) : bool :=
  existsb (fun p => Nat.eqb (paper_id p) id) (papers st).

(** The effect of [logExtraction]: the row is appended when the paper is
    stored; otherwise the write fails and nothing is recorded. *)
Definition logged (row : ExtractionLog) (st : State) : State :=
  if paper_stored (log_paper_id row) st
  then set_logs (fun ls => (ls ++ [row])%list) st
  else st.

(** The records that [processPaper] writes. *)
Definition entity_record (id : Id) : ExtractionLog :=
  mkLog id "EntityExtractor" "entity" true None.
Definition relationship_record (id : Id) : ExtractionLog :=
  mkLog id "RelationshipExtractor" "relationship" true None.
Definition failure_record (id : Id) (e : exn) : ExtractionLog :=
  mkLog id "Orchestrator" "full_pipeline" false
        (orNull (Some (match e with Error message => message end))).

(** The result of the three stages on the answers [parsed_e] and
    [parsed_r] of the capability. *)
Definition analysis_of (p : Paper) (parsed_e : list ParsedEntity)
           (refs : list PaperRef) (parsed_r : list ParsedRelationship) : PaperAnalysis :=
  let entities := map EntityExtractorAgent.normalizeEntity parsed_e in
  let relationships :=
    map RelationshipExtractorAgent.normalizeRelationship
        (List.filter (kept_by_relationship_agent entities (Some refs)) parsed_r) in
  let validated := AgentOrchestrator.validateEntities entities in
  mkAnalysis (paper_id p) validated
             (AgentOrchestrator.validateRelationships relationships validated).

(** The processing status of the paper with the id, if it is stored. *)
Definition status_of (id : Id) (st : State) : option ProcessingStatus :=
  option_map processing_status
             (List.find (fun p => Nat.eqb (paper_id p) id) (papers st)).

(** The event is a call of the text-analysis capability: an extraction
    stage runs. *)
Definition is_capability_event (ev : Event) : Prop :=
  match ev with
  | EvCapability _ _ => True
  | _ => False
  end.

(** *** Batch ingestion in the words of the specification *)

(** The consecutive chunks of size [n] of a list; the last one may be
    shorter.  [fuel] bounds the number of chunks. *)
Fixpoint chunks_fuel {A} (fuel n : nat) (l : list A) : list (list A) :=
  match fuel, l with
  | S fuel', _ :: _ => firstn n l :: chunks_fuel fuel' n (skipn n l)
  | _, _ => []
  end.

Definition chunks {A} (n : nat) (l : list A) : list (list A) :=
  chunks_fuel (length l) n l.

(** ** Sample data *)

Module Sample.

Definition paper0 : Paper :=
  mkPaper 0 "3D Gaussian Splatting" None (Some "body") ["A"; "B"] None None None
          None None None processing None.

Definition parsed_entities : list ParsedEntity :=
  [ mkParsedEntity "NeRF" "method" None (Some 0%Q) None None;
    mkParsedEntity "PSNR" "metric" None None None None;
    mkParsedEntity "Splatting" "technique" None (Some (3 # 2)%Q) None None;
    mkParsedEntity "Mip-NeRF 360" "dataset" None (Some (9 # 10)%Q) None None ].

Definition entityCapability (_ : Paper) (_ : string) : outcome (list ParsedEntity) :=
  Return parsed_entities.

Definition entities : list ExtractedEntity :=
  map EntityExtractorAgent.normalizeEntity parsed_entities.

Definition parsed_relationships : list ParsedRelationship :=
  [ mkParsedRel "Splatting" "NeRF" "outperforms" None (Some "e1") (Some 0%Q) None;
    mkParsedRel "Splatting" "Unknown" "extends" None None (Some (1 # 2)%Q) None;
    mkParsedRel "nerf" "psnr" "measures_with" None None None None ].

Definition relationshipCapability (_ : Paper) (_ : list ExtractedEntity)
           (_ : string) (_ : option (list PaperRef))
  : outcome (list ParsedRelationship) :=
  Return parsed_relationships.

End Sample.

Module SampleStore.

Definition md_a : metadata_t := {[ "section" := JString "Methods" ]}.

Definition md_b : metadata_t :=
  {[ "section" := JString "Results"; "year" := JNumber 2023%Q ]}.

(** The store after [upsert('technique', 'Technique X', md_a, 'EntityExtractor', 0.6)]. *)
Definition st_x : State :=
  snd (NodeRepository.upsert "technique" "Technique X" md_a "EntityExtractor"
                             (6 # 10)%Q empty_state).

End SampleStore.

Module SampleEdges.

(** Two nodes X (id 0) and Y (id 1). *)
Definition st_nodes : State :=
  snd (NodeRepository.upsert "method" "Y" ∅ "EntityExtractor" 1%Q
         (snd (NodeRepository.upsert "method" "X" ∅ "EntityExtractor" 1%Q
                                     empty_state))).

(** ... and the edge X -> Y with evidence "e1" and confidence 0.5. *)
Definition st_edge : State :=
  snd (EdgeRepository.create "improves_on" 0 1 None (Some "e1") (1 # 2)%Q
                             "RelationshipExtractor" ∅ st_nodes).

End SampleEdges.

Module SampleResolution.

(** No node is similar to any query. *)
Definition no_match (_ : list Node) (_ : string) (_ : option NodeType) (_ : nat)
  : list Node := [].

Definition entityMap : gmap string Id := {[ "x" := 0; "y" := 1 ]}.

Definition x_to_y : ExtractedRelationship :=
  mkRel "X" "Y" "improves_on" None (Some "e1") (1 # 2)%Q ∅.

(** The source is an entity of the paper; the target is unknown. *)
Definition x_to_zeta : ExtractedRelationship :=
  mkRel "X" "Zeta" "improves_on" None None (9 # 10)%Q ∅.

End SampleResolution.

Module SampleEntities.

Definition technique_x (c : Q) (context : string) : ExtractedEntity :=
  mkEntity "Technique X" "technique" None c (Some context) ∅.

Definition candidates : list ExtractedEntity :=
  [ technique_x (6 # 10)%Q "first";
    mkEntity "PSNR" "metric" None (8 # 10)%Q None ∅;
    technique_x (9 # 10)%Q "second";
    mkEntity "technique  x" "technique" None (9 # 10)%Q (Some "third") ∅ ].

End SampleEntities.

Module SamplePipeline.

(** A store that holds [Sample.paper0] and nothing else. *)
Definition st_paper : State := mkState [] [] [Sample.paper0] [] 1 0 [].

(** A capability that is down. *)
Definition entityDown (_ : Paper) (_ : string) : outcome (list ParsedEntity) :=
  Throw (Error "429 rate limit").

End SamplePipeline.

Module SampleIngestion.

Definition paperData (n : string) : PaperData :=
  mkPaperData n None "body" ["A"] None None None None None.

(** The relationship stage fails for the paper titled "P3". *)
Definition relationshipCapability (p : Paper) (_ : list ExtractedEntity)
           (_ : string) (_ : option (list PaperRef))
  : outcome (list ParsedRelationship) :=
  if String.eqb (title p) "P3" then Throw (Error "503 service unavailable")
  else Return [].

Definition five : list PaperData :=
  [paperData "P1"; paperData "P2"; paperData "P3"; paperData "P4"; paperData "P5"].

End SampleIngestion.

(** ** Predicates of the further properties *)

(** The primary key of [nodes]: the ids are distinct, and all of them were
    drawn from the counter. *)
Definition node_ids_fresh (st : State) : Prop :=
  NoDup (map node_id (nodes st))
  /\ Forall (fun n => node_id n < next_uuid st) (nodes st).

(** The id stored under the key (kind, canonical name), if any. *)
Definition id_of_key (st : State) (ty : NodeType) (cn : string) : option Id :=
  option_map node_id (List.find (NodeRepository.same_key ty cn) (nodes st)).

(** The kind of the entity is a label of the node-kind enumeration. *)
Definition known_kind (e : ExtractedEntity) : Prop :=
  is_Some (node_type_of_string (ent_type e)).

(** The map that [upsertEntities] returns, read off the store [st] in
    which the entities' nodes are stored: each canonical name is bound to
    the id stored for the kind of the last entity of that name. *)
Definition ids_in (st : State) (entities : list ExtractedEntity)
           (acc : gmap string Id) : gmap string Id :=
  fold_left
    (fun m e =>
       match node_type_of_string (ent_type e) with
       | Some ty =>
           match id_of_key st ty (entity_key e) with
           | Some id => <[entity_key e := id]> m
           | None => m
           end
       | None => m
       end)
    entities acc.


(** ** Batches of the orchestrator (agents/orchestrator.ts, [processPapers]) *)

(** [Promise.all]: every task runs, in array order; the values are
    collected when all are fulfilled, and the first rejection is the
    outcome otherwise. *)
Fixpoint Promise_all {A} (tasks : list (M A)) : M (list A) :=
  match tasks with
  | [] => ret []
  | task :: rest =>
      fun st =>
        let '(o, st1) := task st in
        let '(r, st2) := Promise_all rest st1 in
        (match o, r with
         | Return a, Return values => Return (a :: values)
         | Throw e, _ => Throw e
         | Return _, Throw e => Throw e
         end, st2)
  end.

(** [batchResults.filter((r) => r !== null)] *)
Definition nonNull {A} (results : list (option A)) : list A := omap id results.

Module OrchestratorBatches.

Section Agents.
Variable entityCapability : Paper -> string -> outcome (list ParsedEntity).
Variable relationshipCapability :
  Paper -> list ExtractedEntity -> string -> option (list PaperRef) ->
  outcome (list ParsedRelationship).

(** [this.processPaper(paper, fullText).catch((error) => null)] *)
Definition processOrNull (item : Paper * string) : M (option PaperAnalysis) :=
  try_catch
    (let! analysis :=
       AgentOrchestrator.processPaper entityCapability relationshipCapability
                                      (fst item) (snd item) in
     ret (Some analysis))
    (fun error => ret None).

(** The loop [for (let i = 0; i < papers.length; i += batchSize)] of
    [processPapers]; [fuel] bounds the number of turns. *)
Fixpoint processPapers_from (fuel : nat) (i : Z) (results : list PaperAnalysis)
         (items : list (Paper * string)) (batchSize : Z)
  : M (option (list PaperAnalysis)) :=
  match fuel with
  | O => ret None
  | S fuel' =>
      if (i <? Z.of_nat (length items))%Z then
        let batch := slice items i (i + batchSize) in
        let! batchResults := Promise_all (map processOrNull batch) in
        let results' := (results ++ nonNull batchResults)%list in
        run! (if (i + batchSize <? Z.of_nat (length items))%Z
              then delay 1000 else ret tt) in
        processPapers_from fuel' (i + batchSize) results' items batchSize
      else ret (Some results)
  end.

Definition processPapers (fuel : nat) (items : list (Paper * string)) (batchSize : Z)
  : M (option (list PaperAnalysis)) :=
  processPapers_from fuel 0 [] items batchSize.

(** The analysis of one paper when the known papers are [refs], if both
    calls of the capability answer. *)
Definition analysis_for (refs : list PaperRef) (item : Paper * string)
  : option PaperAnalysis :=
  let '(p, text) := item in
  match entityCapability p (truncateText text) with
  | Throw _ => None
  | Return parsed_e =>
      match relationshipCapability
              p (map EntityExtractorAgent.normalizeEntity parsed_e)
              (truncateText text) (Some refs) with
      | Throw _ => None
      | Return parsed_r => Some (analysis_of p parsed_e refs parsed_r)
      end
  end.
End Agents.

End OrchestratorBatches.


(** The characters of a canonical name: [a-z], [0-9], [_], the space and
    the hyphen. *)
Definition canonical_char (c : ascii) : bool :=
  let n := code c in
  ((97 <=? n) && (n <=? 122) || (48 <=? n) && (n <=? 57) || (n =? 95)
   || (n =? 32) || (n =? 45))%N.

(** The marker that the agents append to a text they cut. *)
Definition truncation_marker : string :=
  String (ascii_of_nat 10) (String (ascii_of_nat 10) "[Text truncated...]").


Module SampleArxiv.

(** A paper with an arXiv id, and the same paper submitted again under
    another title. *)
Definition first_version : PaperData :=
  mkPaperData "3D Gaussian Splatting" None "body" ["A"] (Some "2308.04079")
              None None None None.

Definition second_version : PaperData :=
  mkPaperData "3D Gaussian Splatting for Real-Time Rendering" (Some "abstract")
              "longer body" ["A"; "B"] (Some "2308.04079") None None None None.

Definition st_first : State := snd (PaperRepository.create first_version empty_state).

End SampleArxiv.


(** *** Concurrent batches in the words of the specification *)

Definition is_delay (ev : Event) : bool :=
  match ev with EvDelay _ => true | _ => false end.

(** A row of [papers] has the arXiv id. *)
Definition arxiv_stored (a : string) (st : State) : bool :=
  existsb (PaperRepository.arxiv_conflict (Some a)) (papers st).

(** What every statement of the pipeline leaves in place, whenever it
    runs: the id stored under a key of [nodes], the ids and the arXiv ids of
    the rows of [papers], and the trace, to which it adds no timer event. *)
Definition grows (st st' : State) : Prop :=
  (forall ty cn id, id_of_key st ty cn = Some id -> id_of_key st' ty cn = Some id)
  /\ (forall id, paper_stored id st = true -> paper_stored id st' = true)
  /\ (forall a, arxiv_stored a st = true -> arxiv_stored a st' = true)
  /\ exists evs, trace st' = (trace st ++ evs)%list
                 /\ Forall (fun ev => is_delay ev = false) evs.

(** The event was emitted after the state [st0]. *)
Definition emitted_since (st0 : State) (ev : Event) (st : State) : Prop :=
  exists before after, trace st = (trace st0 ++ before ++ ev :: after)%list.

(** The paper is recorded: a node stands for its title, and table
    [papers] has a row under the id of that node or under the paper's arXiv
    id. *)
Definition recorded (paperData : PaperData) (st : State) : Prop :=
  exists nodeId,
    id_of_key st paper (normalizeName (pd_title paperData)) = Some nodeId
    /\ (paper_stored nodeId st = true
        \/ exists a, orNull (pd_arxiv_id paperData) = Some a
                     /\ arxiv_stored a st = true).

(** The paper was processed to the end since the state [st0], with the
    outcome [o]: it is recorded; when its ingestion returned, its row is
    stored and the status completed was written for it; when its ingestion
    threw, the status failed was written, or the paper had a row already
    under the id of its node (the insert hit the primary key). *)
Definition processed (st0 : State) (paperData : PaperData)
           (o : outcome (Paper * PaperAnalysis)) (st : State) : Prop :=
  recorded paperData st
  /\ match o with
     | Return (p, analysis) =>
         paper_stored (paper_id p) st = true
         /\ emitted_since st0 (EvStatus (paper_id p) completed) st
     | Throw _ =>
         (exists id, emitted_since st0 (EvStatus id failed) st)
         \/ exists nodeId,
             id_of_key st paper (normalizeName (pd_title paperData)) = Some nodeId
             /\ paper_stored nodeId st = true
     end.

(** Chunk after chunk: from [st] the papers of the first chunk are all
    processed, to the end and with the outcomes [results], by the time
    [st1] at which the chunk is awaited; nothing but their statements ran
    until then; a delay of 2000 ms follows unless the chunk is the last; and
    so on for the later chunks. *)
Inductive Chunked_run :
  list (list PaperData) -> State -> list (outcome (Paper * PaperAnalysis)) -> State -> Prop :=
| Chunked_done st : Chunked_run [] st [] st
| Chunked_chunk c rest st results st1 later st' :
    grows st st1 ->
    Forall2 (fun paperData o => processed st paperData o st1) c results ->
    Chunked_run rest
                (match rest with [] => st1 | _ :: _ => emit (EvDelay 2000) st1 end)
                later st' ->
    Chunked_run (c :: rest) st (results ++ later)%list st'.

(** *** Calls that run beside other calls *)

(** Every statement of the call, on whatever state it runs, leaves in
    place what [grows] names. *)
Inductive Obeys {A : Type} : Task A -> Prop :=
| Obeys_settled o : Obeys (Settled o)
| Obeys_await statement :
    (forall st, grows st (snd (statement st))) ->
    (forall st, Obeys (fst (statement st))) ->
    Obeys (Await statement).

(** The call, from state [st] on and whatever statements of other calls
    run before and between its own, settles with an outcome and in a state
    that satisfy [Q], and [Q] holds from then on. *)
Inductive Ensures {A : Type} (Q : outcome A -> State -> Prop) : Task A -> State -> Prop :=
| Ensures_settled o st :
    (forall st1, grows st st1 -> Q o st1) -> Ensures Q (Settled o) st
| Ensures_await statement st :
    (forall st1, grows st st1 ->
                 Ensures Q (fst (statement st1)) (snd (statement st1))) ->
    Ensures Q (Await statement) st.

(** One statement of a pending call leads from [pool] to [pool']. *)
Definition pool_next {A} (pool' pool : list (Task A)) : Prop :=
  exists i statement st,
    pool !! i = Some (Await statement) /\ pool' = <[i := fst (statement st)]> pool.

Module SampleConcurrency.

(** The server takes the statements of the [calls] calls of a batch in
    turn, or serves one call to its end before the next. *)
Definition round_robin (calls : nat) (_ : Z) (k : nat) : nat := k mod calls.
Definition one_by_one (_ : Z) (_ : nat) : nat := 0.

(** The paper titled "P2" builds upon the paper titled "P1". *)
Definition cites_first (p : Paper) (_ : list ExtractedEntity)
           (_ : string) (_ : option (list PaperRef))
  : outcome (list ParsedRelationship) :=
  if String.eqb (title p) "P2"
  then Return [mkParsedRel "NeRF" "P1" "builds_upon" None None None None]
  else Return [].

(** A search that finds the nodes of the query's canonical name. *)
Definition exact_match (ns : list Node) (query : string) (_ : option NodeType)
           (limit : nat) : list Node :=
  firstn limit
         (List.filter (fun n => String.eqb (canonical_name n) (normalizeName query)) ns).

Definition two : list PaperData :=
  [SampleIngestion.paperData "P1"; SampleIngestion.paperData "P2"].

End SampleConcurrency.

(** * Properties *)

(** ** Confidences *)

Lemma Qle_bool_false (a b : Q) : Qle_bool a b = false -> (b < a)%Q.
Proof.
  intros H. apply Qnot_le_lt. intros Hle.
  apply Qle_bool_iff in Hle. congruence.
Qed.

Lemma GREATEST_ge_l (a b : Q) : conf_le a (GREATEST a b).
Proof.
  unfold conf_le, GREATEST. destruct (Qle_bool a b) eqn:E.
  - now apply Qle_bool_iff.
  - apply Qle_refl.
Qed.

Lemma GREATEST_ge_r (a b : Q) : conf_le b (GREATEST a b).
Proof.
  unfold conf_le, GREATEST. destruct (Qle_bool a b) eqn:E.
  - apply Qle_refl.
  - apply Qlt_le_weak. now apply Qle_bool_false.
Qed.

Lemma GREATEST_cases (a b : Q) : GREATEST a b = a \/ GREATEST a b = b.
Proof. unfold GREATEST. destruct (Qle_bool a b); auto. Qed.

Lemma gtb_true (a b : Q) : gtb a b = true <-> conf_lt b a.
Proof.
  unfold gtb, conf_lt. split.
  - intros H. apply Qle_bool_false. now destruct (Qle_bool a b).
  - intros H. destruct (Qle_bool a b) eqn:E; [|reflexivity].
    apply Qle_bool_iff in E. exfalso. eapply Qlt_not_le; eauto.
Qed.

Lemma gtb_false (a b : Q) : gtb a b = false <-> conf_le a b.
Proof.
  unfold gtb, conf_le. rewrite <- Qle_bool_iff.
  destruct (Qle_bool a b); simpl; split; congruence.
Qed.

Lemma normalizeConfidence_bounds (value : option Q) :
  in_unit_interval (normalizeConfidence value).
Proof.
  unfold in_unit_interval, normalizeConfidence, Math_max, Math_min, conf_le.
  set (v := orHalf value).
  destruct (Qle_bool 1 v) eqn:E1.
  - simpl. split; [discriminate | apply Qle_refl].
  - destruct (Qle_bool 0 v) eqn:E0.
    + split; [now apply Qle_bool_iff | apply Qlt_le_weak; now apply Qle_bool_false].
    + split; [apply Qle_refl | discriminate].
Qed.

Lemma normalizeConfidence_falsy (value : option Q) :
  reported_falsy value -> normalizeConfidence value = (1 # 2)%Q.
Proof.
  intros [-> | (q & -> & Hq)].
  - reflexivity.
  - unfold normalizeConfidence, orHalf.
    apply Qeq_bool_iff in Hq. rewrite Hq. reflexivity.
Qed.

(** ** Extraction agents *)

Lemma entity_process_run cap (p : Paper) text st :
  EntityExtractorAgent.process cap p text st =
  (match cap p (truncateText text) with
   | Return parsed => Return (map EntityExtractorAgent.normalizeEntity parsed)
   | Throw e => Throw e
   end,
   emit (EvCapability "EntityExtractor" (paper_id p)) st).
Proof.
  unfold EntityExtractorAgent.process, bind, modify, lift, ret.
  destruct (cap p (truncateText text)); reflexivity.
Qed.

Lemma relationship_process_run cap (p : Paper) entities text existingPapers st :
  RelationshipExtractorAgent.process cap p entities text existingPapers st =
  (match cap p entities (truncateText text) existingPapers with
   | Return parsed =>
       Return (map RelationshipExtractorAgent.normalizeRelationship
                   (List.filter (kept_by_relationship_agent entities existingPapers) parsed))
   | Throw e => Throw e
   end,
   emit (EvCapability "RelationshipExtractor" (paper_id p)) st).
Proof.
  unfold RelationshipExtractorAgent.process, bind, modify, lift, ret.
  destruct (cap p entities (truncateText text) existingPapers); reflexivity.
Qed.

(** C10. When the extraction agents normalise candidate confidences, a
    candidate whose reported confidence is missing or is the number 0 gets
    the confidence 0.5 (a reported 0 is promoted, not preserved), and every
    confidence in the output of either agent lies in [0,1]. *)
Theorem agents_normalize_confidence
        (entityCapability : Paper -> string -> outcome (list ParsedEntity))
        (relationshipCapability :
           Paper -> list ExtractedEntity -> string -> option (list PaperRef) ->
           outcome (list ParsedRelationship))
        (p : Paper) (text : string) (entities : list ExtractedEntity)
        (existingPapers : option (list PaperRef)) (st st1 st2 : State)
        (out_e : list ExtractedEntity) (out_r : list ExtractedRelationship) :
  EntityExtractorAgent.process entityCapability p text st = (Return out_e, st1) ->
  RelationshipExtractorAgent.process relationshipCapability p entities text
                                     existingPapers st = (Return out_r, st2) ->
  (exists parsed,
      entityCapability p (truncateText text) = Return parsed
      /\ Forall2 (fun c e =>
                    in_unit_interval (ent_confidence e)
                    /\ (reported_falsy (pe_confidence c) ->
                        ent_confidence e = (1 # 2)%Q))
                 parsed out_e)
  /\ (exists parsed,
         relationshipCapability p entities (truncateText text) existingPapers
         = Return parsed
         /\ Forall2 (fun c r =>
                       in_unit_interval (rel_confidence r)
                       /\ (reported_falsy (pr_confidence c) ->
                           rel_confidence r = (1 # 2)%Q))
                    (List.filter (kept_by_relationship_agent entities existingPapers) parsed)
                    out_r).
Proof.
  rewrite entity_process_run, relationship_process_run.
  intros He Hr. split.
  - destruct (entityCapability p (truncateText text)) as [parsed|e]; [|discriminate].
    exists parsed. split; [reflexivity|].
    injection He as <- _. clear.
    induction parsed as [|c parsed IH]; simpl; constructor; auto.
    split; [apply normalizeConfidence_bounds | apply normalizeConfidence_falsy].
  - destruct (relationshipCapability p entities (truncateText text) existingPapers)
      as [parsed|e]; [|discriminate].
    exists parsed. split; [reflexivity|].
    injection Hr as <- _.
    generalize (List.filter (kept_by_relationship_agent entities existingPapers) parsed).
    intros l. induction l as [|c l IH]; simpl; constructor; auto.
    split; [apply normalizeConfidence_bounds | apply normalizeConfidence_falsy].
Qed.

Lemma agents_normalize_confidence_witness :
  map ent_confidence Sample.entities = [(1 # 2)%Q; (1 # 2)%Q; 1%Q; (9 # 10)%Q]
  /\ (exists parsed,
         Sample.entityCapability Sample.paper0 (truncateText "body") = Return parsed
         /\ Forall2 (fun c e =>
                       in_unit_interval (ent_confidence e)
                       /\ (reported_falsy (pe_confidence c) ->
                           ent_confidence e = (1 # 2)%Q))
                    parsed Sample.entities).
Proof.
  split; [reflexivity|].
  eapply (agents_normalize_confidence
            Sample.entityCapability Sample.relationshipCapability
            Sample.paper0 "body" Sample.entities None empty_state).
  - reflexivity.
  - reflexivity.
Defined.

(** ** Canonicalizer *)

Example normalize_gaussian :
  normalizeName "  Gaussian   Splatting! " = "gaussian splatting"
  /\ normalizeName "gaussian splatting" = "gaussian splatting".
Proof. split; reflexivity. Qed.

(** C3. The canonicalizer is not idempotent: the special characters are
    removed after the white space was collapsed, so a special character
    between two spaces leaves a double space, which a second pass
    collapses. *)
Theorem normalizeName_not_idempotent :
  normalizeName "a ! b" = "a  b"
  /\ normalizeName (normalizeName "a ! b") = "a b"
  /\ normalizeName (normalizeName "a ! b") <> normalizeName "a ! b".
Proof.
  split; [reflexivity | split; [reflexivity|]].
  intros H. vm_compute in H. discriminate H.
Qed.

(** A special character next to the border leaves a space there, which
    only a second pass trims. *)
Example normalizeName_leaves_border_space :
  normalizeName "! a" = " a" /\ normalizeName " a" = "a".
Proof. split; reflexivity. Qed.

(** *** Where the canonicalizer is idempotent *)

Lemma toLowerChar_idempotent (c : ascii) : toLowerChar (toLowerChar c) = toLowerChar c.
Proof. destruct c as [[] [] [] [] [] [] [] []]; reflexivity. Qed.

Lemma toLowerChar_kept (c : ascii) :
  keptChar c = true -> keptChar (toLowerChar c) = true.
Proof. destruct c as [[] [] [] [] [] [] [] []]; intros H; try reflexivity; discriminate H. Qed.

Lemma trimStart_idempotent (l : list ascii) : trimStart (trimStart l) = trimStart l.
Proof.
  induction l as [|c l IH]; [reflexivity|].
  simpl. destruct (isSpace c) eqn:E; [exact IH|]. simpl. now rewrite E.
Qed.

Lemma trimStart_snoc (l : list ascii) (c : ascii) :
  isSpace c = false -> trimStart (l ++ [c]) = (trimStart l ++ [c])%list.
Proof.
  intros Hc. induction l as [|d l IH]; simpl; [now rewrite Hc|].
  destruct (isSpace d); [exact IH | reflexivity].
Qed.

Lemma trimStart_length (l : list ascii) : length (trimStart l) <= length l.
Proof.
  induction l as [|c l IH]; simpl; [lia|]. destruct (isSpace c); simpl; lia.
Qed.

Lemma trimEnd_idempotent (l : list ascii) : trimEnd (trimEnd l) = trimEnd l.
Proof. unfold trimEnd. now rewrite rev_involutive, trimStart_idempotent. Qed.

Lemma trimEnd_snoc (l : list ascii) (c : ascii) :
  isSpace c = false -> trimEnd (l ++ [c]) = (l ++ [c])%list.
Proof.
  intros Hc. unfold trimEnd. rewrite rev_app_distr. simpl. rewrite Hc.
  simpl. now rewrite rev_involutive.
Qed.

(** A list that [trimEnd] leaves alone is empty or ends in a character
    that is no white space. *)
Lemma trimEnd_fixed (l : list ascii) :
  trimEnd l = l -> l = [] \/ exists l' c, l = (l' ++ [c])%list /\ isSpace c = false.
Proof.
  destruct l as [|c l' _] using rev_ind; [auto|].
  intros H. right. exists l', c. split; [reflexivity|].
  destruct (isSpace c) eqn:E; [|reflexivity]. exfalso.
  unfold trimEnd in H. rewrite rev_app_distr in H. simpl in H. rewrite E in H.
  apply (f_equal (@length _)) in H. rewrite length_rev, length_app in H. simpl in H.
  pose proof (trimStart_length (rev l')) as Hlen. rewrite length_rev in Hlen. lia.
Qed.

Lemma trimStart_trimEnd (l : list ascii) :
  trimStart l = l -> trimStart (trimEnd l) = trimEnd l.
Proof.
  destruct l as [|c l]; [reflexivity|]. simpl.
  destruct (isSpace c) eqn:E.
  - intros H. apply (f_equal (@length _)) in H. simpl in H.
    pose proof (trimStart_length l). lia.
  - intros _. unfold trimEnd. simpl. rewrite (trimStart_snoc _ _ E), rev_app_distr.
    simpl. now rewrite E.
Qed.

Lemma trim_fixed (l : list ascii) :
  trimStart (trim l) = trim l /\ trimEnd (trim l) = trim l.
Proof.
  unfold trim. split.
  - apply trimStart_trimEnd, trimStart_idempotent.
  - apply trimEnd_idempotent.
Qed.

Lemma collapseFrom_idempotent (l : list ascii) :
  forall inRun, collapseFrom inRun (collapseFrom inRun l) = collapseFrom inRun l.
Proof.
  induction l as [|c l IH]; intros b; [reflexivity|].
  simpl. destruct (isSpace c) eqn:E.
  - destruct b; [apply IH|]. simpl. now rewrite IH.
  - simpl. rewrite E. now rewrite IH.
Qed.

Lemma collapseFrom_snoc (l : list ascii) (c : ascii) :
  isSpace c = false ->
  forall inRun, collapseFrom inRun (l ++ [c]) = (collapseFrom inRun l ++ [c])%list.
Proof.
  intros Hc. induction l as [|d l IH]; intros b; simpl; [now rewrite Hc|].
  destruct (isSpace d); [destruct b|]; now rewrite IH.
Qed.

Lemma collapseSpaces_trimmed (l : list ascii) :
  trimStart l = l -> trimEnd l = l ->
  trim (collapseSpaces l) = collapseSpaces l.
Proof.
  intros Hs He. unfold trim, collapseSpaces.
  assert (Hstart : trimStart (collapseFrom false l) = collapseFrom false l).
  { destruct l as [|c l]; [reflexivity|]. simpl in *.
    destruct (isSpace c) eqn:E; [|simpl; now rewrite E].
    apply (f_equal (@length _)) in Hs. simpl in Hs.
    pose proof (trimStart_length l). lia. }
  rewrite Hstart.
  destruct (trimEnd_fixed l He) as [-> | (l' & c & -> & Hc)]; [reflexivity|].
  rewrite (collapseFrom_snoc _ _ Hc). now apply trimEnd_snoc.
Qed.

Section Lowered.
Let lowered (l : list ascii) : Prop := Forall (fun c => toLowerChar c = c) l.

Lemma lowered_fixed l : lowered l -> toLowerCase l = l.
Proof.
  induction 1 as [|c l Hc _ IH]; [reflexivity|].
  unfold toLowerCase in *. simpl. now rewrite Hc, IH.
Qed.

Lemma Forall_trimStart (P : ascii -> Prop) l : Forall P l -> Forall P (trimStart l).
Proof.
  induction 1 as [|c l Hc Hl IH]; [constructor|].
  simpl. destruct (isSpace c); [exact IH | now constructor].
Qed.

Lemma Forall_trim (P : ascii -> Prop) l : Forall P l -> Forall P (trim l).
Proof.
  intros H. unfold trim, trimEnd.
  apply Forall_rev, Forall_trimStart, Forall_rev, Forall_trimStart, H.
Qed.

Lemma Forall_collapseFrom (P : ascii -> Prop) l :
  P " "%char -> Forall P l -> forall inRun, Forall P (collapseFrom inRun l).
Proof.
  intros Hsp. induction 1 as [|c l Hc Hl IH]; intros b; [constructor|].
  simpl. destruct (isSpace c); [destruct b|]; auto.
Qed.

(** On a name without special characters the canonicalizer is
    idempotent. *)
Lemma normalizeChars_idempotent_plain (l : list ascii) :
  Forall (fun c => keptChar c = true) l ->
  normalizeChars (normalizeChars l) = normalizeChars l.
Proof.
  intros Hkept. unfold normalizeChars.
  set (t := trim (toLowerCase l)).
  assert (Hkept_t : Forall (fun c => keptChar c = true) (collapseSpaces t)).
  { apply Forall_collapseFrom; [reflexivity|]. apply Forall_trim.
    unfold toLowerCase. apply Forall_map.
    now apply (Forall_impl _ _ _ Hkept), toLowerChar_kept. }
  assert (Hstrip : forall x, Forall (fun c => keptChar c = true) x -> stripSpecial x = x).
  { induction 1 as [|c x Hc _ IH]; [reflexivity|].
    unfold stripSpecial in *. simpl. now rewrite Hc, IH. }
  rewrite (Hstrip _ Hkept_t).
  assert (Hlow : lowered (collapseSpaces t)).
  { apply Forall_collapseFrom; [reflexivity|]. apply Forall_trim.
    unfold toLowerCase. apply Forall_map. apply Forall_forall.
    intros c _. apply toLowerChar_idempotent. }
  rewrite (lowered_fixed _ Hlow).
  destruct (trim_fixed (toLowerCase l)) as [Hs He]. fold t in Hs, He.
  rewrite (collapseSpaces_trimmed t Hs He).
  unfold collapseSpaces at 1. rewrite collapseFrom_idempotent.
  apply (Hstrip _ Hkept_t).
Qed.
End Lowered.

(** X2. On a name without special characters (only word characters, white
    space and hyphens) canonicalization is idempotent: the canonical name of
    a canonical name is that name. *)
Lemma normalizeName_idempotent_plain (name : string) :
  plain_name name -> normalizeName (normalizeName name) = normalizeName name.
Proof.
  intros H. unfold normalizeName.
  rewrite list_ascii_of_string_of_list_ascii.
  now rewrite normalizeChars_idempotent_plain.
Qed.

(** ** Rows and unique keys *)

Lemma find_update_first {A} (p : A -> bool) (f : A -> A) (l : list A) (x : A) :
  List.find p l = Some x -> p (f x) = true ->
  List.find p (update_first p f l) = Some (f x).
Proof.
  induction l as [|y l IH]; simpl; [discriminate|].
  destruct (p y) eqn:E.
  - intros [= ->] Hf. simpl. now rewrite Hf.
  - intros Hx Hf. simpl. rewrite E. auto.
Qed.

Lemma update_first_none {A} (p : A -> bool) (f : A -> A) (l : list A) :
  List.find p l = None -> update_first p f l = l.
Proof.
  induction l as [|y l IH]; simpl; [reflexivity|].
  destruct (p y); [discriminate|]. intros H. now rewrite IH.
Qed.

Lemma map_update_first {A B} (g : A -> B) (p : A -> bool) (f : A -> A) (l : list A) :
  (forall x, g (f x) = g x) -> map g (update_first p f l) = map g l.
Proof.
  intros Hg. induction l as [|y l IH]; simpl; [reflexivity|].
  destruct (p y); simpl; [now rewrite Hg | now rewrite IH].
Qed.

Lemma find_none_filter {A} (p : A -> bool) (l : list A) :
  List.find p l = None -> List.filter p l = [].
Proof.
  induction l as [|y l IH]; simpl; [reflexivity|].
  destruct (p y); [discriminate | auto].
Qed.

Lemma find_app_none {A} (p : A -> bool) (l l' : list A) :
  List.find p l = None -> List.find p (l ++ l') = List.find p l'.
Proof.
  induction l as [|y l IH]; simpl; [reflexivity|].
  destruct (p y); [discriminate | auto].
Qed.

Lemma find_app_some {A} (p : A -> bool) (l l' : list A) (x : A) :
  List.find p l = Some x -> List.find p (l ++ l') = Some x.
Proof.
  induction l as [|y l IH]; simpl; [discriminate|].
  destruct (p y); auto.
Qed.

Section UniqueKey.
Context {A K : Type} (key : A -> K) (p : K -> A -> bool).
Hypothesis p_key : forall k x, p k x = true <-> key x = k.

Lemma filter_key_absent (k : K) (l : list A) :
  k ∉ map key l -> List.filter (p k) l = [].
Proof.
  induction l as [|y l IH]; simpl; [reflexivity|].
  intros Hk. apply not_elem_of_cons in Hk as [Hy Hl].
  destruct (p k y) eqn:E; [|auto].
  apply p_key in E. congruence.
Qed.

(** The row rewritten by [DO UPDATE] is the only row with the key when
    the unique constraint held before. *)
Lemma filter_update_first (k : K) (f : A -> A) (l : list A) (x : A) :
  NoDup (map key l) -> (forall y, key (f y) = key y) ->
  List.find (p k) l = Some x ->
  List.filter (p k) (update_first (p k) f l) = [f x].
Proof.
  intros Hnd Hf. induction l as [|y l IH]; simpl; [discriminate|].
  simpl in Hnd. apply NoDup_cons in Hnd as [Hy Hnd].
  destruct (p k y) eqn:E.
  - intros [= ->]. simpl.
    assert (Hfx : p k (f x) = true) by (apply p_key; rewrite Hf; now apply p_key).
    rewrite Hfx. f_equal. apply filter_key_absent.
    apply p_key in E. now rewrite <- E.
  - intros Hx. simpl. rewrite E. auto.
Qed.

Lemma filter_append_fresh (k : K) (l : list A) (x : A) :
  List.find (p k) l = None -> key x = k ->
  List.filter (p k) (l ++ [x]) = [x].
Proof.
  intros Hl Hx. rewrite List.filter_app, (find_none_filter _ _ Hl). simpl.
  apply p_key in Hx. now rewrite Hx.
Qed.

Lemma find_none_key_absent (k : K) (l : list A) :
  List.find (p k) l = None -> k ∉ map key l.
Proof.
  induction l as [|y l IH]; simpl; [intros _; apply not_elem_of_nil|].
  destruct (p k y) eqn:E; [discriminate|].
  intros Hl. apply not_elem_of_cons. split; [|auto].
  intros Hk. symmetry in Hk. apply p_key in Hk. congruence.
Qed.

Lemma NoDup_append_fresh (k : K) (l : list A) (x : A) :
  NoDup (map key l) -> List.find (p k) l = None -> key x = k ->
  NoDup (map key (l ++ [x])).
Proof.
  intros Hnd Hl Hx. rewrite map_app. simpl. apply NoDup_app.
  split; [assumption|]. split.
  - intros y Hy Hy'. apply list_elem_of_singleton in Hy'. subst y.
    rewrite Hx in Hy. now apply find_none_key_absent in Hl.
  - apply NoDup_singleton.
Qed.

Lemma find_some_key (k : K) (l : list A) (x : A) :
  List.find (p k) l = Some x -> key x = k /\ x ∈ l.
Proof.
  intros H. apply List.find_some in H as [Hin Hp].
  split; [now apply p_key | now apply list_elem_of_In].
Qed.
End UniqueKey.

(** ** Node store *)

Lemma node_same_key (k : NodeType * string) (n : Node) :
  NodeRepository.same_key (fst k) (snd k) n = true <-> node_key n = k.
Proof.
  destruct k as [ty cn]. unfold NodeRepository.same_key, node_key. simpl.
  rewrite andb_true_iff, bool_decide_eq_true, String.eqb_eq.
  split; [intros [-> ->]; reflexivity | intros [= -> ->]; auto].
Qed.

Lemma node_same_key' :
  forall (k : NodeType * string) (n : Node),
    (fun k n => NodeRepository.same_key (fst k) (snd k) n) k n = true <-> node_key n = k.
Proof. exact node_same_key. Qed.

(** On two objects the JSONB concatenation is the shallow union. *)
Lemma jsonb_concat_shallow_union (old new : metadata_t) :
  exists merged, jsonb_concat (JbObject old) (JbObject new) = JbObject merged
                 /\ shallow_union old new merged.
Proof.
  exists (new ∪ old). split; [reflexivity|].
  intros k. rewrite lookup_union.
  destruct (new !! k), (old !! k); reflexivity.
Qed.

(** On a parameter made with [JSON.stringify] it appends the string to
    what is stored. *)
Lemma jsonb_concat_param (old : jsonb) (text : JsonText) :
  jsonb_concat old (jsonb_param text)
  = JbArray (jsonb_items old ++ [JbString text]).
Proof. destruct old; reflexivity. Qed.

Lemma upsert_unknown_kind kind name metadata extractedBy confidence st :
  node_type_of_string kind = None ->
  exists e, NodeRepository.upsert kind name metadata extractedBy confidence st = (Throw e, st).
Proof. intros H. unfold NodeRepository.upsert. rewrite H. eauto. Qed.

Lemma upsert_existing kind ty name metadata extractedBy confidence st existing :
  node_type_of_string kind = Some ty ->
  List.find (NodeRepository.same_key ty (normalizeName name)) (nodes st) = Some existing ->
  NodeRepository.upsert kind name metadata extractedBy confidence st =
  (Return (node_id existing),
   set_nodes (update_first (NodeRepository.same_key ty (normalizeName name))
                (NodeRepository.merge_node (clock st) metadata confidence)) st).
Proof. intros Hk Hf. unfold NodeRepository.upsert. now rewrite Hk, Hf. Qed.

Lemma upsert_fresh kind ty name metadata extractedBy confidence st :
  node_type_of_string kind = Some ty ->
  List.find (NodeRepository.same_key ty (normalizeName name)) (nodes st) = None ->
  NodeRepository.upsert kind name metadata extractedBy confidence st =
  (Return (next_uuid st),
   bump_uuid
     (set_nodes
        (fun ns => ns ++ [mkNode (next_uuid st) ty name (normalizeName name)
                                 (jsonb_param (JSON_stringify metadata))
                                 confidence extractedBy (clock st)])%list
        st)).
Proof. intros Hk Hf. unfold NodeRepository.upsert. now rewrite Hk, Hf. Qed.

Lemma merge_node_key now metadata confidence n :
  node_key (NodeRepository.merge_node now metadata confidence n) = node_key n.
Proof. reflexivity. Qed.

(** What one [upsert] of a valid kind does to a table that satisfies the
    unique constraint: it returns the id of the one node that carries the
    key afterwards, and the constraint still holds. *)
Lemma upsert_one_node kind ty name metadata extractedBy confidence st :
  node_type_of_string kind = Some ty ->
  nodes_unique st ->
  exists st1 n,
    NodeRepository.upsert kind name metadata extractedBy confidence st
    = (Return (node_id n), st1)
    /\ List.filter (NodeRepository.same_key ty (normalizeName name)) (nodes st1) = [n]
    /\ List.find (NodeRepository.same_key ty (normalizeName name)) (nodes st1) = Some n
    /\ nodes_unique st1.
Proof.
  intros Hk Hu.
  set (cn := normalizeName name).
  destruct (List.find (NodeRepository.same_key ty cn) (nodes st)) as [ex|] eqn:Hf.
  - exists (set_nodes (update_first (NodeRepository.same_key ty cn)
                         (NodeRepository.merge_node (clock st) metadata confidence)) st),
           (NodeRepository.merge_node (clock st) metadata confidence ex).
    split; [subst cn; now rewrite (upsert_existing _ _ _ _ _ _ _ _ Hk Hf)|]. simpl. split; [|split].
    + apply (filter_update_first node_key _ node_same_key' (ty, cn)); auto.
    + apply find_update_first; [assumption|].
      apply (node_same_key (ty, cn)). rewrite merge_node_key.
      now apply (find_some_key node_key _ node_same_key' (ty, cn)) in Hf as [? _].
    + unfold nodes_unique. simpl. now rewrite map_update_first.
  - set (new := mkNode (next_uuid st) ty name cn
                       (jsonb_param (JSON_stringify metadata)) confidence extractedBy
                       (clock st)).
    exists (bump_uuid (set_nodes (fun ns => ns ++ [new])%list st)), new.
    split; [subst cn new; now rewrite (upsert_fresh _ _ _ _ _ _ _ Hk Hf)|]. simpl. split; [|split].
    + now apply (filter_append_fresh node_key _ node_same_key' (ty, cn)).
    + rewrite (find_app_none _ _ _ Hf). simpl.
      replace (NodeRepository.same_key ty cn new) with true; [reflexivity|].
      symmetry. now apply (node_same_key (ty, cn)).
    + unfold nodes_unique. simpl.
      now apply (NoDup_append_fresh node_key _ node_same_key' (ty, cn)).
Qed.

(** X23. Node-store upsert is convergent on ids and confidences.  If a node
    with the key (kind, normalize(name)) exists, upsert merges into it: it
    returns that node's id, the confidence becomes the maximum of the old
    and the new one (so it never decreases), exactly one node carries the
    key, and the stored metadata becomes the stored value followed by the
    JSON text of the new metadata.  Repeated calls with the same (kind,
    normalize(name)) return the same id and leave exactly one node with that
    key. *)
Theorem node_upsert_convergent
        (st : State) (kind : string) (ty : NodeType)
        (name name' : string) (metadata metadata' : metadata_t)
        (extractedBy extractedBy' : string) (confidence confidence' : Q) :
  node_type_of_string kind = Some ty ->
  nodes_unique st ->
  normalizeName name' = normalizeName name ->
  (forall existing,
      List.find (NodeRepository.same_key ty (normalizeName name)) (nodes st)
      = Some existing ->
      exists st1 merged,
        NodeRepository.upsert kind name metadata extractedBy confidence st
        = (Return (node_id existing), st1)
        /\ List.filter (NodeRepository.same_key ty (normalizeName name)) (nodes st1)
           = [merged]
        /\ node_id merged = node_id existing
        /\ node_metadata merged
           = JbArray (jsonb_items (node_metadata existing)
                        ++ [JbString (JSON_stringify metadata)])
        /\ extraction_confidence merged
           = GREATEST (extraction_confidence existing) confidence
        /\ conf_le (extraction_confidence existing) (extraction_confidence merged)
        /\ conf_le confidence (extraction_confidence merged))
  /\ (exists id st1 st2 n1 n2,
         NodeRepository.upsert kind name metadata extractedBy confidence st
         = (Return id, st1)
         /\ NodeRepository.upsert kind name' metadata' extractedBy' confidence' st1
            = (Return id, st2)
         /\ List.filter (NodeRepository.same_key ty (normalizeName name)) (nodes st1)
            = [n1]
         /\ List.filter (NodeRepository.same_key ty (normalizeName name)) (nodes st2)
            = [n2]
         /\ node_id n1 = id /\ node_id n2 = id
         /\ node_metadata n2
            = JbArray (jsonb_items (node_metadata n1)
                         ++ [JbString (JSON_stringify metadata')])
         /\ extraction_confidence n2 = GREATEST (extraction_confidence n1) confidence'
         /\ nodes_unique st2).
Proof.
  intros Hk Hu Hn.
  assert (Hmerge :
    forall st0 nm md eb c existing,
      nodes_unique st0 ->
      normalizeName nm = normalizeName name ->
      List.find (NodeRepository.same_key ty (normalizeName name)) (nodes st0)
      = Some existing ->
      exists st1 merged,
        NodeRepository.upsert kind nm md eb c st0 = (Return (node_id existing), st1)
        /\ List.filter (NodeRepository.same_key ty (normalizeName name)) (nodes st1)
           = [merged]
        /\ node_id merged = node_id existing
        /\ node_metadata merged
           = JbArray (jsonb_items (node_metadata existing)
                        ++ [JbString (JSON_stringify md)])
        /\ extraction_confidence merged = GREATEST (extraction_confidence existing) c
        /\ nodes_unique st1).
  { intros st0 nm md eb c ex Hu0 Hnm Hf.
    eexists _, (NodeRepository.merge_node (clock st0) md c ex).
    split; [apply upsert_existing; [exact Hk | now rewrite Hnm]|].
    rewrite Hnm. simpl. split; [|split; [|split; [|split]]].
    - apply (filter_update_first node_key _ node_same_key' (ty, normalizeName name)); auto.
    - reflexivity.
    - apply jsonb_concat_param.
    - reflexivity.
    - unfold nodes_unique. simpl. now rewrite map_update_first. }
  split.
  - intros ex Hf.
    destruct (Hmerge st name metadata extractedBy confidence ex Hu eq_refl Hf)
      as (st1 & merged & Hrun & Hone & Hid & Hmd & Hc & _).
    exists st1, merged. repeat (split; [assumption|]).
    rewrite Hc. split; [apply GREATEST_ge_l | apply GREATEST_ge_r].
  - destruct (upsert_one_node kind ty name metadata extractedBy confidence st Hk Hu)
      as (st1 & n1 & Hrun1 & Hone1 & Hfind1 & Hu1).
    destruct (Hmerge st1 name' metadata' extractedBy' confidence' n1 Hu1 Hn Hfind1)
      as (st2 & n2 & Hrun2 & Hone2 & Hid2 & Hmd2 & Hc2 & Hu2).
    exists (node_id n1), st1, st2, n1, n2. repeat (split; [assumption|]).
    split; [reflexivity|]. repeat (split; [assumption|]). assumption.
Qed.

Lemma node_upsert_convergent_witness :
  exists id st1 st2,
    NodeRepository.upsert "technique" "Technique X" SampleStore.md_a
                          "EntityExtractor" (6 # 10)%Q empty_state = (Return id, st1)
    /\ NodeRepository.upsert "technique" " technique   x!" SampleStore.md_b
                             "EntityExtractor" (9 # 10)%Q st1 = (Return id, st2)
    /\ nodes_unique st2.
Proof.
  destruct (node_upsert_convergent
              empty_state "technique" technique "Technique X" " technique   x!"
              SampleStore.md_a SampleStore.md_b "EntityExtractor" "EntityExtractor"
              (6 # 10)%Q (9 # 10)%Q)
    as [_ (id & st1 & st2 & n1 & n2 & H1 & H2 & _ & _ & _ & _ & _ & _ & Hu)].
  - reflexivity.
  - apply NoDup_nil_2.
  - reflexivity.
  - exists id, st1, st2. auto.
Defined.

(** C1 fails on the code, in its metadata.  The scenario of the
    specification, an upsert of "Technique X" with confidence 0.6 and
    metadata {section: "Methods"} followed by one with confidence 0.9 and
    metadata {section: "Results", year: 2023}: both calls return the same
    id and leave one node, with confidence 0.9; but the node's metadata is
    the array of the two JSON texts, in the order of the calls, and not the
    object {section: "Results", year: 2023} that is the shallow union of the
    two.  (Already the first call stores a JSON string in place of the
    object.) *)
Theorem node_upsert_metadata_not_merged :
  let first := NodeRepository.upsert "technique" "Technique X" SampleStore.md_a
                                     "EntityExtractor" (6 # 10)%Q empty_state in
  let second := NodeRepository.upsert "technique" "Technique X" SampleStore.md_b
                                      "EntityExtractor" (9 # 10)%Q (snd first) in
  fst first = Return 0
  /\ map node_metadata (nodes (snd first))
     = [JbString (JSON_stringify SampleStore.md_a)]
  /\ fst second = Return 0
  /\ map node_key (nodes (snd second)) = [(technique, "technique x")]
  /\ map extraction_confidence (nodes (snd second)) = [(9 # 10)%Q]
  /\ map node_metadata (nodes (snd second))
     = [JbArray [JbString (JSON_stringify SampleStore.md_a);
                 JbString (JSON_stringify SampleStore.md_b)]]
  /\ shallow_union SampleStore.md_a SampleStore.md_b
                   {[ "section" := JString "Results"; "year" := JNumber 2023%Q ]}
  /\ (forall merged, map node_metadata (nodes (snd second)) <> [JbObject merged]).
Proof.
  cbv zeta. repeat (split; [reflexivity|]). split.
  - intros k.
    destruct (decide (k = "section")) as [-> | Hs]; [reflexivity|].
    destruct (decide (k = "year")) as [-> | Hy]; [reflexivity|].
    unfold SampleStore.md_a, SampleStore.md_b.
    rewrite !lookup_insert_ne by congruence.
    rewrite !lookup_singleton_ne by congruence. reflexivity.
  - intros merged. discriminate.
Qed.

Lemma update_first_elem {A} (p : A -> bool) (f : A -> A) (l : list A) (x : A) :
  List.find p l = Some x -> f x ∈ update_first p f l.
Proof.
  induction l as [|y l IH]; simpl; [discriminate|].
  destruct (p y).
  - intros [= ->]. apply list_elem_of_here.
  - intros H. apply list_elem_of_further. auto.
Qed.

(** C8 (as the code has it).  Upsert fails, leaving the store as it was,
    when the kind is not a label of the node-kind enumeration; the error is
    the database's, there is no ValidationError.  An empty name is accepted:
    the call returns the id of a node of that kind whose canonical name is
    the empty string. *)
Theorem node_upsert_validation
        (kind name : string) (metadata : metadata_t) (extractedBy : string)
        (confidence : Q) (st : State) :
  (node_type_of_string kind = None ->
   exists e,
     NodeRepository.upsert kind name metadata extractedBy confidence st = (Throw e, st))
  /\ (forall ty,
         node_type_of_string kind = Some ty ->
         exists n st',
           NodeRepository.upsert kind "" metadata extractedBy confidence st
           = (Return (node_id n), st')
           /\ n ∈ nodes st' /\ node_type n = ty /\ canonical_name n = "").
Proof.
  split; [apply upsert_unknown_kind|].
  intros ty Hk.
  destruct (List.find (NodeRepository.same_key ty (normalizeName "")) (nodes st))
    as [ex|] eqn:Hf.
  - exists (NodeRepository.merge_node (clock st) metadata confidence ex).
    eexists. rewrite (upsert_existing _ _ _ _ _ _ _ _ Hk Hf).
    split; [reflexivity|]. simpl.
    split; [now apply update_first_elem|].
    apply (find_some_key node_key _ node_same_key' (ty, normalizeName "")) in Hf
      as [[= Hty Hcn] _].
    split; [exact Hty | exact Hcn].
  - eexists (mkNode (next_uuid st) ty "" (normalizeName "")
                    (jsonb_param (JSON_stringify metadata)) confidence
                    extractedBy (clock st)).
    eexists. rewrite (upsert_fresh _ _ _ _ _ _ _ Hk Hf).
    split; [reflexivity|]. simpl.
    split; [|split; reflexivity].
    apply elem_of_app. right. apply list_elem_of_here.
Qed.

Lemma node_upsert_validation_witness :
  (exists e,
      NodeRepository.upsert "algorithm" "Adam" ∅ "system" 1%Q empty_state
      = (Throw e, empty_state))
  /\ (exists n st',
         NodeRepository.upsert "concept" "" ∅ "system" 1%Q empty_state
         = (Return (node_id n), st')
         /\ n ∈ nodes st' /\ node_type n = concept /\ canonical_name n = "").
Proof.
  split.
  - apply (node_upsert_validation "algorithm" "Adam" ∅ "system" 1%Q empty_state).
    reflexivity.
  - apply (node_upsert_validation "concept" "" ∅ "system" 1%Q empty_state).
    reflexivity.
Defined.

(** C8 fails on the code: with the empty name and a known kind, upsert does
    not fail; it creates a node. *)
Lemma node_upsert_accepts_empty_name :
  NodeRepository.upsert "concept" "" ∅ "system" 1%Q empty_state
  = (Return 0, mkState [mkNode 0 concept "" "" (JbString (JSON_stringify ∅)) 1%Q "system" 0] [] [] [] 1 0 [])
  /\ ~ (exists e st',
           NodeRepository.upsert "concept" "" ∅ "system" 1%Q empty_state
           = (Throw e, st')).
Proof.
  split; [reflexivity|].
  intros (e & st' & H). vm_compute in H. discriminate H.
Qed.

(** ** Edge store *)

Lemma edge_same_key (k : EdgeType * Id * Id) (e : Edge) :
  (fun k e => EdgeRepository.same_key (fst (fst k)) (snd (fst k)) (snd k) e) k e = true
  <-> edge_key e = k.
Proof.
  destruct k as [[ty s] t]. unfold EdgeRepository.same_key, edge_key. simpl.
  rewrite !andb_true_iff, bool_decide_eq_true, !Nat.eqb_eq.
  split; [intros [[-> ->] ->]; reflexivity | intros [= -> -> ->]; auto].
Qed.

Lemma create_unknown_kind kind s t description evidence confidence extractedBy metadata st :
  edge_type_of_string kind = None ->
  exists e,
    EdgeRepository.create kind s t description evidence confidence extractedBy metadata st
    = (Throw e, st).
Proof. intros H. unfold EdgeRepository.create. rewrite H. eauto. Qed.

Lemma create_existing kind ty s t description evidence confidence extractedBy metadata
      st existing :
  edge_type_of_string kind = Some ty ->
  List.find (EdgeRepository.same_key ty s t) (edges st) = Some existing ->
  EdgeRepository.create kind s t description evidence confidence extractedBy metadata st
  = (Return (edge_id existing),
     set_edges (update_first (EdgeRepository.same_key ty s t)
                  (EdgeRepository.merge_edge (orNull description) (orNull evidence)
                                             confidence metadata)) st).
Proof. intros Hk Hf. unfold EdgeRepository.create. now rewrite Hk, Hf. Qed.

Lemma create_fresh kind ty s t description evidence confidence extractedBy metadata st :
  edge_type_of_string kind = Some ty ->
  List.find (EdgeRepository.same_key ty s t) (edges st) = None ->
  EdgeRepository.create kind s t description evidence confidence extractedBy metadata st
  = if EdgeRepository.node_exists s st && EdgeRepository.node_exists t st
    then (Return (next_uuid st),
          bump_uuid
            (set_edges
               (fun es => es ++ [mkEdge (next_uuid st) ty s t (orNull description)
                                        (orNull evidence) confidence extractedBy
                                        (jsonb_param (JSON_stringify metadata))])%list
               st))
    else (Throw (Error "insert or update on table edges violates foreign key constraint"),
          st).
Proof. intros Hk Hf. unfold EdgeRepository.create. now rewrite Hk, Hf. Qed.

Lemma COALESCE_orNull_text_merged (old new : option string) :
  text_merged old new (COALESCE (orNull new) old).
Proof.
  unfold text_merged, orNull, COALESCE.
  destruct new as [s|]; [|reflexivity].
  destruct (String.eqb s ""); reflexivity.
Qed.

(** C2 (as the code has it).  Edge-store create is idempotent on the key
    (kind, source_id, target_id): on conflict it returns the id of the
    stored edge and exactly one edge carries the key; description and
    evidence are replaced whenever the incoming value is non-empty, whether
    or not a text was stored, and kept when the incoming value is absent or
    empty; the confidence becomes the maximum of the old and the new
    one. *)
Theorem edge_create_merges
        (st : State) (kind : string) (ty : EdgeType) (sourceId targetId : Id)
        (description evidence : option string) (confidence : Q)
        (extractedBy : string) (metadata : metadata_t) (existing : Edge) :
  edge_type_of_string kind = Some ty ->
  edges_unique st ->
  List.find (EdgeRepository.same_key ty sourceId targetId) (edges st) = Some existing ->
  exists st1 merged,
    EdgeRepository.create kind sourceId targetId description evidence confidence
                          extractedBy metadata st
    = (Return (edge_id existing), st1)
    /\ List.filter (EdgeRepository.same_key ty sourceId targetId) (edges st1) = [merged]
    /\ edge_id merged = edge_id existing
    /\ text_merged (edge_description existing) description (edge_description merged)
    /\ text_merged (edge_evidence existing) evidence (edge_evidence merged)
    /\ edge_confidence merged = GREATEST (edge_confidence existing) confidence
    /\ conf_le (edge_confidence existing) (edge_confidence merged)
    /\ conf_le confidence (edge_confidence merged)
    /\ edges_unique st1.
Proof.
  intros Hk Hu Hf.
  eexists _, (EdgeRepository.merge_edge (orNull description) (orNull evidence)
                                        confidence metadata existing).
  split; [now rewrite (create_existing _ _ _ _ _ _ _ _ _ _ _ Hk Hf)|]. simpl.
  split; [|split; [reflexivity|]].
  { apply (filter_update_first edge_key _ edge_same_key (ty, sourceId, targetId));
      auto. }
  split; [apply COALESCE_orNull_text_merged|].
  split; [apply COALESCE_orNull_text_merged|].
  split; [reflexivity|].
  split; [apply GREATEST_ge_l|].
  split; [apply GREATEST_ge_r|].
  unfold edges_unique. simpl. now rewrite map_update_first.
Qed.

Lemma edge_create_merges_witness :
  exists st1 merged,
    EdgeRepository.create "improves_on" 0 1 None None (9 # 10)%Q
                          "RelationshipExtractor" ∅ SampleEdges.st_edge
    = (Return 2, st1)
    /\ List.filter (EdgeRepository.same_key improves_on 0 1) (edges st1) = [merged]
    /\ text_merged (Some "e1") None (edge_evidence merged)
    /\ edge_confidence merged = GREATEST (1 # 2)%Q (9 # 10)%Q.
Proof.
  destruct (edge_create_merges
              SampleEdges.st_edge "improves_on" improves_on 0 1 None None (9 # 10)%Q
              "RelationshipExtractor" ∅
              (mkEdge 2 improves_on 0 1 None (Some "e1") (1 # 2)%Q
                      "RelationshipExtractor" (jsonb_param (JSON_stringify ∅))))
    as (st1 & merged & Hrun & Hone & _ & _ & Hev & Hc & _).
  - reflexivity.
  - vm_compute. apply NoDup_singleton.
  - reflexivity.
  - exists st1, merged. auto.
Defined.

(** The scenario of the specification: the edge created with evidence "e1"
    and confidence 0.5, created again with no evidence and confidence 0.9,
    is one edge with evidence "e1" and confidence 0.9. *)
Example edge_recreate_keeps_evidence :
  EdgeRepository.create "improves_on" 0 1 None None (9 # 10)%Q
                        "RelationshipExtractor" ∅ SampleEdges.st_edge
  = (Return 2,
     mkState (nodes SampleEdges.st_nodes)
             [mkEdge 2 improves_on 0 1 None (Some "e1") (9 # 10)%Q
                     "RelationshipExtractor"
                     (JbArray [JbString (JSON_stringify ∅);
                               JbString (JSON_stringify ∅)])]
             [] [] 3 0 []).
Proof. vm_compute. reflexivity. Qed.

(** C2 fails on the code: a stored, non-empty evidence "e1" is replaced by
    an incoming "e2", where the rule prefer-new-if-absent keeps "e1". *)
Lemma edge_create_overwrites_evidence :
  map edge_evidence (edges SampleEdges.st_edge) = [Some "e1"]
  /\ map edge_evidence
         (edges (snd (EdgeRepository.create "improves_on" 0 1 None (Some "e2")
                                            (1 # 2)%Q "RelationshipExtractor" ∅
                                            SampleEdges.st_edge)))
     = [Some "e2"]
  /\ prefer_new_if_absent (Some "e1") (Some "e2") = Some "e1".
Proof. repeat split. Qed.

(** ** Entity resolution and the batch of relationships *)

Section Relationships.
Variable ranked_search : list Node -> string -> option NodeType -> nat -> list Node.
Variable paperId : Id.
Variable entityNameToIdMap : gmap string Id.
Variable extractedBy : string.

Lemma resolveEntityId_run entityName st :
  EdgeRepository.resolveEntityId ranked_search entityName paperId entityNameToIdMap st
  = (Return (resolved ranked_search (nodes st) paperId entityNameToIdMap entityName), st).
Proof.
  unfold EdgeRepository.resolveEntityId, resolved.
  destruct (entityNameToIdMap !! normalizeName entityName); [reflexivity|].
  cbv [bind NodeRepository.findById NodeRepository.search ret].
  match goal with
  | |- context [if ?b then _ else _] => destruct b
  end; [reflexivity|].
  destruct (ranked_search (nodes st) entityName None 5); reflexivity.
Qed.

Lemma createRelationship_run rel createdCount st :
  EdgeRepository.createRelationship ranked_search rel paperId entityNameToIdMap
                                    extractedBy createdCount st
  = match resolved ranked_search (nodes st) paperId entityNameToIdMap (rel_source rel),
          resolved ranked_search (nodes st) paperId entityNameToIdMap (rel_target rel)
    with
    | Some s, Some t =>
        match EdgeRepository.create (rel_type rel) s t (rel_description rel)
                                    (rel_evidence rel) (rel_confidence rel)
                                    extractedBy (rel_metadata rel) st with
        | (Return _, st') => (Return (S createdCount), st')
        | (Throw _, st') => (Return createdCount, st')
        end
    | _, _ => (Return createdCount, st)
    end.
Proof.
  unfold EdgeRepository.createRelationship, try_catch, bind.
  rewrite resolveEntityId_run. cbv beta iota.
  rewrite resolveEntityId_run. cbv beta iota.
  destruct (resolved ranked_search (nodes st) paperId entityNameToIdMap (rel_source rel));
    destruct (resolved ranked_search (nodes st) paperId entityNameToIdMap
                       (rel_target rel)); try reflexivity.
  destruct (EdgeRepository.create _ _ _ _ _ _ _ _ st) as [[?|?] ?]; reflexivity.
Qed.
End Relationships.

Lemma node_exists_nodes id st st' :
  nodes st' = nodes st ->
  EdgeRepository.node_exists id st' = EdgeRepository.node_exists id st.
Proof. unfold EdgeRepository.node_exists. now intros ->. Qed.

Lemma elem_of_update_first {A} (p : A -> bool) (f : A -> A) (l : list A) (x : A) :
  x ∈ update_first p f l -> x ∈ l \/ exists y, y ∈ l /\ x = f y.
Proof.
  induction l as [|y l IH]; simpl; [auto|].
  destruct (p y).
  - intros H. apply elem_of_cons in H as [-> | H].
    + right. exists y. split; [apply list_elem_of_here | reflexivity].
    + left. now apply list_elem_of_further.
  - intros H. apply elem_of_cons in H as [-> | H].
    + left. apply list_elem_of_here.
    + destruct (IH H) as [Hl | (z & Hz & ->)].
      * left. now apply list_elem_of_further.
      * right. exists z. split; [now apply list_elem_of_further | reflexivity].
Qed.

(** An accepted [create]: the nodes stay, the key is stored, no other key
    appears or disappears, and the foreign keys still hold. *)
Lemma create_accepts kind ty s t description evidence confidence extractedBy metadata st :
  edge_type_of_string kind = Some ty ->
  EdgeRepository.node_exists s st && EdgeRepository.node_exists t st = true ->
  edges_reference_nodes st ->
  exists id st',
    EdgeRepository.create kind s t description evidence confidence extractedBy metadata st
    = (Return id, st')
    /\ nodes st' = nodes st
    /\ (forall k, k ∈ map edge_key (edges st')
                  <-> k ∈ map edge_key (edges st) \/ k = (ty, s, t))
    /\ edges_reference_nodes st'.
Proof.
  intros Hk Hn Hfk.
  destruct (List.find (EdgeRepository.same_key ty s t) (edges st)) as [ex|] eqn:Hf.
  - eexists _, _. split; [apply (create_existing _ _ _ _ _ _ _ _ _ _ _ Hk Hf)|].
    simpl. split; [reflexivity|]. split.
    + intros k. rewrite map_update_first by reflexivity.
      split; [auto|]. intros [H | ->]; [assumption|].
      apply (find_some_key edge_key _ edge_same_key (ty, s, t)) in Hf as [<- Hin].
      apply list_elem_of_fmap. exists ex. auto.
    + intros e He. simpl in He. apply elem_of_update_first in He as [He | (y & Hy & ->)].
      * apply (Hfk e He).
      * apply (Hfk y Hy).
  - rewrite (create_fresh _ _ _ _ _ _ _ _ _ _ Hk Hf), Hn.
    eexists _, _. split; [reflexivity|]. simpl. split; [reflexivity|]. split.
    + intros k. rewrite map_app, elem_of_app. simpl.
      rewrite list_elem_of_singleton. reflexivity.
    + intros e He. simpl in He. apply elem_of_app in He as [He | He].
      * apply (Hfk e He).
      * apply list_elem_of_singleton in He. subst e. simpl.
        apply andb_true_iff in Hn. exact Hn.
Qed.

(** A rejected [create]: an endpoint id that is no node's id violates the
    foreign key, and the store stays as it was. *)
Lemma create_rejects kind ty s t description evidence confidence extractedBy metadata st :
  edge_type_of_string kind = Some ty ->
  EdgeRepository.node_exists s st && EdgeRepository.node_exists t st = false ->
  edges_reference_nodes st ->
  exists e,
    EdgeRepository.create kind s t description evidence confidence extractedBy metadata st
    = (Throw e, st).
Proof.
  intros Hk Hn Hfk.
  destruct (List.find (EdgeRepository.same_key ty s t) (edges st)) as [ex|] eqn:Hf.
  - apply (find_some_key edge_key _ edge_same_key (ty, s, t)) in Hf as [[= _ Hs Ht] Hin].
    destruct (Hfk ex Hin) as [H1 H2]. rewrite Hs in H1. rewrite Ht in H2.
    rewrite H1, H2 in Hn. discriminate.
  - rewrite (create_fresh _ _ _ _ _ _ _ _ _ _ Hk Hf), Hn. eauto.
Qed.

(** The case of a relationship that leaves the store [st] as it was. *)
Ltac skipped_relationship st :=
  exists st;
  split; [reflexivity|]; split; [reflexivity|]; split; [assumption|];
  split; [reflexivity|];
  let k := fresh "k" in
  let Hk := fresh "Hk" in
  intros k; split; [auto | intros [Hk|Hk]; [exact Hk | discriminate Hk]].

Section Batch.
Variable ranked_search : list Node -> string -> option NodeType -> nat -> list Node.
Variable paperId : Id.
Variable entityNameToIdMap : gmap string Id.
Variable extractedBy : string.

Let plan (st : State) := planned_key ranked_search (nodes st) paperId entityNameToIdMap.

(** One relationship: the edge is stored exactly when [planned_key] gives
    its key; otherwise nothing changes.  Either way the turn returns. *)
Lemma createRelationship_step rel createdCount st :
  edges_reference_nodes st ->
  exists st1,
    EdgeRepository.createRelationship ranked_search rel paperId entityNameToIdMap
                                      extractedBy createdCount st
    = (Return (match plan st rel with
               | Some _ => S createdCount
               | None => createdCount
               end), st1)
    /\ nodes st1 = nodes st
    /\ edges_reference_nodes st1
    /\ (plan st rel = None -> st1 = st)
    /\ (forall k, k ∈ map edge_key (edges st1)
                  <-> k ∈ map edge_key (edges st) \/ plan st rel = Some k).
Proof.
  intros Hfk. rewrite createRelationship_run. subst plan. cbv beta.
  unfold planned_key.
  destruct (resolved ranked_search (nodes st) paperId entityNameToIdMap (rel_source rel))
    as [s|]; [|skipped_relationship st].
  destruct (resolved ranked_search (nodes st) paperId entityNameToIdMap (rel_target rel))
    as [t|]; [|skipped_relationship st].
  destruct (edge_type_of_string (rel_type rel)) as [ty|] eqn:Hty.
  - change (existsb (fun n => Nat.eqb (node_id n) s) (nodes st))
      with (EdgeRepository.node_exists s st).
    change (existsb (fun n => Nat.eqb (node_id n) t) (nodes st))
      with (EdgeRepository.node_exists t st).
    destruct (EdgeRepository.node_exists s st && EdgeRepository.node_exists t st)
             eqn:Hn.
    + destruct (create_accepts _ _ s t (rel_description rel) (rel_evidence rel)
                               (rel_confidence rel) extractedBy (rel_metadata rel)
                               st Hty Hn Hfk)
        as (id & st1 & Hrun & Hnodes & Hkeys & Hfk1).
      rewrite Hrun. exists st1.
      split; [reflexivity|]. split; [assumption|]. split; [assumption|].
      split; [discriminate|].
      intros k. rewrite Hkeys. split.
      * intros [Hk | ->]; auto.
      * intros [Hk | [= <-]]; auto.
    + destruct (create_rejects _ _ s t (rel_description rel) (rel_evidence rel)
                               (rel_confidence rel) extractedBy (rel_metadata rel)
                               st Hty Hn Hfk) as (e & Hrun).
      rewrite Hrun. skipped_relationship st.
  - destruct (create_unknown_kind _ s t (rel_description rel) (rel_evidence rel)
                                  (rel_confidence rel) extractedBy (rel_metadata rel)
                                  st Hty) as (e & Hrun).
    rewrite Hrun. skipped_relationship st.
Qed.

Lemma createRelationships_from_run relationships :
  forall createdCount st,
    edges_reference_nodes st ->
    exists st',
      EdgeRepository.createRelationships_from ranked_search createdCount relationships
                                              paperId entityNameToIdMap extractedBy st
      = (Return (createdCount + length (omap (plan st) relationships)), st')
      /\ nodes st' = nodes st
      /\ edges_reference_nodes st'
      /\ (forall k, k ∈ map edge_key (edges st')
                    <-> k ∈ map edge_key (edges st) \/ k ∈ omap (plan st) relationships).
Proof.
  induction relationships as [|rel rest IH]; intros c st Hfk.
  - exists st. simpl. unfold ret. rewrite Nat.add_0_r.
    split; [reflexivity|]. split; [reflexivity|]. split; [assumption|].
    intros k. split; [auto|]. intros [Hk|Hk]; [exact Hk|].
    now apply elem_of_nil in Hk.
  - destruct (createRelationship_step rel c st Hfk)
      as (st1 & Hrun & Hnodes & Hfk1 & _ & Hkeys).
    destruct (IH (match plan st rel with Some _ => S c | None => c end) st1 Hfk1)
      as (st' & Hrun' & Hnodes' & Hfk' & Hkeys').
    assert (Hplan : plan st1 = plan st) by (subst plan; cbv beta; now rewrite Hnodes).
    rewrite Hplan in Hrun', Hkeys'.
    assert (Hcons : omap (plan st) (rel :: rest)
                    = match plan st rel with
                      | Some k => k :: omap (plan st) rest
                      | None => omap (plan st) rest
                      end) by reflexivity.
    exists st'. cbn [EdgeRepository.createRelationships_from]. unfold bind.
    rewrite Hrun, Hrun', Hcons.
    split; [|split; [congruence | split; [assumption|]]].
    + destruct (plan st rel); simpl; do 2 f_equal; lia.
    + intros k. rewrite Hkeys', Hkeys.
      destruct (plan st rel) as [k0|].
      * rewrite elem_of_cons. split.
        -- intros [[Hk | [= ->]] | Hk]; auto.
        -- intros [Hk | [-> | Hk]]; auto.
      * split.
        -- intros [[Hk | Hk] | Hk]; auto. discriminate Hk.
        -- intros [Hk | Hk]; auto.
Qed.
End Batch.

(** C4 (as the code has it).  For every relationship of a batch persisted
    from extraction, the edge is stored only if both of its endpoint names
    resolve to a node id via the Entity Resolver (and then exactly when the
    store accepts the edge); a relationship with an unresolved endpoint, or
    one that the store rejects, is skipped without aborting the rest of the
    batch.  The batch returns the number of relationships that the store
    accepted: one that is merged into a stored edge counts like one that
    adds an edge, so the number can exceed that of the edges added. *)
Theorem relationships_need_both_endpoints
        (ranked_search : list Node -> string -> option NodeType -> nat -> list Node)
        (relationships : list ExtractedRelationship) (paperId : Id)
        (entityNameToIdMap : gmap string Id) (extractedBy : string) (st : State) :
  edges_reference_nodes st ->
  let plan := planned_key ranked_search (nodes st) paperId entityNameToIdMap in
  exists st',
    EdgeRepository.createRelationships ranked_search relationships paperId
                                       entityNameToIdMap extractedBy st
    = (Return (length (omap plan relationships)), st')
    /\ nodes st' = nodes st
    /\ (forall k, k ∈ map edge_key (edges st')
                  <-> k ∈ map edge_key (edges st) \/ k ∈ omap plan relationships)
    /\ (forall rel,
           resolved ranked_search (nodes st) paperId entityNameToIdMap (rel_source rel)
           = None
           \/ resolved ranked_search (nodes st) paperId entityNameToIdMap (rel_target rel)
              = None ->
           plan rel = None).
Proof.
  intros Hfk plan.
  destruct (createRelationships_from_run ranked_search paperId entityNameToIdMap
              extractedBy relationships 0 st Hfk)
    as (st' & Hrun & Hnodes & _ & Hkeys).
  exists st'. unfold EdgeRepository.createRelationships.
  split; [exact Hrun|]. split; [exact Hnodes|]. split; [exact Hkeys|].
  intros rel [H | H]; subst plan; unfold planned_key; rewrite H; [reflexivity|].
  destruct (resolved ranked_search (nodes st) paperId entityNameToIdMap (rel_source rel));
    reflexivity.
Qed.

Lemma relationships_need_both_endpoints_witness :
  exists st',
    EdgeRepository.createRelationships
      SampleResolution.no_match
      [SampleResolution.x_to_zeta; SampleResolution.x_to_y] 7
      SampleResolution.entityMap "RelationshipExtractor" SampleEdges.st_nodes
    = (Return 1, st')
    /\ nodes st' = nodes SampleEdges.st_nodes.
Proof.
  destruct (relationships_need_both_endpoints
              SampleResolution.no_match
              [SampleResolution.x_to_zeta; SampleResolution.x_to_y] 7
              SampleResolution.entityMap "RelationshipExtractor" SampleEdges.st_nodes)
    as (st' & Hrun & Hnodes & _).
  - intros e He. vm_compute in He. now apply elem_of_nil in He.
  - exists st'. split; [exact Hrun | exact Hnodes].
Defined.

(** C4 fails on the code: the source of the relationship resolves, the
    target does not, and no edge is created. *)
Lemma one_resolved_endpoint_creates_no_edge :
  resolved SampleResolution.no_match (nodes SampleEdges.st_nodes) 7
           SampleResolution.entityMap (rel_source SampleResolution.x_to_zeta) = Some 0
  /\ resolved SampleResolution.no_match (nodes SampleEdges.st_nodes) 7
              SampleResolution.entityMap (rel_target SampleResolution.x_to_zeta) = None
  /\ EdgeRepository.createRelationships
       SampleResolution.no_match [SampleResolution.x_to_zeta] 7
       SampleResolution.entityMap "RelationshipExtractor" SampleEdges.st_nodes
     = (Return 0, SampleEdges.st_nodes)
  /\ edges SampleEdges.st_nodes = [].
Proof. repeat split. Qed.

(** ** Validation: entity dedup *)

Section JsMapFacts.
Context {V : Type}.
Implicit Types (m : JsMap.t V) (k : string) (v : V).

Lemma JsMap_has_keys k m : JsMap.has k m = true <-> k ∈ JsMap.keys m.
Proof.
  unfold JsMap.has, JsMap.keys. induction m as [|[k' v'] m IH]; simpl.
  - split; [discriminate | intros H; now apply elem_of_nil in H].
  - rewrite orb_true_iff, elem_of_cons, String.eqb_eq, IH. reflexivity.
Qed.

Lemma JsMap_get_elem k v m : JsMap.get k m = Some v -> (k, v) ∈ m.
Proof.
  unfold JsMap.get. induction m as [|[k' v'] m IH]; simpl; [discriminate|].
  destruct (String.eqb_spec k k') as [->|Hne].
  - intros [= ->]. apply list_elem_of_here.
  - intros H. apply list_elem_of_further. auto.
Qed.

Lemma JsMap_get_absent k m : JsMap.has k m = false -> JsMap.get k m = None.
Proof.
  unfold JsMap.has, JsMap.get. induction m as [|[k' v'] m IH]; simpl; [reflexivity|].
  destruct (String.eqb k k'); simpl; [discriminate | exact IH].
Qed.

Lemma JsMap_get_present k m : JsMap.has k m = true -> exists v, JsMap.get k m = Some v.
Proof.
  unfold JsMap.has, JsMap.get. induction m as [|[k' v'] m IH]; simpl; [discriminate|].
  destruct (String.eqb k k'); simpl; [eauto | exact IH].
Qed.

(** [set] keeps the place of a present key and appends an absent one. *)
Lemma JsMap_keys_set k v m :
  JsMap.keys (JsMap.set k v m)
  = if JsMap.has k m then JsMap.keys m else (JsMap.keys m ++ [k])%list.
Proof.
  unfold JsMap.keys, JsMap.has. induction m as [|[k' v'] m IH]; simpl; [reflexivity|].
  destruct (String.eqb k k'); simpl; [reflexivity|].
  rewrite IH. destruct (existsb _ m); reflexivity.
Qed.

Lemma JsMap_elem_set k v m k' v' :
  NoDup (JsMap.keys m) ->
  (k', v') ∈ JsMap.set k v m
  <-> (k' = k /\ v' = v) \/ (k' <> k /\ (k', v') ∈ m).
Proof.
  unfold JsMap.keys. induction m as [|[k0 v0] m IH]; simpl; intros Hnd.
  - rewrite list_elem_of_singleton. split.
    + intros [= -> ->]. auto.
    + intros [[-> ->] | [_ H]]; [reflexivity | now apply elem_of_nil in H].
  - apply NoDup_cons in Hnd as [Hk0 Hnd].
    destruct (String.eqb_spec k k0) as [->|Hne].
    + rewrite !elem_of_cons. split.
      * intros [[= -> ->] | H]; [auto|].
        right. split; [|auto]. intros ->. apply Hk0.
        change k0 with (fst (k0, v')). now apply list_elem_of_fmap_2.
      * intros [[-> ->] | [Hne [[= -> ->] | H]]]; auto. congruence.
    + rewrite !elem_of_cons, (IH Hnd). split.
      * intros [[= -> ->] | [[-> ->] | [Hk H]]]; auto.
      * intros [[-> ->] | [Hk [[= -> ->] | H]]]; auto.
Qed.

Lemma JsMap_functional k v v' m :
  NoDup (JsMap.keys m) -> (k, v) ∈ m -> (k, v') ∈ m -> v = v'.
Proof.
  unfold JsMap.keys. induction m as [|[k0 v0] m IH]; simpl; intros Hnd H H'.
  - now apply elem_of_nil in H.
  - apply NoDup_cons in Hnd as [Hk0 Hnd].
    assert (Hin : forall w, (k0, w) ∈ m -> False).
    { intros w Hw. apply Hk0. change k0 with (fst (k0, w)).
      now apply list_elem_of_fmap_2. }
    apply elem_of_cons in H as [[= -> ->] | H];
      apply elem_of_cons in H' as [[= <-] | H']; subst; auto.
    + now apply Hin in H'.
    + now apply Hin in H.
Qed.

Lemma JsMap_NoDup_set k v m :
  NoDup (JsMap.keys m) -> NoDup (JsMap.keys (JsMap.set k v m)).
Proof.
  intros Hnd. rewrite JsMap_keys_set. destruct (JsMap.has k m) eqn:E; [assumption|].
  apply NoDup_app. split; [assumption|]. split; [|apply NoDup_singleton].
  intros x Hx Hx'. apply list_elem_of_singleton in Hx'. subst x.
  apply JsMap_has_keys in Hx. congruence.
Qed.
End JsMapFacts.

Lemma best_of_group_snoc_other p i e x :
  best_of_group p i e -> entity_key x <> entity_key e ->
  best_of_group (p ++ [x]) i e.
Proof.
  intros [Hi Hbest] Hne. split; [now apply lookup_app_l_Some|].
  intros j e' Hj Hk. apply lookup_snoc_Some in Hj as [[_ Hj] | [_ <-]].
  - now apply Hbest.
  - congruence.
Qed.

Lemma best_of_group_snoc_kept p i e x :
  best_of_group p i e -> conf_le (ent_confidence x) (ent_confidence e) ->
  best_of_group (p ++ [x]) i e.
Proof.
  intros [Hi Hbest] Hle. split; [now apply lookup_app_l_Some|].
  intros j e' Hj Hk. apply lookup_snoc_Some in Hj as [[_ Hj] | [-> <-]].
  - now apply Hbest.
  - split; [assumption|]. apply lookup_lt_Some in Hi. lia.
Qed.

Lemma best_of_group_snoc_new p x :
  (forall j e', p !! j = Some e' -> entity_key e' = entity_key x ->
                conf_lt (ent_confidence e') (ent_confidence x)) ->
  best_of_group (p ++ [x]) (length p) x.
Proof.
  intros Hlt. split.
  - apply lookup_snoc_Some. right. auto.
  - intros j e' Hj Hk. apply lookup_snoc_Some in Hj as [[_ Hj] | [-> <-]].
    + specialize (Hlt j e' Hj Hk). split; [now apply Qlt_le_weak | auto].
    + split; [apply Qle_refl | lia].
Qed.

Lemma seen_invariant_step p seen x :
  seen_invariant p seen -> seen_invariant (p ++ [x]) (AgentOrchestrator.see seen x).
Proof.
  intros (Hnd & Hkeys & Hbest). unfold AgentOrchestrator.see.
  fold (entity_key x). set (k := entity_key x).
  assert (Hset : forall e0,
             (JsMap.has k seen = true ->
              forall e, JsMap.get k seen = Some e ->
                        conf_lt (ent_confidence e) (ent_confidence e0)) ->
             entity_key e0 = k -> e0 = x ->
             seen_invariant (p ++ [x]) (JsMap.set k e0 seen)).
  { intros e0 Hgt Hk0 ->. split; [now apply JsMap_NoDup_set|]. split.
    - intros k'. rewrite JsMap_keys_set, map_app, elem_of_app. simpl.
      rewrite list_elem_of_singleton. fold k.
      destruct (JsMap.has k seen) eqn:Hhas.
      + rewrite Hkeys. split; [auto|]. intros [H | ->]; [assumption|].
        apply Hkeys. now apply JsMap_has_keys.
      + rewrite elem_of_app, list_elem_of_singleton, Hkeys. reflexivity.
    - intros k' e He. apply JsMap_elem_set in He as [[-> ->] | [Hne He]]; [| |assumption].
      + split; [reflexivity|]. exists (length p). apply best_of_group_snoc_new.
        intros j e' Hj Hk.
        assert (Hin : k ∈ JsMap.keys seen).
        { apply Hkeys. rewrite <- Hk0, <- Hk.
          apply list_elem_of_fmap_2. now apply list_elem_of_lookup_2 in Hj. }
        apply JsMap_has_keys in Hin.
        destruct (JsMap_get_present _ _ Hin) as (ex & Hex).
        specialize (Hgt Hin ex Hex).
        destruct (Hbest k ex (JsMap_get_elem _ _ _ Hex)) as (Hkex & i & _ & Hb).
        destruct (Hb j e' Hj) as [Hle _]; [congruence|].
        eapply Qle_lt_trans; eauto.
      + destruct (Hbest k' e He) as (Hke & i & Hb). split; [assumption|].
        exists i. apply best_of_group_snoc_other; [assumption|]. congruence. }
  destruct (JsMap.has k seen) eqn:Hhas; simpl.
  - destruct (JsMap_get_present _ _ Hhas) as (ex & Hex). rewrite Hex.
    destruct (gtb (ent_confidence x) (ent_confidence ex)) eqn:Hgt.
    + apply Hset; auto. intros _ e He. rewrite Hex in He. injection He as <-.
      now apply gtb_true.
    + apply gtb_false in Hgt. split; [assumption|]. split.
      * intros k'. rewrite map_app, elem_of_app. simpl.
        rewrite list_elem_of_singleton, Hkeys. fold k. split; [auto|].
        intros [H | ->]; [assumption|]. apply Hkeys. now apply JsMap_has_keys.
      * intros k' e He. destruct (Hbest k' e He) as (Hke & i & Hb).
        split; [assumption|]. exists i.
        destruct (String.eqb_spec k' k) as [->|Hne].
        -- assert (e = ex) as ->.
           { apply JsMap_get_elem in Hex.
             eapply JsMap_functional; eauto. }
           now apply best_of_group_snoc_kept.
        -- apply best_of_group_snoc_other; [assumption|]. unfold k in *. congruence.
  - apply Hset; auto. intros H. discriminate H.
Qed.

Lemma seen_invariant_fold entities :
  seen_invariant entities (fold_left AgentOrchestrator.see entities []).
Proof.
  induction entities as [|x p IH] using rev_ind.
  - split; [apply NoDup_nil_2|]. split.
    + intros k. reflexivity.
    + intros k e He. now apply elem_of_nil in He.
  - rewrite fold_left_app. simpl. now apply seen_invariant_step.
Qed.

(** C7. The entity dedup of the validation stage keeps, for every group of
    candidates with one canonical name, exactly one entity: the one with
    the maximum confidence, the earlier candidate winning a tie.  The output
    has one entity per distinct canonical name of the input. *)
Theorem validateEntities_keeps_best (entities : list ExtractedEntity) :
  let out := AgentOrchestrator.validateEntities entities in
  NoDup (map entity_key out)
  /\ (forall k, k ∈ map entity_key out <-> k ∈ map entity_key entities)
  /\ (forall e, e ∈ out -> exists i, best_of_group entities i e).
Proof.
  intros out. subst out. unfold AgentOrchestrator.validateEntities.
  destruct (seen_invariant_fold entities) as (Hnd & Hkeys & Hbest).
  set (seen := fold_left AgentOrchestrator.see entities []) in *.
  assert (Hmap : map entity_key (JsMap.values seen) = JsMap.keys seen).
  { unfold JsMap.values, JsMap.keys. rewrite map_map. apply map_ext_in.
    intros [k e] Hin. simpl. apply list_elem_of_In in Hin.
    now destruct (Hbest k e Hin). }
  rewrite Hmap. split; [assumption|]. split; [assumption|].
  intros e He. unfold JsMap.values in He.
  apply list_elem_of_fmap in He as ([k e'] & -> & Hin). simpl.
  now destruct (Hbest k e' Hin).
Qed.

Lemma validateEntities_keeps_best_witness :
  exists i,
    best_of_group SampleEntities.candidates i
                  (SampleEntities.technique_x (9 # 10)%Q "second").
Proof.
  apply (validateEntities_keeps_best SampleEntities.candidates).
  apply list_elem_of_here.
Defined.

(** Three mentions of one technique and one metric: the second mention
    (confidence 0.9) is kept, in the place of the first; the third, equal
    in confidence, does not replace it. *)
Example validateEntities_sample :
  AgentOrchestrator.validateEntities SampleEntities.candidates
  = [ SampleEntities.technique_x (9 # 10)%Q "second";
      mkEntity "PSNR" "metric" None (8 # 10)%Q None ∅ ].
Proof. reflexivity. Qed.

(** ** Orchestrator: stage records *)

Lemma logExtraction_run paperId agentName extractionType success errorMessage st :
  AgentOrchestrator.logExtraction paperId agentName extractionType success errorMessage st
  = (Return tt,
     logged (mkLog paperId agentName extractionType success (orNull errorMessage)) st).
Proof.
  unfold AgentOrchestrator.logExtraction, try_catch, AgentOrchestrator.insertLog,
    logged, paper_stored. simpl.
  destruct (existsb _ (papers st)); reflexivity.
Qed.

Lemma getExistingPapers_run st :
  AgentOrchestrator.getExistingPapers st = (Return (completed_refs (papers st)), st).
Proof. reflexivity. Qed.

Lemma logged_papers row st : papers (logged row st) = papers st.
Proof. unfold logged. destruct (paper_stored _ st); reflexivity. Qed.

Lemma logged_trace row st : trace (logged row st) = trace st.
Proof. unfold logged. destruct (paper_stored _ st); reflexivity. Qed.

Lemma logged_nodes row st : nodes (logged row st) = nodes st.
Proof. unfold logged. destruct (paper_stored _ st); reflexivity. Qed.

Lemma logged_edges row st : edges (logged row st) = edges st.
Proof. unfold logged. destruct (paper_stored _ st); reflexivity. Qed.

Lemma logged_stored row st :
  paper_stored (log_paper_id row) st = true ->
  extraction_logs (logged row st) = (extraction_logs st ++ [row])%list.
Proof. unfold logged. now intros ->. Qed.

(** [processPaper], run. *)
Lemma processPaper_run ecap rcap (p : Paper) text st :
  AgentOrchestrator.processPaper ecap rcap p text st
  = let id := paper_id p in
    let st1 := emit (EvCapability "EntityExtractor" id) st in
    match ecap p (truncateText text) with
    | Throw e => (Throw e, logged (failure_record id e) st1)
    | Return parsed_e =>
        let entities := map EntityExtractorAgent.normalizeEntity parsed_e in
        let refs := completed_refs (papers st) in
        let st2 := emit (EvCapability "RelationshipExtractor" id)
                        (logged (entity_record id) st1) in
        match rcap p entities (truncateText text) (Some refs) with
        | Throw e => (Throw e, logged (failure_record id e) st2)
        | Return parsed_r =>
            (Return (analysis_of p parsed_e refs parsed_r),
             logged (relationship_record id) st2)
        end
    end.
Proof.
  unfold AgentOrchestrator.processPaper, try_catch, bind.
  rewrite entity_process_run.
  destruct (ecap p (truncateText text)) as [parsed_e|e]; cbv beta iota zeta.
  - rewrite logExtraction_run, getExistingPapers_run. cbv beta iota.
    rewrite relationship_process_run, logged_papers. simpl papers.
    destruct (rcap p _ (truncateText text) (Some (completed_refs (papers st))))
      as [parsed_r|e]; cbv beta iota.
    + rewrite logExtraction_run. reflexivity.
    + rewrite logExtraction_run. destruct e. reflexivity.
  - rewrite logExtraction_run. destruct e. reflexivity.
Qed.

Lemma paper_stored_papers id st st' :
  papers st' = papers st -> paper_stored id st' = paper_stored id st.
Proof. unfold paper_stored. now intros ->. Qed.

Lemma logs_logged row st :
  extraction_logs (logged row st)
  = if paper_stored (log_paper_id row) st
    then (extraction_logs st ++ [row])%list
    else extraction_logs st.
Proof. unfold logged. destruct (paper_stored _ st); reflexivity. Qed.

Lemma logs_emit ev st : extraction_logs (emit ev st) = extraction_logs st.
Proof. reflexivity. Qed.

Lemma stored_emit id ev st : paper_stored id (emit ev st) = paper_stored id st.
Proof. reflexivity. Qed.

Lemma stored_logged id row st : paper_stored id (logged row st) = paper_stored id st.
Proof. apply paper_stored_papers, logged_papers. Qed.

Create Rewrite HintDb store.
#[local] Hint Rewrite logs_logged logs_emit stored_emit stored_logged : store.

(** C9 (as the code has it).  For every pipeline run on a stored paper, a
    successful entity extraction and a successful relationship extraction
    are each recorded as an ExtractionRecord, and a stage that throws is
    recorded by one unsuccessful record of type full_pipeline that carries
    the error message, after which the error is thrown again.  Writing a
    record never throws: when the write fails (the paper is not stored)
    nothing is recorded and the run returns or throws as it would
    otherwise. *)
Theorem stage_records
        (entityCapability : Paper -> string -> outcome (list ParsedEntity))
        (relationshipCapability :
           Paper -> list ExtractedEntity -> string -> option (list PaperRef) ->
           outcome (list ParsedRelationship))
        (p : Paper) (fullText : string) (st : State) :
  let id := paper_id p in
  let run := AgentOrchestrator.processPaper entityCapability relationshipCapability
                                            p fullText st in
  let refs := completed_refs (papers st) in
  (forall paperId agentName extractionType success errorMessage st0,
      exists st1,
        AgentOrchestrator.logExtraction paperId agentName extractionType success
                                        errorMessage st0 = (Return tt, st1))
  /\ fst run
     = match entityCapability p (truncateText fullText) with
       | Throw e => Throw e
       | Return parsed_e =>
           match relationshipCapability
                   p (map EntityExtractorAgent.normalizeEntity parsed_e)
                   (truncateText fullText) (Some refs) with
           | Throw e => Throw e
           | Return parsed_r => Return (analysis_of p parsed_e refs parsed_r)
           end
       end
  /\ (paper_stored id st = true ->
      extraction_logs (snd run)
      = (extraction_logs st
           ++ match entityCapability p (truncateText fullText) with
              | Throw e => [failure_record id e]
              | Return parsed_e =>
                  match relationshipCapability
                          p (map EntityExtractorAgent.normalizeEntity parsed_e)
                          (truncateText fullText) (Some refs) with
                  | Throw e => [entity_record id; failure_record id e]
                  | Return _ => [entity_record id; relationship_record id]
                  end
              end)%list)
  /\ (paper_stored id st = false -> extraction_logs (snd run) = extraction_logs st).
Proof.
  intros id run refs. subst run. rewrite processPaper_run. cbv zeta. fold id refs.
  split; [intros; rewrite logExtraction_run; eauto|].
  destruct (entityCapability p (truncateText fullText)) as [parsed_e|e].
  - destruct (relationshipCapability p _ (truncateText fullText) (Some refs))
      as [parsed_r|e]; (split; [reflexivity|]); split; intros Hs; simpl fst; simpl snd;
      autorewrite with store; simpl log_paper_id; autorewrite with store;
      rewrite ?Hs; autorewrite with store; rewrite ?Hs;
      rewrite <- ?app_assoc; reflexivity.
  - split; [reflexivity|]. split; intros Hs; simpl fst; simpl snd;
      autorewrite with store; simpl log_paper_id; autorewrite with store;
      rewrite ?Hs; reflexivity.
Qed.

Lemma stage_records_witness :
  extraction_logs
    (snd (AgentOrchestrator.processPaper
            SamplePipeline.entityDown Sample.relationshipCapability
            Sample.paper0 "body" SamplePipeline.st_paper))
  = [failure_record 0 (Error "429 rate limit")].
Proof.
  apply (stage_records SamplePipeline.entityDown Sample.relationshipCapability
                       Sample.paper0 "body" SamplePipeline.st_paper).
  reflexivity.
Defined.

(** C9 fails on the code: in a run whose three stages succeed, the entity
    and the relationship stages are recorded and the validation stage is
    not. *)
Lemma validation_stage_not_recorded :
  let run := AgentOrchestrator.processPaper
               Sample.entityCapability Sample.relationshipCapability
               Sample.paper0 "body" SamplePipeline.st_paper in
  fulfilled (fst run) = true
  /\ extraction_logs (snd run) = [entity_record 0; relationship_record 0]
  /\ ~ (exists row, row ∈ extraction_logs (snd run)
                    /\ extraction_type row = "validation").
Proof.
  split; [reflexivity|]. split; [reflexivity|].
  intros (row & Hin & Hty). vm_compute in Hin.
  apply elem_of_cons in Hin as [-> | Hin]; [discriminate Hty|].
  apply list_elem_of_singleton in Hin. subst row. discriminate Hty.
Qed.

(** ** Ingestion of one paper *)

Lemma upsert_frame kind name metadata extractedBy confidence st :
  let st' := snd (NodeRepository.upsert kind name metadata extractedBy confidence st) in
  papers st' = papers st /\ trace st' = trace st /\ edges st' = edges st
  /\ extraction_logs st' = extraction_logs st.
Proof.
  unfold NodeRepository.upsert.
  destruct (node_type_of_string kind); [|simpl; auto].
  destruct (List.find _ (nodes st)); simpl; auto.
Qed.

Lemma create_frame kind s t description evidence confidence extractedBy metadata st :
  let st' := snd (EdgeRepository.create kind s t description evidence confidence
                                        extractedBy metadata st) in
  papers st' = papers st /\ trace st' = trace st.
Proof.
  unfold EdgeRepository.create.
  destruct (edge_type_of_string kind); [|simpl; auto].
  destruct (List.find _ (edges st)); simpl; auto.
  destruct (_ && _); simpl; auto.
Qed.

Lemma upsertEntities_from_frame entities extractedBy :
  forall nameToIdMap st,
    let st' := snd (NodeRepository.upsertEntities_from nameToIdMap entities
                                                       extractedBy st) in
    papers st' = papers st /\ trace st' = trace st.
Proof.
  induction entities as [|entity rest IH]; intros m st; [simpl; auto|].
  cbn [NodeRepository.upsertEntities_from]. unfold bind.
  pose proof (upsert_frame (ent_type entity) (ent_name entity)
                           (NodeRepository.entity_metadata entity) extractedBy
                           (ent_confidence entity) st) as (Hp & Ht & _).
  destruct (NodeRepository.upsert _ _ _ _ _ st) as [[id|e] st1]; simpl in Hp, Ht.
  - cbv zeta. specialize (IH (<[normalizeName (ent_name entity) := id]> m) st1).
    cbv zeta in IH. destruct IH as [IHp IHt]. split; congruence.
  - simpl. auto.
Qed.

Lemma createRelationships_from_frame ranked_search relationships paperId
      entityNameToIdMap extractedBy :
  forall createdCount st,
    let st' := snd (EdgeRepository.createRelationships_from
                      ranked_search createdCount relationships paperId
                      entityNameToIdMap extractedBy st) in
    papers st' = papers st /\ trace st' = trace st.
Proof.
  induction relationships as [|rel rest IH]; intros c st; [simpl; auto|].
  cbn [EdgeRepository.createRelationships_from]. unfold bind.
  rewrite createRelationship_run.
  destruct (resolved ranked_search (nodes st) paperId entityNameToIdMap (rel_source rel))
    as [s|]; [|apply IH].
  destruct (resolved ranked_search (nodes st) paperId entityNameToIdMap (rel_target rel))
    as [t|]; [|apply IH].
  pose proof (create_frame (rel_type rel) s t (rel_description rel) (rel_evidence rel)
                           (rel_confidence rel) extractedBy (rel_metadata rel) st)
    as (Hp & Ht).
  destruct (EdgeRepository.create _ _ _ _ _ _ _ _ st) as [[id|e] st1];
    simpl in Hp, Ht; cbv zeta.
  - specialize (IH (S c) st1). cbv zeta in IH. destruct IH. split; congruence.
  - specialize (IH c st1). cbv zeta in IH. destruct IH. split; congruence.
Qed.

Lemma trace_emit ev st : trace (emit ev st) = (trace st ++ [ev])%list.
Proof. reflexivity. Qed.

Lemma papers_emit ev st : papers (emit ev st) = papers st.
Proof. reflexivity. Qed.

#[local] Hint Rewrite logged_papers papers_emit logged_trace trace_emit : store.

(** The stages touch neither table [papers] nor anything but the
    capability. *)
Lemma runStages_frame ecap rcap ranked_search (p : Paper) fullText st :
  let st' := snd (IngestionPipeline.runStages ecap rcap ranked_search p fullText st) in
  papers st' = papers st
  /\ exists evs, trace st' = (trace st ++ evs)%list /\ Forall is_capability_event evs.
Proof.
  unfold IngestionPipeline.runStages, bind. rewrite processPaper_run. cbv zeta.
  assert (Hdone : forall (o : outcome PaperAnalysis) st1 evs,
             papers st1 = papers st -> trace st1 = (trace st ++ evs)%list ->
             Forall is_capability_event evs ->
             papers (snd (o, st1)) = papers st
             /\ exists evs, trace (snd (o, st1)) = (trace st ++ evs)%list
                            /\ Forall is_capability_event evs) by eauto.
  destruct (ecap p (truncateText fullText)) as [parsed_e|e].
  - destruct (rcap p _ (truncateText fullText) _) as [parsed_r|e].
    + set (analysis := analysis_of p parsed_e _ parsed_r).
      set (st1 := logged (relationship_record (paper_id p)) _).
      assert (Hp1 : papers st1 = papers st)
        by (subst st1; autorewrite with store; reflexivity).
      assert (Ht1 : trace st1
                    = (trace st ++ [EvCapability "EntityExtractor" (paper_id p);
                                    EvCapability "RelationshipExtractor" (paper_id p)])%list).
      { subst st1. autorewrite with store. now rewrite <- app_assoc. }
      clearbody st1 analysis.
      unfold NodeRepository.upsertEntities.
      pose proof (upsertEntities_from_frame (analysis_entities analysis)
                    "EntityExtractor" ∅ st1) as Hu. cbv zeta in Hu.
      destruct (NodeRepository.upsertEntities_from ∅ _ _ st1) as [[entityMap|e] st2];
        simpl in Hu; destruct Hu as [Hp2 Ht2].
      * unfold EdgeRepository.createRelationships.
        pose proof (createRelationships_from_frame ranked_search
                      (analysis_relationships analysis) (paper_id p) entityMap
                      "RelationshipExtractor" 0 st2) as Hc. cbv zeta in Hc.
        destruct (EdgeRepository.createRelationships_from _ _ _ _ _ _ st2)
          as [[n|e] st3]; simpl in Hc; destruct Hc as [Hp3 Ht3].
        -- eapply Hdone; [congruence | rewrite ?Ht3, ?Ht2, Ht1; reflexivity | repeat constructor].
        -- eapply Hdone; [congruence | rewrite ?Ht3, ?Ht2, Ht1; reflexivity | repeat constructor].
      * eapply Hdone; [congruence | rewrite ?Ht3, ?Ht2, Ht1; reflexivity | repeat constructor].
    + eapply Hdone.
      * autorewrite with store. reflexivity.
      * autorewrite with store. now rewrite <- app_assoc.
      * repeat constructor.
  - eapply Hdone.
    + autorewrite with store. reflexivity.
    + autorewrite with store. reflexivity.
    + repeat constructor.
Qed.

Lemma paper_create_stored paperData st (p : Paper) st1 :
  PaperRepository.create paperData st = (Return p, st1) ->
  paper_stored (paper_id p) st1 = true
  /\ trace st1 = (trace st ++ [EvPaperStored (paper_id p)])%list.
Proof.
  unfold PaperRepository.create, PaperRepository.insertPaper, bind.
  pose proof (upsert_frame "paper" (pd_title paperData)
                (PaperRepository.paper_node_metadata paperData) "system" 1%Q st)
    as (Hp & Ht & _).
  destruct (NodeRepository.upsert _ _ _ _ _ st) as [[nodeId|e] st0];
    [|discriminate]. simpl in Hp, Ht.
  destruct (List.find _ (papers st0)) as [existing|] eqn:Hf.
  - intros [= <- <-]. simpl. rewrite Ht. split; [|reflexivity].
    unfold paper_stored. simpl. apply existsb_exists.
    exists (PaperRepository.retitle paperData existing). split.
    + apply list_elem_of_In. now apply update_first_elem.
    + simpl. apply Nat.eqb_refl.
  - destruct (existsb _ (papers st0)); [discriminate|].
    intros [= <- <-]. simpl. rewrite Ht. split; [|reflexivity].
    unfold paper_stored. simpl. rewrite existsb_app. simpl.
    rewrite Nat.eqb_refl. apply orb_true_iff. right. reflexivity.
Qed.

Lemma paper_create_throws paperData st e st1 :
  PaperRepository.create paperData st = (Throw e, st1) -> trace st1 = trace st.
Proof.
  unfold PaperRepository.create, PaperRepository.insertPaper, bind.
  pose proof (upsert_frame "paper" (pd_title paperData)
                (PaperRepository.paper_node_metadata paperData) "system" 1%Q st)
    as (Hp & Ht & _).
  destruct (NodeRepository.upsert _ _ _ _ _ st) as [[nodeId|e0] st0]; simpl in Hp, Ht.
  - destruct (List.find _ (papers st0)); [discriminate|].
    destruct (existsb _ (papers st0)); [|discriminate].
    intros [= _ <-]. exact Ht.
  - intros [= _ <-]. exact Ht.
Qed.

Lemma find_map_status id now status (ps : list Paper) :
  existsb (fun p => Nat.eqb (paper_id p) id) ps = true ->
  option_map processing_status
    (List.find (fun p => Nat.eqb (paper_id p) id)
       (map (fun p => if Nat.eqb (paper_id p) id
                      then PaperRepository.with_status now status p else p) ps))
  = Some status.
Proof.
  induction ps as [|q ps IH]; simpl; [discriminate|].
  destruct (Nat.eqb (paper_id q) id) eqn:E; simpl.
  - intros _. rewrite E. reflexivity.
  - intros H. rewrite E. auto.
Qed.

Lemma status_after_update id status st :
  paper_stored id st = true ->
  status_of id (snd (PaperRepository.updateStatus id status st)) = Some status.
Proof. intros H. unfold status_of. simpl. now apply find_map_status. Qed.

Lemma stored_after_update id id' status st :
  paper_stored id (snd (PaperRepository.updateStatus id' status st))
  = paper_stored id st.
Proof.
  unfold paper_stored. simpl. induction (papers st) as [|q ps IH]; simpl; [reflexivity|].
  rewrite IH. destruct (Nat.eqb (paper_id q) id'); reflexivity.
Qed.

(** C5. In every per-paper ingestion the Paper record is created and
    committed before any extraction stage runs.  If a stage throws, the
    paper's processing status is set to failed (the record stays stored) and
    the error is thrown to the caller; if every stage succeeds, the status
    ends as completed. *)
Theorem ingestPaper_status
        (entityCapability : Paper -> string -> outcome (list ParsedEntity))
        (relationshipCapability :
           Paper -> list ExtractedEntity -> string -> option (list PaperRef) ->
           outcome (list ParsedRelationship))
        (ranked_search : list Node -> string -> option NodeType -> nat -> list Node)
        (paperData : PaperData) (st : State) (p : Paper) (st1 : State) :
  PaperRepository.create paperData st = (Return p, st1) ->
  let id := paper_id p in
  let st2 := snd (PaperRepository.updateStatus id processing st1) in
  let stages := IngestionPipeline.runStages entityCapability relationshipCapability
                                            ranked_search p (pd_full_text paperData) st2 in
  let ingestion := IngestionPipeline.ingestPaper entityCapability relationshipCapability
                                                 ranked_search paperData st in
  exists st' evs,
    Forall is_capability_event evs
    /\ match fst stages with
       | Return analysis =>
           ingestion = (Return (p, analysis), st')
           /\ status_of id st' = Some completed
           /\ trace st' = (trace st ++ EvPaperStored id :: EvStatus id processing
                                   :: evs ++ [EvStatus id completed])%list
       | Throw e =>
           ingestion = (Throw e, st')
           /\ status_of id st' = Some failed
           /\ trace st' = (trace st ++ EvPaperStored id :: EvStatus id processing
                                   :: evs ++ [EvStatus id failed])%list
       end.
Proof.
  intros Hcreate id st2 stages ingestion.
  destruct (paper_create_stored _ _ _ _ Hcreate) as [Hstored Htrace].
  pose proof (runStages_frame entityCapability relationshipCapability ranked_search
                              p (pd_full_text paperData) st2) as Hframe.
  cbv zeta in Hframe. fold stages in Hframe.
  destruct Hframe as (Hpapers & evs & Hevs & Hall).
  assert (Hstored3 : paper_stored id (snd stages) = true).
  { rewrite (paper_stored_papers id st2 (snd stages) Hpapers).
    subst st2. now rewrite stored_after_update. }
  assert (Hfinal : forall status,
             trace (snd (PaperRepository.updateStatus id status (snd stages)))
             = (trace st ++ EvPaperStored id :: EvStatus id processing
                      :: evs ++ [EvStatus id status])%list).
  { intros status. simpl. rewrite Hevs. subst st2. simpl. rewrite Htrace.
    rewrite <- !app_assoc. reflexivity. }
  assert (Hrun : ingestion
                 = match fst stages with
                   | Return analysis =>
                       (Return (p, analysis),
                        snd (PaperRepository.updateStatus id completed (snd stages)))
                   | Throw e =>
                       (Throw e,
                        snd (PaperRepository.updateStatus id failed (snd stages)))
                   end).
  { subst ingestion. unfold IngestionPipeline.ingestPaper, bind, try_catch.
    rewrite Hcreate.
    change (PaperRepository.updateStatus (paper_id p) processing st1)
      with (Return tt, st2).
    cbv beta iota.
    change (IngestionPipeline.runStages entityCapability relationshipCapability
              ranked_search p (pd_full_text paperData) st2) with stages.
    destruct stages as [[analysis|e] st3]; reflexivity. }
  destruct (fst stages) as [analysis|e].
  - exists (snd (PaperRepository.updateStatus id completed (snd stages))), evs.
    split; [assumption|]. split; [assumption|].
    split; [now apply status_after_update | apply Hfinal].
  - exists (snd (PaperRepository.updateStatus id failed (snd stages))), evs.
    split; [assumption|]. split; [assumption|].
    split; [now apply status_after_update | apply Hfinal].
Qed.

Lemma ingestPaper_status_witness :
  let p3 := mkPaper 0 "P3" None (Some "body") ["A"] None None None None None None
                    pending None in
  exists st' evs,
    IngestionPipeline.ingestPaper
      Sample.entityCapability SampleIngestion.relationshipCapability
      SampleResolution.no_match (SampleIngestion.paperData "P3") empty_state
    = (Throw (Error "503 service unavailable"), st')
    /\ status_of 0 st' = Some failed
    /\ trace st' = ([EvPaperStored 0; EvStatus 0 processing] ++ evs
                      ++ [EvStatus 0 failed])%list.
Proof.
  intros p3.
  edestruct (ingestPaper_status
               Sample.entityCapability SampleIngestion.relationshipCapability
               SampleResolution.no_match (SampleIngestion.paperData "P3") empty_state p3)
    as (st' & evs & _ & H); [reflexivity|].
  exists st', evs. exact H.
Defined.

(** When the creation of the Paper record itself throws, no stage runs. *)
Lemma ingestPaper_create_throws ecap rcap ranked_search paperData st e st1 :
  PaperRepository.create paperData st = (Throw e, st1) ->
  IngestionPipeline.ingestPaper ecap rcap ranked_search paperData st = (Throw e, st1)
  /\ trace st1 = trace st.
Proof.
  intros Hcreate. split; [|now apply paper_create_throws in Hcreate].
  unfold IngestionPipeline.ingestPaper, bind. now rewrite Hcreate.
Qed.

(** ** Batch ingestion *)

Section Chunks.
Context {A : Type}.
Variable n : nat.
Hypothesis n_pos : 1 <= n.

Lemma chunks_fuel_enough (l : list A) :
  forall f1 f2, length l <= f1 -> length l <= f2 ->
                chunks_fuel f1 n l = chunks_fuel f2 n l.
Proof.
  remember (length l) as len eqn:Hlen. revert l Hlen.
  induction len as [len IH] using lt_wf_ind. intros l Hlen f1 f2 H1 H2.
  destruct l as [|x l]; [destruct f1, f2; reflexivity|].
  simpl in Hlen. destruct f1 as [|f1]; [lia|]. destruct f2 as [|f2]; [lia|].
  cbn [chunks_fuel]. f_equal.
  assert (Hs : length (skipn n (x :: l)) < len)
    by (rewrite length_skipn; simpl; lia).
  apply (IH _ Hs _ eq_refl); lia.
Qed.

Lemma chunks_cons (x : A) (l : list A) :
  chunks n (x :: l) = firstn n (x :: l) :: chunks n (skipn n (x :: l)).
Proof.
  unfold chunks. cbn [length chunks_fuel]. f_equal.
  apply chunks_fuel_enough; [|lia].
  rewrite length_skipn. simpl. lia.
Qed.

Lemma chunks_nil : chunks n (@nil A) = [].
Proof. reflexivity. Qed.

Lemma chunks_empty_iff (l : list A) : chunks n l = [] <-> l = [].
Proof.
  destruct l; [split; reflexivity|]. rewrite chunks_cons. split; discriminate.
Qed.

(** Induction along the chunks. *)
Lemma chunks_ind (P : list A -> Prop) :
  P [] ->
  (forall x l, P (skipn n (x :: l)) -> P (x :: l)) ->
  forall l, P l.
Proof.
  intros Hnil Hcons l.
  remember (length l) as len eqn:Hlen. revert l Hlen.
  induction len as [len IH] using lt_wf_ind. intros l Hlen.
  destruct l as [|x l]; [exact Hnil|].
  apply Hcons. eapply IH; [|reflexivity].
  rewrite length_skipn, Hlen. simpl. lia.
Qed.

Lemma concat_chunks (l : list A) : concat (chunks n l) = l.
Proof.
  induction l as [|x l IH] using chunks_ind; [reflexivity|].
  rewrite chunks_cons. cbn [concat]. rewrite IH. apply firstn_skipn.
Qed.

(** Every chunk has between 1 and [n] elements, and every chunk but the
    last has [n]. *)
Lemma chunks_sizes (l : list A) :
  forall i c,
    chunks n l !! i = Some c ->
    1 <= length c <= n /\ (S i < length (chunks n l) -> length c = n).
Proof.
  induction l as [|x l IH] using chunks_ind; [intros i c H; discriminate H|].
  intros i c. rewrite chunks_cons. destruct i as [|i]; simpl lookup.
  - intros [= <-]. rewrite length_firstn. simpl length at 1 2.
    split; [lia|]. intros Hlen. cbn [length] in Hlen.
    destruct (skipn n (x :: l)) as [|y r] eqn:Hskip; [simpl in Hlen; lia|].
    assert (length (skipn n (x :: l)) > 0) by (rewrite Hskip; simpl; lia).
    rewrite length_skipn in H. simpl in H. simpl. lia.
  - intros H. destruct (IH i c H) as [Hsize Hfull]. split; [assumption|].
    cbn [length]. intros Hlen. apply Hfull. lia.
Qed.
End Chunks.

Lemma count_outcomes {A} (os : list (outcome A)) :
  length (List.filter fulfilled os) + length (List.filter rejected os) = length os.
Proof.
  induction os as [|o os IH]; [reflexivity|].
  unfold rejected in *. simpl. destruct (fulfilled o); simpl; lia.
Qed.

(** * Further properties of the repositories, the orchestrator and the pipeline *)

(** ** Node store: what an upsert keeps *)

Lemma update_first_other {A} (p : A -> bool) (f : A -> A) (l : list A) (x : A) :
  x ∈ l -> p x = false -> x ∈ update_first p f l.
Proof.
  induction l as [|y l IH]; simpl; intros Hin Hp; [assumption|].
  apply elem_of_cons in Hin as [-> | Hin].
  - rewrite Hp. apply list_elem_of_here.
  - destruct (p y).
    + now apply list_elem_of_further.
    + apply list_elem_of_further. auto.
Qed.

Lemma update_first_image {A} (p : A -> bool) (f : A -> A) (l : list A) (x : A) :
  x ∈ l -> x ∈ update_first p f l \/ f x ∈ update_first p f l.
Proof.
  induction l as [|y l IH]; simpl; intros Hin; [auto|].
  apply elem_of_cons in Hin as [-> | Hin].
  - destruct (p y); [right | left]; apply list_elem_of_here.
  - destruct (p y).
    + left. now apply list_elem_of_further.
    + destruct (IH Hin); [left | right]; now apply list_elem_of_further.
Qed.

Lemma Forall_update_first {A} (P : A -> Prop) (p : A -> bool) (f : A -> A) (l : list A) :
  (forall x, P x -> P (f x)) -> Forall P l -> Forall P (update_first p f l).
Proof.
  intros Hf. induction 1 as [|y l Hy Hl IH]; simpl; [constructor|].
  destruct (p y); constructor; auto.
Qed.

(** [find] of a predicate that [f] respects, after [update_first]: the
    same row, or its image. *)
Lemma find_update_first_respects {A B} (g : A -> B) (q p : A -> bool) (f : A -> A)
      (l : list A) :
  (forall x, q (f x) = q x) -> (forall x, g (f x) = g x) ->
  option_map g (List.find q (update_first p f l)) = option_map g (List.find q l).
Proof.
  intros Hq Hg. induction l as [|y l IH]; simpl; [reflexivity|].
  destruct (p y); simpl.
  - rewrite Hq. destruct (q y); simpl; [now rewrite Hg | reflexivity].
  - destruct (q y); [reflexivity | exact IH].
Qed.

Lemma same_key_merge ty cn now metadata confidence n :
  NodeRepository.same_key ty cn (NodeRepository.merge_node now metadata confidence n)
  = NodeRepository.same_key ty cn n.
Proof. reflexivity. Qed.

(** X3. Upsert keeps the constraints of table [nodes] and never loses a
    node: its unique key and its primary key stay valid, every stored node
    keeps its id, kind, names and producer, nodes with another key are not
    touched, and the returned id is the id of a stored node with the
    requested key. *)
Theorem upsert_keeps_nodes
        (kind name : string) (metadata : metadata_t) (extractedBy : string)
        (confidence : Q) (st : State) :
  nodes_unique st ->
  node_ids_fresh st ->
  let run := NodeRepository.upsert kind name metadata extractedBy confidence st in
  nodes_unique (snd run)
  /\ node_ids_fresh (snd run)
  /\ (forall n, n ∈ nodes st ->
                exists n', n' ∈ nodes (snd run)
                           /\ node_id n' = node_id n /\ node_key n' = node_key n
                           /\ node_name n' = node_name n
                           /\ node_extracted_by n' = node_extracted_by n)
  /\ (forall n, n ∈ nodes st ->
                NodeRepository.same_key (node_type n) (normalizeName name) n = true
                /\ node_type_of_string kind = Some (node_type n)
                \/ n ∈ nodes (snd run))
  /\ (forall id, fst run = Return id ->
                 exists n, n ∈ nodes (snd run) /\ node_id n = id
                           /\ canonical_name n = normalizeName name
                           /\ node_type_of_string kind = Some (node_type n)).
Proof.
  intros Hu [Hids Hlt] run. subst run. unfold NodeRepository.upsert.
  destruct (node_type_of_string kind) as [ty|] eqn:Hk.
  2:{ simpl. split; [assumption|]. split; [split; assumption|].
      split; [intros n Hn; exists n; auto|]. split; [auto | discriminate]. }
  set (cn := normalizeName name).
  destruct (List.find (NodeRepository.same_key ty cn) (nodes st)) as [ex|] eqn:Hf;
    simpl.
  - split; [unfold nodes_unique; simpl; now rewrite map_update_first|].
    split.
    { split; simpl.
      - now rewrite map_update_first.
      - now apply Forall_update_first. }
    split.
    { intros n Hn.
      destruct (update_first_image (NodeRepository.same_key ty cn)
                  (NodeRepository.merge_node (clock st) metadata confidence)
                  _ _ Hn) as [H | H]; eexists; (split; [exact H|]); auto. }
    split.
    { intros n Hn.
      destruct (NodeRepository.same_key ty cn n) eqn:E.
      - left. apply (node_same_key (ty, cn)) in E. injection E as Hty Hcn.
        split; [|now rewrite Hty].
        apply (node_same_key (node_type n, cn)). unfold node_key. now rewrite Hcn.
      - right. now apply update_first_other. }
    intros id [= <-].
    exists (NodeRepository.merge_node (clock st) metadata confidence ex).
    split; [now apply update_first_elem|]. split; [reflexivity|].
    apply (find_some_key node_key _ node_same_key' (ty, cn)) in Hf as [[= Hty Hcn] _].
    simpl. split; [exact Hcn | now rewrite Hty].
  - set (new := mkNode (next_uuid st) ty name cn
                       (jsonb_param (JSON_stringify metadata)) confidence extractedBy
                       (clock st)).
    split.
    { unfold nodes_unique. simpl.
      now apply (NoDup_append_fresh node_key _ node_same_key' (ty, cn)). }
    split.
    { split; simpl.
      - rewrite map_app. simpl. apply NoDup_app. split; [assumption|].
        split; [|apply NoDup_singleton].
        intros i Hi Hi'. apply list_elem_of_singleton in Hi'. subst i.
        apply list_elem_of_fmap in Hi as (n & Hn & Hin).
        rewrite Forall_forall in Hlt. specialize (Hlt n Hin). lia.
      - apply Forall_app. split.
        + eapply Forall_impl; [exact Hlt|]. simpl. intros; lia.
        + constructor; [simpl; lia | constructor]. }
    split.
    { intros n Hn. exists n. split; [|auto]. apply elem_of_app. now left. }
    split.
    { intros n Hn. right. apply elem_of_app. now left. }
    intros id [= <-]. exists new.
    split; [apply elem_of_app; right; apply list_elem_of_here|].
    split; [reflexivity|]. split; reflexivity.
Qed.

(** ** Node store: batches of entities *)

Lemma upsert_id_of_key_stable kind name metadata extractedBy confidence st ty cn id :
  id_of_key st ty cn = Some id ->
  id_of_key (snd (NodeRepository.upsert kind name metadata extractedBy confidence st))
            ty cn = Some id.
Proof.
  unfold id_of_key, NodeRepository.upsert. intros H.
  destruct (node_type_of_string kind) as [ty0|]; [|exact H].
  destruct (List.find (NodeRepository.same_key ty0 _) (nodes st)); simpl.
  - rewrite (find_update_first_respects node_id); auto.
  - destruct (List.find (NodeRepository.same_key ty cn) (nodes st)) as [n|] eqn:Hf;
      [|discriminate]. now rewrite (find_app_some _ _ _ _ Hf).
Qed.

(** An upsert of a key that is stored returns the stored id and adds no
    node; the ids stored under all keys stay. *)
Lemma upsert_present kind ty name metadata extractedBy confidence st id :
  node_type_of_string kind = Some ty ->
  id_of_key st ty (normalizeName name) = Some id ->
  exists st',
    NodeRepository.upsert kind name metadata extractedBy confidence st = (Return id, st')
    /\ map node_key (nodes st') = map node_key (nodes st)
    /\ map node_id (nodes st') = map node_id (nodes st)
    /\ (forall ty' cn', id_of_key st' ty' cn' = id_of_key st ty' cn').
Proof.
  intros Hk Hid. unfold id_of_key in Hid.
  destruct (List.find _ (nodes st)) as [ex|] eqn:Hf; [|discriminate].
  injection Hid as <-. eexists. rewrite (upsert_existing _ _ _ _ _ _ _ _ Hk Hf).
  split; [reflexivity|]. simpl.
  split; [now rewrite map_update_first|]. split; [now rewrite map_update_first|].
  intros ty' cn'. unfold id_of_key. simpl.
  now rewrite (find_update_first_respects node_id).
Qed.

(** An upsert that returns stores the returned id under the key. *)
Lemma upsert_returns_stored kind name metadata extractedBy confidence st id st' :
  NodeRepository.upsert kind name metadata extractedBy confidence st = (Return id, st') ->
  exists ty, node_type_of_string kind = Some ty
             /\ id_of_key st' ty (normalizeName name) = Some id.
Proof.
  unfold NodeRepository.upsert, id_of_key.
  destruct (node_type_of_string kind) as [ty|]; [|discriminate].
  destruct (List.find _ (nodes st)) as [ex|] eqn:Hf; intros [= <- <-];
    exists ty; (split; [reflexivity|]); simpl.
  - erewrite find_update_first; eauto.
    rewrite same_key_merge. now apply List.find_some in Hf.
  - rewrite (find_app_none _ _ _ Hf). simpl.
    replace (NodeRepository.same_key ty (normalizeName name) _) with true;
      [reflexivity|].
    symmetry. now apply (node_same_key (ty, normalizeName name)).
Qed.

(** An upsert of a known kind returns. *)
Lemma upsert_one_node_any kind ty name metadata extractedBy confidence st :
  node_type_of_string kind = Some ty ->
  exists id st',
    NodeRepository.upsert kind name metadata extractedBy confidence st = (Return id, st').
Proof.
  intros Hk. unfold NodeRepository.upsert. rewrite Hk.
  destruct (List.find _ (nodes st)); eauto.
Qed.

Lemma ids_in_ext st st' entities :
  (forall ty cn, id_of_key st' ty cn = id_of_key st ty cn) ->
  forall acc, ids_in st' entities acc = ids_in st entities acc.
Proof.
  intros Hext. unfold ids_in.
  induction entities as [|e rest IH]; intros acc; [reflexivity|].
  simpl. destruct (node_type_of_string (ent_type e)); [|apply IH].
  rewrite Hext. apply IH.
Qed.

(** A run of [upsertEntities] that returns: the ids stored before stay,
    every entity's key is stored, and the returned map is [ids_in] of the
    final store. *)
Lemma upsertEntities_from_returns entities extractedBy :
  forall acc st m st',
    NodeRepository.upsertEntities_from acc entities extractedBy st = (Return m, st') ->
    (forall ty cn id, id_of_key st ty cn = Some id -> id_of_key st' ty cn = Some id)
    /\ Forall (fun e => exists ty, node_type_of_string (ent_type e) = Some ty
                                   /\ is_Some (id_of_key st' ty (entity_key e)))
              entities
    /\ m = ids_in st' entities acc.
Proof.
  induction entities as [|e rest IH]; intros acc st m st' Hrun.
  - injection Hrun as <- <-. split; [auto|]. split; [constructor | reflexivity].
  - cbn [NodeRepository.upsertEntities_from] in Hrun. unfold bind in Hrun.
    pose proof (fun ty cn id =>
                  upsert_id_of_key_stable (ent_type e) (ent_name e)
                    (NodeRepository.entity_metadata e) extractedBy (ent_confidence e)
                    st ty cn id) as Hstable.
    destruct (NodeRepository.upsert _ _ _ _ _ st) as [[id|err] st1] eqn:Hup;
      [|discriminate].
    simpl in Hstable.
    destruct (upsert_returns_stored _ _ _ _ _ _ _ _ Hup) as (ty & Hty & Hid).
    destruct (IH _ _ _ _ Hrun) as (Hst & Hall & Hm).
    split; [intros; apply Hst, Hstable; assumption|]. split.
    + constructor; [|assumption]. exists ty. split; [assumption|].
      exists id. exact (Hst _ _ _ Hid).
    + rewrite Hm. unfold ids_in at 2. simpl. rewrite Hty.
      change (entity_key e) with (normalizeName (ent_name e)).
      rewrite (Hst _ _ _ Hid). reflexivity.
Qed.

(** A run of [upsertEntities] on entities whose keys are all stored adds
    no node and returns [ids_in] of the store. *)
Lemma upsertEntities_from_present entities extractedBy :
  forall acc st,
    Forall (fun e => exists ty, node_type_of_string (ent_type e) = Some ty
                                /\ is_Some (id_of_key st ty (entity_key e)))
           entities ->
    exists st',
      NodeRepository.upsertEntities_from acc entities extractedBy st
      = (Return (ids_in st entities acc), st')
      /\ map node_key (nodes st') = map node_key (nodes st)
      /\ map node_id (nodes st') = map node_id (nodes st)
      /\ (forall ty cn, id_of_key st' ty cn = id_of_key st ty cn).
Proof.
  induction entities as [|e rest IH]; intros acc st Hall.
  - exists st. repeat split; reflexivity.
  - inversion Hall as [|? ? (ty & Hty & [id Hid]) Hrest]; subst.
    destruct (upsert_present (ent_type e) ty (ent_name e)
                (NodeRepository.entity_metadata e) extractedBy (ent_confidence e)
                st id Hty Hid) as (st1 & Hup & Hkeys & Hids & Hext).
    assert (Hrest1 : Forall (fun e => exists ty,
                                 node_type_of_string (ent_type e) = Some ty
                                 /\ is_Some (id_of_key st1 ty (entity_key e))) rest).
    { eapply Forall_impl; [exact Hrest|]. simpl.
      intros e' (ty' & H1 & H2). exists ty'. now rewrite Hext. }
    destruct (IH (<[entity_key e := id]> acc) st1 Hrest1)
      as (st' & Hrun & Hkeys' & Hids' & Hext').
    exists st'. cbn [NodeRepository.upsertEntities_from]. unfold bind.
    rewrite Hup. fold (entity_key e). rewrite Hrun.
    split; [|split; [congruence | split; [congruence|]]].
    + rewrite (ids_in_ext st st1 rest Hext). unfold ids_in at 2. simpl.
      rewrite Hty, Hid. reflexivity.
    + intros ty' cn'. now rewrite Hext', Hext.
Qed.

(** X6. Running [upsertEntities] again on the entities it has stored adds
    no node and returns the same map of canonical names to ids. *)
Theorem upsertEntities_rerun
        (entities : list ExtractedEntity) (extractedBy extractedBy' : string)
        (st st1 : State) (m : gmap string Id) :
  NodeRepository.upsertEntities entities extractedBy st = (Return m, st1) ->
  exists st2,
    NodeRepository.upsertEntities entities extractedBy' st1 = (Return m, st2)
    /\ map node_key (nodes st2) = map node_key (nodes st1)
    /\ map node_id (nodes st2) = map node_id (nodes st1).
Proof.
  unfold NodeRepository.upsertEntities. intros Hrun.
  destruct (upsertEntities_from_returns _ _ _ _ _ _ Hrun) as (_ & Hall & ->).
  destruct (upsertEntities_from_present entities extractedBy' ∅ st1 Hall)
    as (st2 & Hrun2 & Hkeys & Hids & _).
  exists st2. auto.
Qed.

Lemma ids_in_lookup st entities :
  Forall (fun e => exists ty, node_type_of_string (ent_type e) = Some ty
                              /\ is_Some (id_of_key st ty (entity_key e)))
         entities ->
  forall acc k,
    (k ∈ map entity_key entities ->
     exists e ty id,
       e ∈ entities /\ entity_key e = k
       /\ node_type_of_string (ent_type e) = Some ty
       /\ id_of_key st ty k = Some id
       /\ ids_in st entities acc !! k = Some id)
    /\ (k ∉ map entity_key entities -> ids_in st entities acc !! k = acc !! k).
Proof.
  induction 1 as [|e rest (ty & Hty & [id Hid]) Hrest IH]; intros acc k.
  - split; [intros H; now apply elem_of_nil in H | reflexivity].
  - assert (Hstep : ids_in st (e :: rest) acc
                    = ids_in st rest (<[entity_key e := id]> acc)).
    { unfold ids_in. simpl. now rewrite Hty, Hid. }
    rewrite Hstep.
    destruct (IH (<[entity_key e := id]> acc) k) as [IHin IHout].
    destruct (decide (k ∈ map entity_key rest)) as [Hin | Hout].
    + split; [|intros Hk; exfalso; apply Hk; simpl; now apply list_elem_of_further].
      intros _. destruct (IHin Hin) as (e' & ty' & id' & He' & Hrestk).
      exists e', ty', id'. split; [now apply list_elem_of_further | exact Hrestk].
    + rewrite (IHout Hout). split.
      * simpl. intros Hk. apply elem_of_cons in Hk as [-> | Hk]; [|contradiction].
        exists e, ty, id. split; [apply list_elem_of_here|].
        split; [reflexivity|]. split; [assumption|]. split; [assumption|].
        apply lookup_insert_eq.
      * simpl. intros Hk. apply not_elem_of_cons in Hk as [Hne _].
        now apply lookup_insert_ne.
Qed.

Lemma id_of_key_node st ty cn id :
  id_of_key st ty cn = Some id ->
  exists n, n ∈ nodes st /\ node_id n = id /\ node_type n = ty /\ canonical_name n = cn.
Proof.
  unfold id_of_key. destruct (List.find _ (nodes st)) as [n|] eqn:Hf; [|discriminate].
  intros [= <-]. exists n.
  apply (find_some_key node_key _ node_same_key' (ty, cn)) in Hf as [[= Hty Hcn] Hin].
  auto.
Qed.

(** X4. The map that [upsertEntities] returns binds the canonical name of
    every entity of the batch, and nothing else, to the id of a stored node
    of that canonical name; the node is of the kind of an entity of that
    name.  Ids stored before the batch stay. *)
Theorem upsertEntities_map
        (entities : list ExtractedEntity) (extractedBy : string)
        (st st' : State) (m : gmap string Id) :
  NodeRepository.upsertEntities entities extractedBy st = (Return m, st') ->
  (forall e, e ∈ entities ->
             exists id n e',
               m !! entity_key e = Some id
               /\ n ∈ nodes st' /\ node_id n = id
               /\ canonical_name n = entity_key e
               /\ e' ∈ entities /\ entity_key e' = entity_key e
               /\ node_type_of_string (ent_type e') = Some (node_type n))
  /\ (forall k, is_Some (m !! k) -> k ∈ map entity_key entities)
  /\ (forall ty cn id, id_of_key st ty cn = Some id -> id_of_key st' ty cn = Some id).
Proof.
  unfold NodeRepository.upsertEntities. intros Hrun.
  destruct (upsertEntities_from_returns _ _ _ _ _ _ Hrun) as (Hst & Hall & ->).
  split; [|split; [|exact Hst]].
  - intros e He.
    destruct (ids_in_lookup st' entities Hall ∅ (entity_key e)) as [Hin _].
    destruct Hin as (e' & ty & id & He' & Hk & Hty & Hid & Hm);
      [now apply list_elem_of_fmap_2|].
    destruct (id_of_key_node _ _ _ _ Hid) as (n & Hn & Hnid & Hnty & Hncn).
    exists id, n, e'. rewrite Hnty. auto 10.
  - intros k Hk.
    destruct (decide (k ∈ map entity_key entities)) as [Hin | Hout]; [assumption|].
    destruct (ids_in_lookup st' entities Hall ∅ k) as [_ Hnone].
    rewrite (Hnone Hout), lookup_empty in Hk. now destruct Hk.
Qed.

(** X10. An endpoint name with the canonical name of an entity of the
    current paper resolves, in the first tier, to the id of a node of that
    canonical name that [upsertEntities] stored, whatever the spelling of
    the endpoint, the paper and the search say. *)
Theorem paper_local_names_resolve
        (entities : list ExtractedEntity) (extractedBy : string)
        (st st1 : State) (m : gmap string Id)
        (ranked_search : list Node -> string -> option NodeType -> nat -> list Node)
        (e : ExtractedEntity) (entityName : string) (paperId : Id) (st2 : State) :
  NodeRepository.upsertEntities entities extractedBy st = (Return m, st1) ->
  e ∈ entities ->
  normalizeName entityName = entity_key e ->
  exists id n,
    EdgeRepository.resolveEntityId ranked_search entityName paperId m st2
    = (Return (Some id), st2)
    /\ n ∈ nodes st1 /\ node_id n = id /\ canonical_name n = entity_key e.
Proof.
  unfold NodeRepository.upsertEntities. intros Hrun He Hname.
  destruct (upsertEntities_from_returns _ _ _ _ _ _ Hrun) as (_ & Hall & ->).
  destruct (ids_in_lookup st1 entities Hall ∅ (entity_key e)) as [Hin _].
  destruct Hin as (e' & ty & id & _ & _ & _ & Hid & Hm);
    [now apply list_elem_of_fmap_2|].
  destruct (id_of_key_node _ _ _ _ Hid) as (n & Hn & Hnid & _ & Hncn).
  exists id, n. split; [|auto].
  rewrite resolveEntityId_run. unfold resolved. now rewrite Hname, Hm.
Qed.

Lemma upsertEntities_from_app entities1 entities2 extractedBy :
  forall acc st,
    NodeRepository.upsertEntities_from acc (entities1 ++ entities2) extractedBy st
    = (let! m := NodeRepository.upsertEntities_from acc entities1 extractedBy in
       NodeRepository.upsertEntities_from m entities2 extractedBy) st.
Proof.
  induction entities1 as [|e rest IH]; intros acc st; [reflexivity|].
  cbn [app NodeRepository.upsertEntities_from]. unfold bind.
  destruct (NodeRepository.upsert _ _ _ _ _ st) as [[id|err] st1]; [|reflexivity].
  rewrite IH. reflexivity.
Qed.

Lemma upsertEntities_from_known entities extractedBy :
  Forall known_kind entities ->
  forall acc st, exists m st',
      NodeRepository.upsertEntities_from acc entities extractedBy st = (Return m, st').
Proof.
  induction 1 as [|e rest [ty Hty] _ IH]; intros acc st.
  - exists acc, st. reflexivity.
  - cbn [NodeRepository.upsertEntities_from]. unfold bind.
    destruct (upsert_one_node_any (ent_type e) ty (ent_name e)
                (NodeRepository.entity_metadata e) extractedBy (ent_confidence e)
                st Hty) as (id & st1 & Hup).
    rewrite Hup. apply IH.
Qed.

(** X5. A batch of entities is not atomic: [upsertEntities] throws at the
    first entity whose kind the database rejects, and the store is then the
    one in which the entities before it are stored. *)
Theorem upsertEntities_stops_at_unknown_kind
        (before after : list ExtractedEntity) (bad : ExtractedEntity)
        (extractedBy : string) (st : State) :
  Forall known_kind before ->
  node_type_of_string (ent_type bad) = None ->
  exists m st1 err,
    NodeRepository.upsertEntities before extractedBy st = (Return m, st1)
    /\ NodeRepository.upsertEntities (before ++ bad :: after) extractedBy st
       = (Throw err, st1).
Proof.
  intros Hknown Hbad. unfold NodeRepository.upsertEntities.
  destruct (upsertEntities_from_known before extractedBy Hknown ∅ st)
    as (m & st1 & Hrun).
  destruct (upsert_unknown_kind (ent_type bad) (ent_name bad)
              (NodeRepository.entity_metadata bad) extractedBy (ent_confidence bad)
              st1 Hbad) as (err & Hthrow).
  exists m, st1, err. split; [exact Hrun|].
  rewrite upsertEntities_from_app. unfold bind at 1. rewrite Hrun.
  cbn [NodeRepository.upsertEntities_from]. unfold bind. now rewrite Hthrow.
Qed.

(** ** Edge store: what a create keeps *)

(** X7. Create keeps the constraints of table [edges] and never touches
    the nodes: the unique key and the foreign keys stay valid, every stored
    edge keeps its id, key and producer, a call that throws leaves the
    store as it was, and the returned id is the id of a stored edge between
    the given endpoints. *)
Theorem create_keeps_edges
        (kind : string) (sourceId targetId : Id) (description evidence : option string)
        (confidence : Q) (extractedBy : string) (metadata : metadata_t) (st : State) :
  edges_unique st ->
  edges_reference_nodes st ->
  let run := EdgeRepository.create kind sourceId targetId description evidence
                                   confidence extractedBy metadata st in
  edges_unique (snd run)
  /\ edges_reference_nodes (snd run)
  /\ nodes (snd run) = nodes st
  /\ (forall err, fst run = Throw err -> snd run = st)
  /\ (forall x, x ∈ edges st ->
                exists x', x' ∈ edges (snd run)
                           /\ edge_id x' = edge_id x /\ edge_key x' = edge_key x
                           /\ edge_extracted_by x' = edge_extracted_by x)
  /\ (forall id, fst run = Return id ->
                 exists x, x ∈ edges (snd run) /\ edge_id x = id
                           /\ source_id x = sourceId /\ target_id x = targetId
                           /\ edge_type_of_string kind = Some (edge_type x)).
Proof.
  intros Hu Hfk run. subst run.
  destruct (edge_type_of_string kind) as [ty|] eqn:Hk.
  2:{ destruct (create_unknown_kind kind sourceId targetId description evidence
                  confidence extractedBy metadata st Hk) as (err & ->). simpl.
      split; [assumption|]. split; [assumption|]. split; [reflexivity|].
      split; [intros; reflexivity|].
      split; [intros x Hx; exists x; auto | discriminate]. }
  destruct (List.find (EdgeRepository.same_key ty sourceId targetId) (edges st))
    as [ex|] eqn:Hf.
  - rewrite (create_existing _ _ _ _ _ _ _ _ _ _ _ Hk Hf). simpl.
    split; [unfold edges_unique; simpl; now rewrite map_update_first|].
    split.
    { intros x Hx. simpl in Hx.
      apply elem_of_update_first in Hx as [Hx | (y & Hy & ->)].
      - apply (Hfk x Hx).
      - apply (Hfk y Hy). }
    split; [reflexivity|]. split; [discriminate|]. split.
    { intros x Hx.
      destruct (update_first_image (EdgeRepository.same_key ty sourceId targetId)
                  (EdgeRepository.merge_edge (orNull description) (orNull evidence)
                                             confidence metadata) _ _ Hx) as [H | H];
        eexists; (split; [exact H|]); auto. }
    intros id [= <-].
    exists (EdgeRepository.merge_edge (orNull description) (orNull evidence)
                                      confidence metadata ex).
    split; [now apply update_first_elem|]. split; [reflexivity|].
    apply (find_some_key edge_key _ edge_same_key (ty, sourceId, targetId)) in Hf
      as [[= Hty Hs Ht] _].
    simpl. rewrite Hty. auto.
  - rewrite (create_fresh _ _ _ _ _ _ _ _ _ _ Hk Hf).
    destruct (EdgeRepository.node_exists sourceId st
              && EdgeRepository.node_exists targetId st) eqn:Hn; simpl.
    2:{ split; [assumption|]. split; [assumption|]. split; [reflexivity|].
        split; [intros; reflexivity|].
        split; [intros x Hx; exists x; auto | discriminate]. }
    split.
    { unfold edges_unique. simpl.
      now apply (NoDup_append_fresh edge_key _ edge_same_key (ty, sourceId, targetId)). }
    split.
    { intros x Hx. simpl in Hx. apply elem_of_app in Hx as [Hx | Hx].
      - apply (Hfk x Hx).
      - apply list_elem_of_singleton in Hx. subst x. simpl.
        now apply andb_true_iff in Hn. }
    split; [reflexivity|]. split; [discriminate|]. split.
    { intros x Hx. exists x. split; [|auto]. apply elem_of_app. now left. }
    intros id [= <-]. eexists. split; [apply elem_of_app; right; apply list_elem_of_here|].
    simpl. auto.
Qed.

(** X8. The direction is part of an edge's identity: with A and B two
    different nodes and neither direction stored, creating A -> B and then
    B -> A under one kind stores two edges with different ids.  A self-loop
    is accepted like any other edge. *)
Theorem edge_direction_matters
        (kind : string) (ty : EdgeType) (a b : Id)
        (description evidence description' evidence' : option string)
        (confidence confidence' : Q) (extractedBy : string)
        (metadata metadata' : metadata_t) (st : State) :
  edge_type_of_string kind = Some ty ->
  a <> b ->
  EdgeRepository.node_exists a st = true ->
  EdgeRepository.node_exists b st = true ->
  List.find (EdgeRepository.same_key ty a b) (edges st) = None ->
  List.find (EdgeRepository.same_key ty b a) (edges st) = None ->
  (exists id1 id2 st1 st2,
      EdgeRepository.create kind a b description evidence confidence extractedBy
                            metadata st = (Return id1, st1)
      /\ EdgeRepository.create kind b a description' evidence' confidence' extractedBy
                               metadata' st1 = (Return id2, st2)
      /\ id1 <> id2
      /\ length (edges st2) = 2 + length (edges st))
  /\ (List.find (EdgeRepository.same_key ty a a) (edges st) = None ->
      exists id st1,
        EdgeRepository.create kind a a description evidence confidence extractedBy
                              metadata st = (Return id, st1)
        /\ length (edges st1) = 1 + length (edges st)).
Proof.
  intros Hk Hab Ha Hb Hfab Hfba. split.
  - eexists _, _, _, _.
    rewrite (create_fresh _ _ _ _ _ _ _ _ _ _ Hk Hfab), Ha, Hb. simpl.
    split; [reflexivity|].
    rewrite create_fresh with (ty := ty); [|assumption|].
    2:{ simpl. rewrite (find_app_none _ _ _ Hfba). simpl.
        unfold EdgeRepository.same_key. simpl.
        destruct (Nat.eqb_spec a b) as [->|_]; [contradiction|].
        now rewrite andb_false_r. }
    unfold EdgeRepository.node_exists in *. simpl. rewrite Ha, Hb. simpl.
    split; [reflexivity|]. split; [lia|].
    cbn [edges bump_uuid set_edges]. rewrite !length_app. simpl. lia.
  - intros Hfaa. eexists _, _.
    rewrite (create_fresh _ _ _ _ _ _ _ _ _ _ Hk Hfaa), Ha. simpl.
    split; [reflexivity|]. cbn [edges bump_uuid set_edges].
    rewrite length_app. simpl. lia.
Qed.

Lemma create_key_list kind s t description evidence confidence extractedBy metadata st :
  let st' := snd (EdgeRepository.create kind s t description evidence confidence
                                        extractedBy metadata st) in
  map edge_key (edges st') = map edge_key (edges st)
  \/ exists k, (k ∉ map edge_key (edges st))
               /\ map edge_key (edges st') = (map edge_key (edges st) ++ [k])%list.
Proof.
  unfold EdgeRepository.create.
  destruct (edge_type_of_string kind) as [ty|]; [|left; reflexivity].
  destruct (List.find _ (edges st)) eqn:Hf; simpl.
  - left. now rewrite map_update_first.
  - destruct (_ && _); [|left; reflexivity]. right. exists (ty, s, t). simpl.
    split; [|now rewrite map_app].
    now apply (find_none_key_absent edge_key _ edge_same_key (ty, s, t)).
Qed.

Section Rerun.
Variable ranked_search : list Node -> string -> option NodeType -> nat -> list Node.
Variable paperId : Id.
Variable entityNameToIdMap : gmap string Id.

Let plan (st : State) := planned_key ranked_search (nodes st) paperId entityNameToIdMap.

Lemma createRelationship_key_list extractedBy rel createdCount st :
  let st' := snd (EdgeRepository.createRelationship
                    ranked_search rel paperId entityNameToIdMap extractedBy
                    createdCount st) in
  map edge_key (edges st') = map edge_key (edges st)
  \/ exists k, (k ∉ map edge_key (edges st))
               /\ map edge_key (edges st') = (map edge_key (edges st) ++ [k])%list.
Proof.
  rewrite createRelationship_run.
  destruct (resolved _ _ _ _ (rel_source rel)) as [s|]; [|left; reflexivity].
  destruct (resolved _ _ _ _ (rel_target rel)) as [t|]; [|left; reflexivity].
  pose proof (create_key_list (rel_type rel) s t (rel_description rel)
                (rel_evidence rel) (rel_confidence rel) extractedBy
                (rel_metadata rel) st) as H.
  destruct (EdgeRepository.create _ _ _ _ _ _ _ _ st) as [[?|?] ?]; exact H.
Qed.

(** A batch whose edges are all stored adds no edge; it returns the same
    count as a batch that stores them. *)
Lemma createRelationships_from_present extractedBy relationships :
  forall createdCount st,
    edges_reference_nodes st ->
    (forall k, k ∈ omap (plan st) relationships -> k ∈ map edge_key (edges st)) ->
    exists st',
      EdgeRepository.createRelationships_from
        ranked_search createdCount relationships paperId entityNameToIdMap
        extractedBy st
      = (Return (createdCount + length (omap (plan st) relationships)), st')
      /\ nodes st' = nodes st
      /\ map edge_key (edges st') = map edge_key (edges st).
Proof.
  induction relationships as [|rel rest IH]; intros c st Hfk Hstored.
  - exists st. simpl. unfold ret. rewrite Nat.add_0_r. auto.
  - destruct (createRelationship_step ranked_search paperId entityNameToIdMap
                extractedBy rel c st Hfk)
      as (st1 & Hrun & Hnodes & Hfk1 & _ & Hkeys).
    fold (plan st) in Hrun, Hkeys.
    assert (Hcons : omap (plan st) (rel :: rest)
                    = match plan st rel with
                      | Some k => k :: omap (plan st) rest
                      | None => omap (plan st) rest
                      end) by reflexivity.
    assert (Hlist : map edge_key (edges st1) = map edge_key (edges st)).
    { pose proof (createRelationship_key_list extractedBy rel c st) as Hk.
      cbv zeta in Hk. rewrite Hrun in Hk. simpl in Hk.
      destruct Hk as [Hk | (k & Hnew & Hk)]; [exact Hk|]. exfalso. apply Hnew.
      assert (Hin : k ∈ map edge_key (edges st1))
        by (rewrite Hk; apply elem_of_app; right; apply list_elem_of_here).
      apply Hkeys in Hin as [Hin | Hin]; [exact Hin|].
      apply Hstored. rewrite Hcons, Hin. apply list_elem_of_here. }
    assert (Hplan : plan st1 = plan st) by (subst plan; cbv beta; now rewrite Hnodes).
    destruct (IH (match plan st rel with Some _ => S c | None => c end) st1 Hfk1)
      as (st' & Hrun' & Hnodes' & Hlist').
    { intros k Hk. rewrite Hlist. apply Hstored. rewrite Hplan in Hk. rewrite Hcons.
      destruct (plan st rel); [now apply list_elem_of_further | exact Hk]. }
    rewrite Hplan in Hrun'.
    exists st'. cbn [EdgeRepository.createRelationships_from]. unfold bind.
    rewrite Hrun, Hrun', Hcons.
    split; [|split; congruence].
    destruct (plan st rel); simpl; do 2 f_equal; lia.
Qed.
End Rerun.

(** X9. Persisting a batch of relationships again adds no edge: on the
    store that the first run left, a second run of [createRelationships]
    returns the same count and leaves the stored keys and the nodes as they
    are.  The count is thus the number of relationships stored or merged,
    not the number of new edges. *)
Theorem createRelationships_rerun
        (ranked_search : list Node -> string -> option NodeType -> nat -> list Node)
        (relationships : list ExtractedRelationship) (paperId : Id)
        (entityNameToIdMap : gmap string Id) (extractedBy extractedBy' : string)
        (st st1 : State) (n : nat) :
  edges_reference_nodes st ->
  EdgeRepository.createRelationships ranked_search relationships paperId
                                     entityNameToIdMap extractedBy st
  = (Return n, st1) ->
  exists st2,
    EdgeRepository.createRelationships ranked_search relationships paperId
                                       entityNameToIdMap extractedBy' st1
    = (Return n, st2)
    /\ map edge_key (edges st2) = map edge_key (edges st1)
    /\ nodes st2 = nodes st1.
Proof.
  intros Hfk Hrun. unfold EdgeRepository.createRelationships in *.
  destruct (createRelationships_from_run ranked_search paperId entityNameToIdMap
              extractedBy relationships 0 st Hfk)
    as (st' & Hrun' & Hnodes & Hfk1 & Hkeys).
  rewrite Hrun in Hrun'. injection Hrun' as -> <-.
  destruct (createRelationships_from_present ranked_search paperId entityNameToIdMap
              extractedBy' relationships 0 st1 Hfk1)
    as (st2 & Hrun2 & Hnodes2 & Hlist).
  { intros k Hk. apply Hkeys. right. now rewrite Hnodes in Hk. }
  exists st2. rewrite Hnodes in Hrun2. auto.
Qed.

(** ** Paper repository *)

Lemma length_update_first {A} (p : A -> bool) (f : A -> A) (l : list A) :
  length (update_first p f l) = length l.
Proof.
  induction l as [|y l IH]; simpl; [reflexivity|].
  destruct (p y); simpl; [reflexivity | now rewrite IH].
Qed.

Lemma paper_upsert_returns (paperData : PaperData) st :
  exists nodeId st0,
    NodeRepository.upsert "paper" (pd_title paperData)
                          (PaperRepository.paper_node_metadata paperData) "system" 1%Q st
    = (Return nodeId, st0)
    /\ papers st0 = papers st /\ trace st0 = trace st /\ edges st0 = edges st
    /\ id_of_key st0 paper (normalizeName (pd_title paperData)) = Some nodeId.
Proof.
  destruct (upsert_one_node_any "paper" paper (pd_title paperData)
              (PaperRepository.paper_node_metadata paperData) "system" 1%Q st eq_refl)
    as (nodeId & st0 & Hup).
  pose proof (upsert_frame "paper" (pd_title paperData)
                (PaperRepository.paper_node_metadata paperData) "system" 1%Q st)
    as (Hp & Ht & He & _).
  rewrite Hup in Hp, Ht, He. simpl in Hp, Ht, He.
  destruct (upsert_returns_stored _ _ _ _ _ _ _ _ Hup) as (ty & [= <-] & Hid).
  exists nodeId, st0. auto.
Qed.

(** X13. Creating a paper whose arXiv id is stored adds no row: the stored
    row gets the new title and abstract and is returned; its id, full text,
    authors and processing status stay as they were. *)
Theorem paper_create_known_arxiv
        (paperData : PaperData) (a : string) (st : State) (existing : Paper) :
  orNull (pd_arxiv_id paperData) = Some a ->
  List.find (PaperRepository.arxiv_conflict (Some a)) (papers st) = Some existing ->
  exists row st',
    PaperRepository.create paperData st = (Return row, st')
    /\ row ∈ papers st'
    /\ map paper_id (papers st') = map paper_id (papers st)
    /\ paper_id row = paper_id existing
    /\ title row = pd_title paperData
    /\ abstract row = orNull (pd_abstract paperData)
    /\ full_text row = full_text existing
    /\ authors row = authors existing
    /\ processing_status row = processing_status existing.
Proof.
  intros Harx Hf.
  destruct (paper_upsert_returns paperData st) as (nodeId & st0 & Hup & Hp & _).
  exists (PaperRepository.retitle paperData existing). eexists.
  unfold PaperRepository.create, PaperRepository.insertPaper, bind. rewrite Hup, Harx, Hp, Hf.
  split; [reflexivity|]. simpl. rewrite Hp.
  split; [now apply update_first_elem|].
  split; [now rewrite map_update_first|]. auto 10.
Qed.

Lemma map_status_other id id' now status (ps : list Paper) :
  id' <> id ->
  List.find (fun p => Nat.eqb (paper_id p) id')
            (map (fun p => if Nat.eqb (paper_id p) id
                           then PaperRepository.with_status now status p else p) ps)
  = List.find (fun p => Nat.eqb (paper_id p) id') ps.
Proof.
  intros Hne. induction ps as [|q ps IH]; simpl; [reflexivity|].
  destruct (Nat.eqb_spec (paper_id q) id) as [Hq | Hq]; simpl.
  - destruct (Nat.eqb_spec (paper_id q) id') as [Hq' | _]; [congruence | exact IH].
  - destruct (Nat.eqb (paper_id q) id'); [reflexivity | exact IH].
Qed.

Lemma updateStatus_ids id status st :
  map paper_id (papers (snd (PaperRepository.updateStatus id status st)))
  = map paper_id (papers st).
Proof.
  simpl. rewrite map_map. apply map_ext.
  intros q. now destruct (Nat.eqb (paper_id q) id).
Qed.

(** X15. [updateStatus] never adds or removes a row and never fails: on an
    id that is not stored it changes nothing; otherwise the paper gets the
    status, and the status of every other paper stays. *)
Theorem updateStatus_frame (id : Id) (status : ProcessingStatus) (st : State) :
  let run := PaperRepository.updateStatus id status st in
  fst run = Return tt
  /\ map paper_id (papers (snd run)) = map paper_id (papers st)
  /\ nodes (snd run) = nodes st /\ edges (snd run) = edges st
  /\ (paper_stored id st = false -> papers (snd run) = papers st)
  /\ (paper_stored id st = true -> status_of id (snd run) = Some status)
  /\ (forall id', id' <> id -> status_of id' (snd run) = status_of id' st).
Proof.
  simpl. split; [reflexivity|]. split.
  { rewrite map_map. apply map_ext. intros q. now destruct (Nat.eqb (paper_id q) id). }
  split; [reflexivity|]. split; [reflexivity|]. split.
  { unfold paper_stored. induction (papers st) as [|q ps IH]; simpl; [reflexivity|].
    destruct (Nat.eqb (paper_id q) id); simpl; [discriminate|].
    intros H. now rewrite IH. }
  split.
  { intros H. unfold status_of. simpl. now apply find_map_status. }
  intros id' Hne. unfold status_of. simpl. now rewrite map_status_other.
Qed.

(** ** Ingesting a paper again *)

Lemma create_nodes kind s t description evidence confidence extractedBy metadata st :
  nodes (snd (EdgeRepository.create kind s t description evidence confidence
                                    extractedBy metadata st)) = nodes st.
Proof.
  unfold EdgeRepository.create.
  destruct (edge_type_of_string kind); [|reflexivity].
  destruct (List.find _ (edges st)); simpl; [reflexivity|].
  destruct (_ && _); reflexivity.
Qed.

Lemma createRelationships_from_nodes ranked_search relationships paperId
      entityNameToIdMap extractedBy :
  forall createdCount st,
    nodes (snd (EdgeRepository.createRelationships_from
                  ranked_search createdCount relationships paperId
                  entityNameToIdMap extractedBy st)) = nodes st.
Proof.
  induction relationships as [|rel rest IH]; intros c st; [reflexivity|].
  cbn [EdgeRepository.createRelationships_from]. unfold bind.
  rewrite createRelationship_run.
  destruct (resolved ranked_search (nodes st) paperId entityNameToIdMap (rel_source rel))
    as [s|]; [|apply IH].
  destruct (resolved ranked_search (nodes st) paperId entityNameToIdMap (rel_target rel))
    as [t|]; [|apply IH].
  pose proof (create_nodes (rel_type rel) s t (rel_description rel) (rel_evidence rel)
                           (rel_confidence rel) extractedBy (rel_metadata rel) st) as Hn.
  destruct (EdgeRepository.create _ _ _ _ _ _ _ _ st) as [[id|e] st1]; simpl in Hn;
    rewrite IH; exact Hn.
Qed.

Lemma upsertEntities_from_stable entities extractedBy ty cn id :
  forall acc st,
    id_of_key st ty cn = Some id ->
    id_of_key (snd (NodeRepository.upsertEntities_from acc entities extractedBy st))
              ty cn = Some id.
Proof.
  induction entities as [|e rest IH]; intros acc st Hid; [exact Hid|].
  cbn [NodeRepository.upsertEntities_from]. unfold bind.
  pose proof (upsert_id_of_key_stable (ent_type e) (ent_name e)
                (NodeRepository.entity_metadata e) extractedBy (ent_confidence e)
                st ty cn id Hid) as Hstep.
  destruct (NodeRepository.upsert _ _ _ _ _ st) as [[i|err] st1]; simpl in Hstep.
  - now apply IH.
  - exact Hstep.
Qed.

Lemma processPaper_nodes ecap rcap (p : Paper) fullText st :
  nodes (snd (AgentOrchestrator.processPaper ecap rcap p fullText st)) = nodes st.
Proof.
  rewrite processPaper_run. cbv zeta.
  destruct (ecap p (truncateText fullText)) as [parsed_e|e]; simpl.
  - destruct (rcap p _ (truncateText fullText) _) as [parsed_r|e]; simpl;
      repeat (rewrite logged_nodes; simpl); reflexivity.
  - now rewrite logged_nodes.
Qed.

Lemma runStages_stable ecap rcap ranked_search (p : Paper) fullText st ty cn id :
  id_of_key st ty cn = Some id ->
  id_of_key (snd (IngestionPipeline.runStages ecap rcap ranked_search p fullText st))
            ty cn = Some id.
Proof.
  intros Hid. unfold IngestionPipeline.runStages, bind.
  pose proof (processPaper_nodes ecap rcap p fullText st) as Hn.
  destruct (AgentOrchestrator.processPaper ecap rcap p fullText st)
    as [[analysis|e] st1]; simpl in Hn.
  2:{ simpl. unfold id_of_key in *. now rewrite Hn. }
  assert (Hid1 : id_of_key st1 ty cn = Some id)
    by (unfold id_of_key in *; now rewrite Hn).
  unfold NodeRepository.upsertEntities.
  pose proof (upsertEntities_from_stable (analysis_entities analysis) "EntityExtractor"
                ty cn id ∅ st1 Hid1) as Hu.
  destruct (NodeRepository.upsertEntities_from ∅ _ _ st1) as [[entityMap|e] st2];
    simpl in Hu; [|exact Hu].
  unfold EdgeRepository.createRelationships.
  pose proof (createRelationships_from_nodes ranked_search
                (analysis_relationships analysis) (paper_id p) entityMap
                "RelationshipExtractor" 0 st2) as Hc.
  destruct (EdgeRepository.createRelationships_from _ _ _ _ _ _ st2)
    as [[n|e] st3]; simpl in Hc; simpl; unfold id_of_key in *; now rewrite Hc.
Qed.

(** A paper without arXiv id, once stored under the id of its node, cannot
    be created again: the insert hits the primary key. *)
Lemma paper_create_duplicate paperData st nodeId :
  orNull (pd_arxiv_id paperData) = None ->
  id_of_key st paper (normalizeName (pd_title paperData)) = Some nodeId ->
  paper_stored nodeId st = true ->
  exists err st',
    PaperRepository.create paperData st = (Throw err, st')
    /\ papers st' = papers st /\ trace st' = trace st /\ edges st' = edges st
    /\ map node_id (nodes st') = map node_id (nodes st).
Proof.
  intros Harx Hid Hstored.
  destruct (upsert_present "paper" paper (pd_title paperData)
              (PaperRepository.paper_node_metadata paperData) "system" 1%Q st nodeId
              eq_refl Hid) as (st0 & Hup & _ & Hids & _).
  pose proof (upsert_frame "paper" (pd_title paperData)
                (PaperRepository.paper_node_metadata paperData) "system" 1%Q st)
    as (Hp & Ht & He & _).
  rewrite Hup in Hp, Ht, He. simpl in Hp, Ht, He.
  unfold PaperRepository.create, PaperRepository.insertPaper, bind. rewrite Hup, Harx.
  replace (List.find (PaperRepository.arxiv_conflict None) (papers st0)) with (@None Paper).
  2:{ symmetry. clear. induction (papers st0) as [|q ps IH]; [reflexivity|exact IH]. }
  unfold paper_stored in Hstored. rewrite Hp, Hstored.
  eexists _, st0. split; [reflexivity|]. auto.
Qed.

(** What the creation of a paper without arXiv id leaves behind. *)
Lemma paper_create_first paperData st (p : Paper) st1 :
  orNull (pd_arxiv_id paperData) = None ->
  PaperRepository.create paperData st = (Return p, st1) ->
  id_of_key st1 paper (normalizeName (pd_title paperData)) = Some (paper_id p).
Proof.
  intros Harx. unfold PaperRepository.create, PaperRepository.insertPaper, bind.
  destruct (paper_upsert_returns paperData st) as (nodeId & st0 & Hup & _ & _ & _ & Hid).
  rewrite Hup, Harx.
  replace (List.find (PaperRepository.arxiv_conflict None) (papers st0)) with (@None Paper).
  2:{ symmetry. clear. induction (papers st0) as [|q ps IH]; [reflexivity|exact IH]. }
  destruct (existsb _ (papers st0)); [discriminate|].
  intros [= <- <-]. exact Hid.
Qed.

(** X14. Ingesting the same paper twice is not idempotent when the paper
    has no arXiv id: after an ingestion that got past the creation of the
    Paper record, a second [ingestPaper] of the same data throws at the
    creation (duplicate primary key) before any stage runs, and leaves the
    papers, their statuses, the edges and the trace as they were. *)
Theorem ingestPaper_twice_without_arxiv
        (entityCapability : Paper -> string -> outcome (list ParsedEntity))
        (relationshipCapability :
           Paper -> list ExtractedEntity -> string -> option (list PaperRef) ->
           outcome (list ParsedRelationship))
        (ranked_search : list Node -> string -> option NodeType -> nat -> list Node)
        (paperData : PaperData) (st : State) (p : Paper) (st0 : State) :
  orNull (pd_arxiv_id paperData) = None ->
  PaperRepository.create paperData st = (Return p, st0) ->
  let st1 := snd (IngestionPipeline.ingestPaper entityCapability relationshipCapability
                                                ranked_search paperData st) in
  exists err st2,
    IngestionPipeline.ingestPaper entityCapability relationshipCapability
                                  ranked_search paperData st1
    = (Throw err, st2)
    /\ papers st2 = papers st1 /\ edges st2 = edges st1 /\ trace st2 = trace st1.
Proof.
  intros Harx Hcreate st1.
  pose proof (paper_create_first _ _ _ _ Harx Hcreate) as Hid0.
  destruct (paper_create_stored _ _ _ _ Hcreate) as [Hstored0 _].
  set (id := paper_id p) in *.
  set (sta := snd (PaperRepository.updateStatus id processing st0)).
  set (stages := IngestionPipeline.runStages entityCapability relationshipCapability
                   ranked_search p (pd_full_text paperData) sta).
  assert (Hst1 : exists status,
             st1 = snd (PaperRepository.updateStatus id status (snd stages))).
  { subst st1. unfold IngestionPipeline.ingestPaper, bind, try_catch.
    rewrite Hcreate.
    change (PaperRepository.updateStatus (paper_id p) processing st0)
      with (Return tt, sta).
    cbv beta iota.
    change (IngestionPipeline.runStages entityCapability relationshipCapability
              ranked_search p (pd_full_text paperData) sta) with stages.
    destruct stages as [[analysis|e] st3]; [exists completed | exists failed];
      reflexivity. }
  destruct Hst1 as (status & Hst1).
  assert (Hid1 : id_of_key st1 paper (normalizeName (pd_title paperData)) = Some id).
  { rewrite Hst1. unfold id_of_key. simpl nodes.
    apply (runStages_stable entityCapability relationshipCapability ranked_search
             p (pd_full_text paperData) sta). exact Hid0. }
  assert (Hstored1 : paper_stored id st1 = true).
  { rewrite Hst1, stored_after_update.
    pose proof (runStages_frame entityCapability relationshipCapability ranked_search
                  p (pd_full_text paperData) sta) as [Hp _].
    fold stages in Hp.
    rewrite (paper_stored_papers id sta (snd stages) Hp). subst sta.
    now rewrite stored_after_update. }
  destruct (paper_create_duplicate paperData st1 id Harx Hid1 Hstored1)
    as (err & st2 & Hthrow & Hp2 & Ht2 & He2 & _).
  exists err, st2. split; [|auto].
  unfold IngestionPipeline.ingestPaper, bind. now rewrite Hthrow.
Qed.

(** ** Reprocessing *)

Lemma status_of_stored id st : is_Some (status_of id st) <-> paper_stored id st = true.
Proof.
  unfold status_of, paper_stored.
  induction (papers st) as [|q ps IH]; simpl.
  - split; [intros [? H]; discriminate H | discriminate].
  - destruct (Nat.eqb (paper_id q) id); simpl; [|exact IH].
    split; eauto.
Qed.

(** X16. [reprocessPaper] throws "Paper not found: <id>" for an id that is
    not stored and "Paper has no full text: <id>" for a paper stored without
    text or with the empty text, and leaves the store untouched in both
    cases.  Otherwise it runs the stages on the stored text, and the paper
    ends completed when it returns and failed when it throws. *)
Theorem reprocessPaper_outcome
        (entityCapability : Paper -> string -> outcome (list ParsedEntity))
        (relationshipCapability :
           Paper -> list ExtractedEntity -> string -> option (list PaperRef) ->
           outcome (list ParsedRelationship))
        (ranked_search : list Node -> string -> option NodeType -> nat -> list Node)
        (paperId : Id) (st : State) :
  let run := IngestionPipeline.reprocessPaper entityCapability relationshipCapability
                                              ranked_search paperId st in
  match List.find (fun p => Nat.eqb (paper_id p) paperId) (papers st) with
  | None => run = (Throw (Error ("Paper not found: " ++ Id_text paperId)), st)
  | Some row =>
      if match full_text row with
         | None => true
         | Some text => String.eqb text ""
         end
      then run = (Throw (Error ("Paper has no full text: " ++ Id_text paperId)), st)
      else
          let text := default "" (full_text row) in
          let stages :=
            IngestionPipeline.runStages
              entityCapability relationshipCapability ranked_search row text
              (snd (PaperRepository.updateStatus paperId processing st)) in
          map paper_id (papers (snd run)) = map paper_id (papers st)
          /\ match fst stages with
             | Return _ =>
                 fst run = Return tt /\ status_of paperId (snd run) = Some completed
             | Throw e =>
                 fst run = Throw e /\ status_of paperId (snd run) = Some failed
             end
  end.
Proof.
  intros run.
  assert (Hfind : run
                  = (match List.find (fun p => Nat.eqb (paper_id p) paperId) (papers st)
                     with
                     | None => throw (Error ("Paper not found: " ++ Id_text paperId))
                     | Some row =>
                         match orNull (full_text row) with
                         | None =>
                             throw (Error ("Paper has no full text: "
                                             ++ Id_text paperId))
                         | Some text =>
                             run! PaperRepository.updateStatus (paper_id row) processing in
                             try_catch
                               (let! analysis :=
                                  AgentOrchestrator.processPaper
                                    entityCapability relationshipCapability row text in
                                let! entityMap :=
                                  NodeRepository.upsertEntities
                                    (analysis_entities analysis) "EntityExtractor" in
                                let! edgeCount :=
                                  EdgeRepository.createRelationships ranked_search
                                    (analysis_relationships analysis) (paper_id row)
                                    entityMap "RelationshipExtractor" in
                                PaperRepository.updateStatus (paper_id row) completed)
                               (fun error =>
                                  run! PaperRepository.updateStatus (paper_id row) failed in
                                  throw error)
                         end
                     end) st) by reflexivity.
  clearbody run. subst run.
  destruct (List.find _ (papers st)) as [row|] eqn:Hf; [|reflexivity].
  unfold orNull.
  destruct (full_text row) as [text|]; [|reflexivity].
  destruct (String.eqb text ""); [reflexivity|]. simpl default.
  assert (Hid : paper_id row = paperId).
  { apply List.find_some in Hf as [_ Hid]. now apply Nat.eqb_eq. }
  assert (Hstored : paper_stored paperId st = true).
  { unfold paper_stored. apply existsb_exists. apply List.find_some in Hf. eauto. }
  rewrite Hid. cbv zeta.
  set (sta := snd (PaperRepository.updateStatus paperId processing st)).
  pose proof (runStages_frame entityCapability relationshipCapability ranked_search
                              row text sta) as [Hpapers _].
  set (stages := IngestionPipeline.runStages entityCapability relationshipCapability
                   ranked_search row text sta) in *.
  assert (Hrun :
            (run! PaperRepository.updateStatus paperId processing in
             try_catch
               (let! analysis :=
                  AgentOrchestrator.processPaper entityCapability relationshipCapability
                                                 row text in
                let! entityMap :=
                  NodeRepository.upsertEntities (analysis_entities analysis)
                                                "EntityExtractor" in
                let! edgeCount :=
                  EdgeRepository.createRelationships ranked_search
                    (analysis_relationships analysis) paperId entityMap
                    "RelationshipExtractor" in
                PaperRepository.updateStatus paperId completed)
               (fun error =>
                  run! PaperRepository.updateStatus paperId failed in throw error)) st
            = match fst stages with
              | Return _ =>
                  (Return tt,
                   snd (PaperRepository.updateStatus paperId completed (snd stages)))
              | Throw e =>
                  (Throw e,
                   snd (PaperRepository.updateStatus paperId failed (snd stages)))
              end).
  { unfold bind at 1.
    change (PaperRepository.updateStatus paperId processing st) with (Return tt, sta).
    cbv beta iota. subst stages. unfold IngestionPipeline.runStages, try_catch, bind.
    rewrite Hid.
    destruct (AgentOrchestrator.processPaper _ _ row text sta)
      as [[analysis|e] st1]; [|reflexivity].
    destruct (NodeRepository.upsertEntities _ _ st1) as [[entityMap|e] st2];
      [|reflexivity].
    destruct (EdgeRepository.createRelationships _ _ _ _ _ st2) as [[n|e] st3];
      reflexivity. }
  rewrite Hrun.
  assert (Hstored' : paper_stored paperId (snd stages) = true).
  { rewrite (paper_stored_papers paperId sta (snd stages) Hpapers). subst sta.
    now rewrite stored_after_update. }
  assert (Hids : forall status,
             map paper_id
                 (papers (snd (PaperRepository.updateStatus paperId status (snd stages))))
             = map paper_id (papers st)).
  { intros status.
    rewrite (updateStatus_ids paperId status (snd stages)).
    rewrite Hpapers. subst sta. apply updateStatus_ids. }
  destruct (fst stages) as [analysis|e].
  - split; [apply Hids|]. split; [reflexivity | now apply status_after_update].
  - split; [apply Hids|]. split; [reflexivity | now apply status_after_update].
Qed.

(** ** Orchestrator: the validated analysis *)

Lemma validateEntities_keys (entities : list ExtractedEntity) :
  NoDup (map entity_key (AgentOrchestrator.validateEntities entities))
  /\ (forall k, k ∈ map entity_key (AgentOrchestrator.validateEntities entities)
                <-> k ∈ map entity_key entities)
  /\ (forall e, e ∈ AgentOrchestrator.validateEntities entities -> e ∈ entities).
Proof.
  unfold AgentOrchestrator.validateEntities.
  destruct (seen_invariant_fold entities) as (Hnd & Hkeys & Hbest).
  set (seen := fold_left AgentOrchestrator.see entities []) in *.
  assert (Hmap : map entity_key (JsMap.values seen) = JsMap.keys seen).
  { unfold JsMap.values, JsMap.keys. rewrite map_map. apply map_ext_in.
    intros [k e] Hin. simpl. apply list_elem_of_In in Hin.
    now destruct (Hbest k e Hin). }
  rewrite Hmap. split; [assumption|]. split; [assumption|].
  intros e He. unfold JsMap.values in He.
  apply list_elem_of_fmap in He as ([k e'] & -> & Hin). simpl.
  destruct (Hbest k e' Hin) as (_ & i & Hi & _).
  now apply list_elem_of_lookup_2 in Hi.
Qed.

Lemma validateRelationships_elem relationships entities rel :
  rel ∈ AgentOrchestrator.validateRelationships relationships entities
  <-> rel ∈ relationships
      /\ (normalizeName (rel_source rel) ∈ map entity_key entities
          \/ normalizeName (rel_target rel) ∈ map entity_key entities).
Proof.
  unfold AgentOrchestrator.validateRelationships.
  rewrite !list_elem_of_In, filter_In, <- !list_elem_of_In.
  rewrite orb_true_iff, !bool_decide_eq_true, !elem_of_list_to_set.
  reflexivity.
Qed.

(** X11. The relationship filter of the validation stage keeps the order
    of the relationships and keeps a relationship exactly when the
    canonical name of its source or of its target is the canonical name of a
    candidate entity; the entity dedup before it removes no canonical name,
    so it does not change which relationships are kept. *)
Theorem validateRelationships_after_dedup
        (relationships : list ExtractedRelationship) (entities : list ExtractedEntity) :
  AgentOrchestrator.validateRelationships
    relationships (AgentOrchestrator.validateEntities entities)
  = AgentOrchestrator.validateRelationships relationships entities
  /\ sublist (AgentOrchestrator.validateRelationships relationships entities)
             relationships
  /\ (forall rel,
         rel ∈ AgentOrchestrator.validateRelationships relationships entities
         <-> rel ∈ relationships
             /\ (normalizeName (rel_source rel) ∈ map entity_key entities
                 \/ normalizeName (rel_target rel) ∈ map entity_key entities)).
Proof.
  split; [|split; [|intros rel; apply validateRelationships_elem]].
  - unfold AgentOrchestrator.validateRelationships.
    destruct (validateEntities_keys entities) as (_ & Hkeys & _).
    apply filter_ext. intros rel.
    assert (Hset : forall k : string,
               bool_decide
                 (k ∈ (list_to_set
                         (map (fun e => normalizeName (ent_name e))
                              (AgentOrchestrator.validateEntities entities))
                       : gset string))
               = bool_decide
                   (k ∈ (list_to_set
                           (map (fun e => normalizeName (ent_name e)) entities)
                         : gset string))).
    { intros k. apply bool_decide_ext. rewrite !elem_of_list_to_set. apply Hkeys. }
    now rewrite !Hset.
  - unfold AgentOrchestrator.validateRelationships.
    induction relationships as [|rel rest IH]; simpl; [constructor|].
    destruct (_ || _); [now apply sublist_skip | now apply sublist_cons].
Qed.

(** X12. The analysis that [processPaper] returns is well formed: it
    carries the paper's id; its entities have pairwise different canonical
    names and confidences in [0,1]; each of its relationships has a
    confidence in [0,1] and an endpoint whose canonical name is that of one
    of its entities.  The run writes to no table but the log. *)
Theorem processPaper_analysis
        (entityCapability : Paper -> string -> outcome (list ParsedEntity))
        (relationshipCapability :
           Paper -> list ExtractedEntity -> string -> option (list PaperRef) ->
           outcome (list ParsedRelationship))
        (p : Paper) (fullText : string) (st st' : State) (analysis : PaperAnalysis) :
  AgentOrchestrator.processPaper entityCapability relationshipCapability p fullText st
  = (Return analysis, st') ->
  analysis_paper_id analysis = paper_id p
  /\ NoDup (map entity_key (analysis_entities analysis))
  /\ Forall (fun e => in_unit_interval (ent_confidence e)) (analysis_entities analysis)
  /\ Forall (fun r =>
               in_unit_interval (rel_confidence r)
               /\ (normalizeName (rel_source r)
                     ∈ map entity_key (analysis_entities analysis)
                   \/ normalizeName (rel_target r)
                        ∈ map entity_key (analysis_entities analysis)))
            (analysis_relationships analysis)
  /\ nodes st' = nodes st /\ edges st' = edges st /\ papers st' = papers st.
Proof.
  intros Hrun.
  pose proof (processPaper_nodes entityCapability relationshipCapability p fullText st)
    as Hnodes.
  rewrite Hrun in Hnodes. simpl in Hnodes.
  rewrite processPaper_run in Hrun. cbv zeta in Hrun.
  destruct (entityCapability p (truncateText fullText)) as [parsed_e|e]; [|discriminate].
  destruct (relationshipCapability p _ (truncateText fullText) _) as [parsed_r|e];
    [|discriminate].
  injection Hrun as <- <-. unfold analysis_of. simpl.
  set (entities := map EntityExtractorAgent.normalizeEntity parsed_e).
  destruct (validateEntities_keys entities) as (Hnd & Hkeys & Hsub).
  split; [reflexivity|]. split; [exact Hnd|]. split.
  { apply Forall_forall. intros e He. apply Hsub in He. subst entities.
    apply list_elem_of_fmap in He as (c & -> & _). apply normalizeConfidence_bounds. }
  split.
  { apply Forall_forall. intros r Hr.
    apply validateRelationships_elem in Hr as [Hr Hend]. split; [|exact Hend].
    apply list_elem_of_fmap in Hr as (c & -> & _). apply normalizeConfidence_bounds. }
  split; [exact Hnodes|].
  split; [repeat (rewrite logged_edges; simpl); reflexivity
        | now autorewrite with store].
Qed.

(** ** Orchestrator: batches of papers *)

Lemma slice_window {A} (l : list A) (i size : Z) :
  (1 <= size)%Z ->
  (0 <= i < Z.of_nat (length l))%Z ->
  slice l i (i + size) = firstn (Z.to_nat size) (skipn (Z.to_nat i) l).
Proof.
  intros Hsize Hi. unfold slice.
  replace (i <? 0)%Z with false by (symmetry; apply Z.ltb_ge; lia).
  replace (i + size <? 0)%Z with false by (symmetry; apply Z.ltb_ge; lia).
  replace (Z.min i (Z.of_nat (length l))) with i by lia.
  set (todo := skipn (Z.to_nat i) l).
  assert (Htodo : length todo = length l - Z.to_nat i) by apply length_skipn.
  destruct (Z.le_gt_cases (i + size) (Z.of_nat (length l))) as [Hle | Hgt].
  - f_equal. lia.
  - replace (Z.to_nat (Z.min (i + size) (Z.of_nat (length l)) - i))
      with (length todo) by lia.
    rewrite firstn_all. symmetry. apply firstn_all2. lia.
Qed.

Lemma nonNull_map {A B} (f : A -> option B) (l : list A) :
  nonNull (map f l) = omap f l.
Proof.
  unfold nonNull. induction l as [|a l IH]; [reflexivity|].
  cbn. destruct (f a); cbn; rewrite IH; reflexivity.
Qed.

Section Batches.
Variable entityCapability : Paper -> string -> outcome (list ParsedEntity).
Variable relationshipCapability :
  Paper -> list ExtractedEntity -> string -> option (list PaperRef) ->
  outcome (list ParsedRelationship).

Let processOrNull :=
  OrchestratorBatches.processOrNull entityCapability relationshipCapability.
Let analysis_for :=
  OrchestratorBatches.analysis_for entityCapability relationshipCapability.

(** Only the log and the trace differ. *)
Let same_tables (st st' : State) : Prop :=
  nodes st' = nodes st /\ edges st' = edges st /\ papers st' = papers st.

Lemma processOrNull_run (item : Paper * string) (st : State) :
  exists st',
    processOrNull item st
    = (Return (analysis_for (completed_refs (papers st)) item), st')
    /\ same_tables st st'.
Proof.
  destruct item as [p text].
  subst processOrNull analysis_for.
  unfold OrchestratorBatches.processOrNull, OrchestratorBatches.analysis_for,
    try_catch, bind, fst, snd.
  pose proof (processPaper_nodes entityCapability relationshipCapability p text st)
    as Hnodes.
  rewrite processPaper_run in *. cbv zeta in *.
  assert (Hlog : forall row s, same_tables st s -> same_tables st (logged row s)).
  { intros row s (Hn & He & Hp). unfold same_tables.
    now rewrite logged_nodes, logged_edges, logged_papers. }
  assert (Hemit : forall ev s, same_tables st s -> same_tables st (emit ev s)).
  { intros ev s H. exact H. }
  assert (H0 : same_tables st st) by (repeat split).
  destruct (entityCapability p (truncateText text)) as [parsed_e|e].
  - destruct (relationshipCapability p _ (truncateText text) _) as [parsed_r|e];
      eexists; (split; [reflexivity|]); auto 10.
  - eexists. split; [reflexivity|]. auto 10.
Qed.

Lemma Promise_all_batch (batch : list (Paper * string)) :
  forall st, exists st',
    Promise_all (map processOrNull batch) st
    = (Return (map (analysis_for (completed_refs (papers st))) batch), st')
    /\ same_tables st st'.
Proof.
  induction batch as [|item rest IH]; intros st.
  - exists st. split; [reflexivity | repeat split].
  - cbn [map Promise_all].
    destruct (processOrNull_run item st) as (st1 & -> & Hn1 & He1 & Hp1).
    destruct (IH st1) as (st2 & -> & Hn2 & He2 & Hp2).
    exists st2. rewrite Hp1. split; [reflexivity|].
    unfold same_tables. rewrite Hn2, He2, Hp2. auto.
Qed.

Lemma processPapers_from_run (items : list (Paper * string)) (batchSize : Z) :
  (1 <= batchSize)%Z ->
  forall fuel (i : Z) results st,
    (0 <= i)%Z ->
    length (skipn (Z.to_nat i) items) < fuel ->
    exists st',
      OrchestratorBatches.processPapers_from
        entityCapability relationshipCapability fuel i results items batchSize st
      = (Return (Some (results
                         ++ omap (analysis_for (completed_refs (papers st)))
                                 (skipn (Z.to_nat i) items))%list), st')
      /\ same_tables st st'.
Proof.
  intros Hsize.
  induction fuel as [|fuel IH]; intros i results st Hi Hfuel; [lia|].
  cbn [OrchestratorBatches.processPapers_from].
  destruct (i <? Z.of_nat (length items))%Z eqn:Hlt.
  - apply Z.ltb_lt in Hlt. rewrite slice_window by lia.
    set (todo := skipn (Z.to_nat i) items) in *.
    assert (Htodo : length todo = length items - Z.to_nat i) by apply length_skipn.
    unfold bind. fold processOrNull.
    destruct (Promise_all_batch (firstn (Z.to_nat batchSize) todo) st)
      as (st1 & -> & Hn1 & He1 & Hp1).
    assert (Hwait : exists st2,
               (if (i + batchSize <? Z.of_nat (length items))%Z
                then delay 1000 else ret tt) st1 = (Return tt, st2)
               /\ same_tables st1 st2).
    { destruct (_ <? _)%Z; eexists; (split; [reflexivity|]); repeat split. }
    destruct Hwait as (st2 & -> & Hn2 & He2 & Hp2).
    assert (Hnext : skipn (Z.to_nat (i + batchSize)) items
                    = skipn (Z.to_nat batchSize) todo).
    { subst todo. rewrite skipn_skipn. f_equal. lia. }
    destruct (IH (i + batchSize)%Z
                 (results ++ nonNull (map (analysis_for (completed_refs (papers st)))
                                          (firstn (Z.to_nat batchSize) todo)))%list
                 st2) as (st' & -> & Hn & He & Hp); [lia| |].
    { rewrite Hnext, length_skipn. lia. }
    exists st'. split.
    + rewrite Hp2, Hp1, Hnext, nonNull_map, <- app_assoc, <- omap_app.
      now rewrite firstn_skipn.
    + unfold same_tables. rewrite Hn, He, Hp, Hn2, He2, Hp2. auto.
  - apply Z.ltb_ge in Hlt. exists st.
    rewrite skipn_all2 by lia. simpl. rewrite app_nil_r.
    split; [reflexivity | repeat split].
Qed.

(** X18. [processPapers] never rejects: with a batch size of at least 1 it
    returns, in the order of its input, the analyses of exactly the papers
    for which both calls of the capability answer, each computed against the
    papers that were completed before the call; a paper whose extraction
    throws is left out.  It writes to no table but the log. *)
Theorem processPapers_collects
        (items : list (Paper * string)) (batchSize : Z) (fuel : nat) (st : State) :
  (1 <= batchSize)%Z ->
  length items < fuel ->
  exists st',
    OrchestratorBatches.processPapers
      entityCapability relationshipCapability fuel items batchSize st
    = (Return (Some (omap (OrchestratorBatches.analysis_for
                             entityCapability relationshipCapability
                             (completed_refs (papers st))) items)), st')
    /\ nodes st' = nodes st /\ edges st' = edges st /\ papers st' = papers st.
Proof.
  intros Hsize Hfuel.
  destruct (processPapers_from_run items batchSize Hsize fuel 0 [] st)
    as (st' & Hrun & Hsame); [lia | exact Hfuel |].
  exists st'. split; [exact Hrun | exact Hsame].
Qed.
End Batches.

(** ** Pipeline: what a successful ingestion leaves in the graph *)

Lemma id_of_key_nodes st st' ty cn :
  nodes st' = nodes st -> id_of_key st' ty cn = id_of_key st ty cn.
Proof. unfold id_of_key. now intros ->. Qed.

(** A creation of a paper that returns stores a node for its title and
    keeps the ids stored under all keys. *)
Lemma paper_create_node paperData st (p : Paper) st1 :
  PaperRepository.create paperData st = (Return p, st1) ->
  is_Some (id_of_key st1 paper (normalizeName (pd_title paperData)))
  /\ (forall ty cn id, id_of_key st ty cn = Some id -> id_of_key st1 ty cn = Some id).
Proof.
  unfold PaperRepository.create, PaperRepository.insertPaper, bind.
  destruct (paper_upsert_returns paperData st) as (nodeId & st0 & Hup & _ & _ & _ & Hid).
  pose proof (fun ty cn id =>
                upsert_id_of_key_stable "paper" (pd_title paperData)
                  (PaperRepository.paper_node_metadata paperData) "system" 1%Q
                  st ty cn id) as Hstable.
  rewrite Hup in *. simpl in Hstable.
  assert (Hdone : forall s, nodes s = nodes st0 ->
             is_Some (id_of_key s paper (normalizeName (pd_title paperData)))
             /\ (forall ty cn id, id_of_key st ty cn = Some id ->
                                  id_of_key s ty cn = Some id)).
  { intros s Hs. split.
    - rewrite (id_of_key_nodes st0 s _ _ Hs), Hid. eauto.
    - intros ty cn id H. rewrite (id_of_key_nodes st0 s _ _ Hs). auto. }
  destruct (List.find _ (papers st0)).
  - intros [= _ <-]. now apply Hdone.
  - destruct (existsb _ (papers st0)); [discriminate|].
    intros [= _ <-]. now apply Hdone.
Qed.

(** X19. After an ingestion that returns, the graph holds a node for the
    paper's title and a node for every entity of the returned analysis,
    under the entity's kind and canonical name; every key that had a node
    before still has it, with the same id. *)
Theorem ingestPaper_stores_entities
        (entityCapability : Paper -> string -> outcome (list ParsedEntity))
        (relationshipCapability :
           Paper -> list ExtractedEntity -> string -> option (list PaperRef) ->
           outcome (list ParsedRelationship))
        (ranked_search : list Node -> string -> option NodeType -> nat -> list Node)
        (paperData : PaperData) (st st' : State) (p : Paper) (analysis : PaperAnalysis) :
  IngestionPipeline.ingestPaper entityCapability relationshipCapability ranked_search
                                paperData st
  = (Return (p, analysis), st') ->
  is_Some (id_of_key st' paper (normalizeName (pd_title paperData)))
  /\ Forall (fun e => exists ty, node_type_of_string (ent_type e) = Some ty
                                 /\ is_Some (id_of_key st' ty (entity_key e)))
            (analysis_entities analysis)
  /\ (forall ty cn id, id_of_key st ty cn = Some id -> id_of_key st' ty cn = Some id).
Proof.
  unfold IngestionPipeline.ingestPaper, bind, try_catch.
  destruct (PaperRepository.create paperData st) as [[p0|e] st0] eqn:Hcreate;
    [|discriminate].
  destruct (paper_create_node _ _ _ _ Hcreate) as [Hpaper Hkeep0].
  set (sta := snd (PaperRepository.updateStatus (paper_id p0) processing st0)).
  change (PaperRepository.updateStatus (paper_id p0) processing st0)
    with (Return tt, sta).
  cbv beta iota.
  assert (Hna : nodes sta = nodes st0) by reflexivity.
  unfold IngestionPipeline.runStages, bind.
  pose proof (processPaper_nodes entityCapability relationshipCapability p0
                (pd_full_text paperData) sta) as Hn1.
  destruct (AgentOrchestrator.processPaper _ _ p0 _ sta) as [[an|e] st1];
    [|discriminate].
  simpl in Hn1. unfold NodeRepository.upsertEntities.
  destruct (NodeRepository.upsertEntities_from ∅ (analysis_entities an) _ st1)
    as [[entityMap|e] st2] eqn:Hup; [|discriminate].
  destruct (upsertEntities_from_returns _ _ _ _ _ _ Hup) as (Hkeep2 & Hall & _).
  unfold EdgeRepository.createRelationships.
  pose proof (createRelationships_from_nodes ranked_search (analysis_relationships an)
                (paper_id p0) entityMap "RelationshipExtractor" 0 st2) as Hn3.
  destruct (EdgeRepository.createRelationships_from _ _ _ _ _ _ st2) as [[n|e] st3];
    [|discriminate].
  simpl in Hn3. unfold ret. intros [= <- <- <-].
  assert (Hfinal : forall ty cn,
             id_of_key (snd (PaperRepository.updateStatus (paper_id p0) completed st3))
                       ty cn = id_of_key st2 ty cn).
  { intros ty cn. apply id_of_key_nodes. exact Hn3. }
  assert (Hstart : forall ty cn, id_of_key st1 ty cn = id_of_key st0 ty cn).
  { intros ty cn. apply id_of_key_nodes. now rewrite Hn1. }
  split.
  { destruct Hpaper as [id Hid]. exists id. rewrite Hfinal. apply Hkeep2.
    now rewrite Hstart. }
  split.
  { eapply Forall_impl; [exact Hall|]. intros e (ty & Hty & Hsome).
    exists ty. split; [exact Hty|]. now rewrite Hfinal. }
  intros ty cn id Hid. rewrite Hfinal. apply Hkeep2. rewrite Hstart. now apply Hkeep0.
Qed.

(** ** Canonical names and prompt texts *)

Lemma canonical_char_kept (c : ascii) :
  keptChar c = true -> toLowerChar c = c -> (isSpace c = true -> c = " "%char) ->
  canonical_char c = true.
Proof.
  destruct c as [[] [] [] [] [] [] [] []]; vm_compute; intros Hk Hl Hs;
    try reflexivity; try discriminate; try (now specialize (Hs eq_refl)).
Qed.

Lemma Forall_collapseFrom_spaces (P : ascii -> Prop) l :
  P " "%char -> (forall c, isSpace c = false -> P c) ->
  forall inRun, Forall P (collapseFrom inRun l).
Proof.
  intros Hsp Hother. induction l as [|c l IH]; intros b; [constructor|].
  simpl. destruct (isSpace c) eqn:E; [destruct b|]; auto.
Qed.

(** X1. A canonical name holds only lower-case ASCII letters, digits,
    underscores, spaces and hyphens, and it does not depend on the letter
    case of the name. *)
Theorem normalizeName_canonical (name : string) :
  Forall (fun c => canonical_char c = true)
         (list_ascii_of_string (normalizeName name))
  /\ normalizeName (String_toLowerCase name) = normalizeName name.
Proof.
  unfold normalizeName, String_toLowerCase.
  rewrite !list_ascii_of_string_of_list_ascii. split.
  - unfold normalizeChars, stripSpecial.
    set (t := trim (toLowerCase (list_ascii_of_string name))).
    assert (Hlow : Forall (fun c => toLowerChar c = c) (collapseSpaces t)).
    { apply Forall_collapseFrom; [reflexivity|]. apply Forall_trim.
      unfold toLowerCase. apply Forall_map, Forall_forall.
      intros c _. apply toLowerChar_idempotent. }
    assert (Hsp : Forall (fun c => isSpace c = true -> c = " "%char) (collapseSpaces t)).
    { apply Forall_collapseFrom_spaces; [reflexivity|]. intros c -> [=]. }
    apply Forall_forall. intros c Hc.
    apply list_elem_of_In, filter_In in Hc as [Hin Hkept].
    rewrite Forall_forall in Hlow, Hsp. apply list_elem_of_In in Hin.
    apply canonical_char_kept; auto.
  - f_equal. unfold normalizeChars, toLowerCase. rewrite map_map.
    do 3 f_equal. apply map_ext. intros c. apply toLowerChar_idempotent.
Qed.

Lemma length_string_app (s1 s2 : string) :
  String.length (s1 ++ s2) = String.length s1 + String.length s2.
Proof. induction s1 as [|c s1 IH]; simpl; [reflexivity | now rewrite IH]. Qed.

Lemma length_substring_prefix (n : nat) :
  forall s, n <= String.length s -> String.length (String.substring 0 n s) = n.
Proof.
  induction n as [|n IH]; intros [|c s]; simpl; intros H; try reflexivity; try lia.
  rewrite IH; [reflexivity | lia].
Qed.

(** X17. The text that the agents put into a prompt is the paper's text
    when that has at most 15000 characters; a longer text is cut: the
    prompt text then has exactly 15000 + 21 characters, and its first 15000
    characters are those of the paper's text. *)
Theorem truncateText_bounded (text : string) :
  let maxLength := N.to_nat 15000 in
  String.length (truncateText text) <= maxLength + String.length truncation_marker
  /\ (String.length text <= maxLength -> truncateText text = text)
  /\ (maxLength < String.length text ->
      String.length (truncateText text) = maxLength + 21
      /\ forall i, i < maxLength ->
                   String.get i (truncateText text) = String.get i text).
Proof.
  intros maxLength. unfold truncateText. fold maxLength. fold truncation_marker.
  change (String.length truncation_marker) with 21.
  destruct (Nat.ltb_spec maxLength (String.length text)) as [Hlong | Hshort].
  - assert (Hcut : String.length (String.substring 0 maxLength text) = maxLength)
      by (apply length_substring_prefix; lia).
    rewrite length_string_app, Hcut.
    change (String.length truncation_marker) with 21.
    split; [lia|]. split; [lia|]. intros _. split; [reflexivity|].
    intros i Hi. rewrite <- append_correct1 by lia.
    rewrite substring_correct1 by exact Hi. now rewrite Nat.add_0_r.
  - split; [lia|]. split; [reflexivity | lia].
Qed.

(** ** Node store: reading back what was written *)

Section UniqueRow.
Context {A K : Type} (key : A -> K) (p : K -> A -> bool).
Hypothesis p_key : forall k x, p k x = true <-> key x = k.

(** Under a unique constraint the query by key finds the row. *)
Lemma find_unique_row (l : list A) (x : A) :
  NoDup (map key l) -> x ∈ l -> List.find (p (key x)) l = Some x.
Proof.
  induction l as [|y l IH]; simpl; intros Hnd Hin.
  - now apply elem_of_nil in Hin.
  - apply NoDup_cons in Hnd as [Hy Hnd].
    destruct (p (key x) y) eqn:E.
    + apply p_key in E. apply elem_of_cons in Hin as [-> | Hin]; [reflexivity|].
      exfalso. apply Hy. rewrite E. apply list_elem_of_fmap. now exists x.
    + apply elem_of_cons in Hin as [-> | Hin]; [|now apply IH].
      assert (p (key y) y = true) by now apply p_key. congruence.
Qed.
End UniqueRow.

Lemma node_id_eqb (id : Id) (n : Node) : Nat.eqb (node_id n) id = true <-> node_id n = id.
Proof. apply Nat.eqb_eq. Qed.

Lemma upsert_ids_fresh kind name metadata extractedBy confidence st :
  node_ids_fresh st ->
  node_ids_fresh (snd (NodeRepository.upsert kind name metadata extractedBy confidence st)).
Proof.
  intros [Hids Hlt]. unfold NodeRepository.upsert.
  destruct (node_type_of_string kind) as [ty|]; [|split; assumption].
  destruct (List.find _ (nodes st)) as [ex|]; simpl; split; simpl.
  - now rewrite map_update_first.
  - now apply Forall_update_first.
  - rewrite map_app. simpl. apply NoDup_app. split; [assumption|].
    split; [|apply NoDup_singleton].
    intros i Hi Hi'. apply list_elem_of_singleton in Hi'. subst i.
    apply list_elem_of_fmap in Hi as (n & Hn & Hin).
    rewrite Forall_forall in Hlt. specialize (Hlt n Hin). lia.
  - apply Forall_app. split.
    + eapply Forall_impl; [exact Hlt|]. simpl. intros; lia.
    + constructor; [simpl; lia | constructor].
Qed.

(** X20. What an upsert wrote can be read back: after an upsert that
    returned an id, [findById] of that id and [findByName] of the kind and
    of any name with the same canonical name (the same name in another
    letter case, say) return the same node, which carries the id and the
    key. *)
Theorem upsert_then_find
        (kind name : string) (metadata : metadata_t) (extractedBy : string)
        (confidence : Q) (st st' : State) (id : Id) :
  node_ids_fresh st ->
  NodeRepository.upsert kind name metadata extractedBy confidence st = (Return id, st') ->
  exists ty n,
    node_type_of_string kind = Some ty
    /\ node_id n = id /\ node_key n = (ty, normalizeName name)
    /\ NodeRepository.findById id st' = (Return (Some n), st')
    /\ (forall name', normalizeName name' = normalizeName name ->
                      NodeRepository.findByName ty name' st' = (Return (Some n), st')).
Proof.
  intros Hfresh Hrun.
  pose proof (upsert_ids_fresh kind name metadata extractedBy confidence st Hfresh)
    as [Hids _].
  rewrite Hrun in Hids. simpl in Hids.
  assert (Hread : forall ty n,
             node_type_of_string kind = Some ty -> n ∈ nodes st' -> node_id n = id ->
             List.find (NodeRepository.same_key ty (normalizeName name)) (nodes st')
             = Some n ->
             exists ty n,
               node_type_of_string kind = Some ty
               /\ node_id n = id /\ node_key n = (ty, normalizeName name)
               /\ NodeRepository.findById id st' = (Return (Some n), st')
               /\ (forall name', normalizeName name' = normalizeName name ->
                                 NodeRepository.findByName ty name' st'
                                 = (Return (Some n), st'))).
  { intros ty n Hk Hin Hid Hfind. exists ty, n.
    split; [exact Hk|]. split; [exact Hid|].
    split; [now apply (find_some_key node_key _ node_same_key' (ty, normalizeName name))
                      in Hfind|].
    split.
    - unfold NodeRepository.findById. f_equal. f_equal. rewrite <- Hid.
      now apply (find_unique_row node_id (fun k n => Nat.eqb (node_id n) k) node_id_eqb).
    - intros name' Hname. unfold NodeRepository.findByName. now rewrite Hname, Hfind. }
  revert Hrun. unfold NodeRepository.upsert.
  destruct (node_type_of_string kind) as [ty|] eqn:Hk; [|discriminate].
  destruct (List.find _ (nodes st)) as [ex|] eqn:Hf; intros [= <- <-].
  - apply (Hread ty (NodeRepository.merge_node (clock st) metadata confidence ex));
      [reflexivity | now apply update_first_elem | reflexivity |].
    simpl. apply find_update_first; [exact Hf|].
    rewrite same_key_merge. now apply List.find_some in Hf.
  - set (new := mkNode (next_uuid st) ty name (normalizeName name)
                       (jsonb_param (JSON_stringify metadata)) confidence
                       extractedBy (clock st)).
    apply (Hread ty new); [reflexivity | | reflexivity |].
    + simpl. apply elem_of_app. right. apply list_elem_of_here.
    + simpl. rewrite (find_app_none _ _ _ Hf).
      assert (Hnew : NodeRepository.same_key ty (normalizeName name) new = true)
        by now apply (node_same_key (ty, normalizeName name)).
      cbn [List.find]. fold new. now rewrite Hnew.
Qed.

(** ** Orchestrator: the endpoints of the relationships *)

Lemma normalizeName_lower (name : string) :
  normalizeName (String_toLowerCase name) = normalizeName name.
Proof.
  unfold normalizeName, String_toLowerCase.
  rewrite list_ascii_of_string_of_list_ascii.
  f_equal. unfold normalizeChars, toLowerCase. rewrite map_map.
  do 3 f_equal. apply map_ext. intros c. apply toLowerChar_idempotent.
Qed.

(** Names that differ in letter case only have one canonical name. *)
Lemma normalizeName_same_lower (a b : string) :
  String_toLowerCase a = String_toLowerCase b -> normalizeName a = normalizeName b.
Proof.
  intros H. rewrite <- (normalizeName_lower a), <- (normalizeName_lower b).
  now rewrite H.
Qed.

Lemma insert_by_date_perm (p : Paper) (l : list Paper) :
  AgentOrchestrator.insert_by_date p l ≡ₚ p :: l.
Proof.
  induction l as [|q l IH]; simpl; [reflexivity|].
  destruct (AgentOrchestrator.date_ge _ _); [|reflexivity].
  rewrite IH. apply Permutation_swap.
Qed.

Lemma order_by_date_desc_perm (l : list Paper) :
  AgentOrchestrator.order_by_date_desc l ≡ₚ l.
Proof.
  unfold AgentOrchestrator.order_by_date_desc.
  assert (H : forall acc,
             fold_left (fun acc p => AgentOrchestrator.insert_by_date p acc) l acc
             ≡ₚ l ++ acc).
  { induction l as [|p l IH]; intros acc; simpl; [reflexivity|].
    rewrite IH, insert_by_date_perm. symmetry. apply Permutation_middle. }
  rewrite H. now rewrite app_nil_r.
Qed.

(** The known papers are completed papers of the store, at most 100. *)
Lemma completed_refs_sound (ps : list Paper) :
  length (completed_refs ps) <= 100
  /\ forall ref, ref ∈ completed_refs ps ->
                 exists q, q ∈ ps /\ processing_status q = completed
                           /\ ref_title ref = title q /\ ref_arxiv_id ref = arxiv_id q.
Proof.
  unfold completed_refs. split.
  - rewrite length_map, length_firstn. lia.
  - intros ref Href. apply list_elem_of_fmap in Href as (q & -> & Hq).
    exists q.
    assert (Hq' : q ∈ AgentOrchestrator.order_by_date_desc
                        (List.filter
                           (fun p => bool_decide (processing_status p = completed)) ps)).
    { rewrite <- (firstn_skipn 100 (AgentOrchestrator.order_by_date_desc _)).
      apply elem_of_app. now left. }
    clear Hq. rename Hq' into Hq.
    rewrite order_by_date_desc_perm in Hq.
    apply list_elem_of_In, filter_In in Hq as [Hin Hdone].
    apply bool_decide_eq_true in Hdone. apply list_elem_of_In in Hin. auto.
Qed.

Lemma endpointExists_sound entities refs name :
  RelationshipExtractorAgent.endpointExists entities (Some refs) name = true ->
  normalizeName name ∈ map entity_key entities
  \/ exists ref, ref ∈ refs
                 /\ String_toLowerCase (ref_title ref) = String_toLowerCase name.
Proof.
  unfold RelationshipExtractorAgent.endpointExists.
  rewrite orb_true_iff, !existsb_exists.
  intros [(e & Hin & Heq) | (ref & Hin & Heq)]; apply String.eqb_eq in Heq.
  - left. apply list_elem_of_fmap. exists e.
    split; [|now apply list_elem_of_In].
    unfold entity_key. symmetry. now apply normalizeName_same_lower.
  - right. exists ref. split; [now apply list_elem_of_In | exact Heq].
Qed.

(** X21. In the analysis that [processPaper] returns, each endpoint of
    each relationship either has the canonical name of an entity of the
    analysis or is, up to letter case, the title of a paper that was
    completed before the run (one of the at most 100 offered to the
    relationship agent).  A relationship naming the processed paper itself
    is therefore dropped unless the paper's title is one of its entities or
    the paper was completed earlier. *)
Theorem processPaper_endpoints
        (entityCapability : Paper -> string -> outcome (list ParsedEntity))
        (relationshipCapability :
           Paper -> list ExtractedEntity -> string -> option (list PaperRef) ->
           outcome (list ParsedRelationship))
        (p : Paper) (fullText : string) (st st' : State) (analysis : PaperAnalysis) :
  AgentOrchestrator.processPaper entityCapability relationshipCapability p fullText st
  = (Return analysis, st') ->
  Forall (fun r =>
            forall endpoint, endpoint = rel_source r \/ endpoint = rel_target r ->
              normalizeName endpoint ∈ map entity_key (analysis_entities analysis)
              \/ exists q, q ∈ papers st /\ processing_status q = completed
                           /\ String_toLowerCase (title q) = String_toLowerCase endpoint)
         (analysis_relationships analysis).
Proof.
  rewrite processPaper_run. cbv zeta.
  destruct (entityCapability p (truncateText fullText)) as [parsed_e|e]; [|discriminate].
  destruct (relationshipCapability p _ (truncateText fullText) _) as [parsed_r|e];
    [|discriminate].
  intros [= <- _]. unfold analysis_of. simpl.
  set (entities := map EntityExtractorAgent.normalizeEntity parsed_e).
  destruct (validateEntities_keys entities) as (_ & Hkeys & _).
  destruct (completed_refs_sound (papers st)) as [_ Hrefs].
  apply Forall_forall. intros r Hr.
  apply validateRelationships_elem in Hr as [Hr _].
  apply list_elem_of_fmap in Hr as (c & -> & Hc).
  apply list_elem_of_In, filter_In in Hc as [_ Hkept].
  unfold kept_by_relationship_agent in Hkept. apply andb_true_iff in Hkept as [Hs Ht].
  assert (Hend : forall name,
             RelationshipExtractorAgent.endpointExists
               entities (Some (completed_refs (papers st))) name = true ->
             normalizeName name
               ∈ map entity_key (AgentOrchestrator.validateEntities entities)
             \/ exists q, q ∈ papers st /\ processing_status q = completed
                          /\ String_toLowerCase (title q) = String_toLowerCase name).
  { intros name H. apply endpointExists_sound in H as [H | (ref & Href & Heq)].
    - left. now apply Hkeys.
    - right. destruct (Hrefs ref Href) as (q & Hq & Hdone & Htitle & _).
      exists q. rewrite <- Htitle. auto. }
  simpl. intros endpoint [-> | ->]; now apply Hend.
Qed.

(** X22. [getExistingPapers] never fails and leaves the store as it is;
    it returns at most 100 papers, each the title and arXiv id of a
    completed paper of the store, and all completed papers when there are at
    most 100 of them. *)
Theorem getExistingPapers_sound (st : State) :
  exists refs,
    AgentOrchestrator.getExistingPapers st = (Return refs, st)
    /\ length refs <= 100
    /\ (forall ref, ref ∈ refs ->
                    exists q, q ∈ papers st /\ processing_status q = completed
                              /\ ref_title ref = title q
                              /\ ref_arxiv_id ref = arxiv_id q)
    /\ (length (List.filter (fun p => bool_decide (processing_status p = completed))
                            (papers st)) <= 100 ->
        forall q, q ∈ papers st -> processing_status q = completed ->
                  mkPaperRef (title q) (arxiv_id q) ∈ refs).
Proof.
  exists (completed_refs (papers st)). rewrite getExistingPapers_run.
  destruct (completed_refs_sound (papers st)) as [Hlen Hsound].
  split; [reflexivity|]. split; [exact Hlen|]. split; [exact Hsound|].
  intros Hfew q Hq Hdone. unfold completed_refs.
  apply list_elem_of_fmap. exists q. split; [reflexivity|].
  rewrite firstn_all2.
  2:{ rewrite (Permutation_length (order_by_date_desc_perm _)). exact Hfew. }
  rewrite order_by_date_desc_perm.
  apply list_elem_of_In, filter_In. split; [now apply list_elem_of_In|].
  now apply bool_decide_eq_true.
Qed.

(** * The properties on sample stores *)

Lemma normalizeName_idempotent_plain_witness :
  normalizeName (normalizeName "  Gaussian   Splatting ")
  = normalizeName "  Gaussian   Splatting ".
Proof.
  apply (normalizeName_idempotent_plain "  Gaussian   Splatting ").
  unfold plain_name. simpl. repeat (constructor; [reflexivity|]). constructor.
Defined.

Lemma upsert_keeps_nodes_witness :
  nodes_unique
    (snd (NodeRepository.upsert "technique" " technique   x!" SampleStore.md_b
                                "EntityExtractor" (9 # 10)%Q SampleStore.st_x))
  /\ node_ids_fresh
       (snd (NodeRepository.upsert "technique" " technique   x!" SampleStore.md_b
                                   "EntityExtractor" (9 # 10)%Q SampleStore.st_x)).
Proof.
  pose proof (upsert_keeps_nodes "technique" " technique   x!" SampleStore.md_b
                                 "EntityExtractor" (9 # 10)%Q SampleStore.st_x) as H.
  cbv zeta in H. destruct H as (Hu & Hf & _).
  - vm_compute. apply NoDup_singleton.
  - split; [vm_compute; apply NoDup_singleton|].
    vm_compute. repeat constructor.
  - split; assumption.
Defined.

Lemma upsertEntities_map_witness :
  exists m st',
    NodeRepository.upsertEntities Sample.entities "EntityExtractor" empty_state
    = (Return m, st')
    /\ (forall k, is_Some (m !! k) -> k ∈ map entity_key Sample.entities).
Proof.
  destruct (NodeRepository.upsertEntities Sample.entities "EntityExtractor" empty_state)
    as [[m|e] st'] eqn:Hrun; [|vm_compute in Hrun; discriminate Hrun].
  destruct (upsertEntities_map _ _ _ _ _ Hrun) as (_ & Hkeys & _).
  exists m, st'. split; [reflexivity | exact Hkeys].
Defined.

Lemma upsertEntities_rerun_witness :
  exists m st1 st2,
    NodeRepository.upsertEntities Sample.entities "EntityExtractor" empty_state
    = (Return m, st1)
    /\ NodeRepository.upsertEntities Sample.entities "Reprocess" st1 = (Return m, st2)
    /\ map node_id (nodes st2) = map node_id (nodes st1).
Proof.
  destruct (NodeRepository.upsertEntities Sample.entities "EntityExtractor" empty_state)
    as [[m|e] st1] eqn:Hrun; [|vm_compute in Hrun; discriminate Hrun].
  destruct (upsertEntities_rerun _ _ "Reprocess" _ _ _ Hrun) as (st2 & Hagain & _ & Hids).
  exists m, st1, st2. auto.
Defined.

Lemma paper_local_names_resolve_witness :
  exists m st1 id,
    NodeRepository.upsertEntities Sample.entities "EntityExtractor" empty_state
    = (Return m, st1)
    /\ EdgeRepository.resolveEntityId SampleResolution.no_match "  NERF" 7 m st1
       = (Return (Some id), st1).
Proof.
  destruct (NodeRepository.upsertEntities Sample.entities "EntityExtractor" empty_state)
    as [[m|e] st1] eqn:Hrun; [|vm_compute in Hrun; discriminate Hrun].
  destruct (paper_local_names_resolve
              _ _ _ _ _ SampleResolution.no_match
              (EntityExtractorAgent.normalizeEntity
                 (mkParsedEntity "NeRF" "method" None (Some 0%Q) None None))
              "  NERF" 7 st1 Hrun)
    as (id & n & Hres & _).
  - apply list_elem_of_here.
  - reflexivity.
  - exists m, st1, id. auto.
Defined.

Lemma upsertEntities_stops_at_unknown_kind_witness :
  exists m st1 err,
    NodeRepository.upsertEntities
      [SampleEntities.technique_x (6 # 10)%Q "first"] "EntityExtractor" empty_state
    = (Return m, st1)
    /\ NodeRepository.upsertEntities
         ([SampleEntities.technique_x (6 # 10)%Q "first"]
            ++ mkEntity "Kerbl" "person" None 1%Q None ∅
            :: [mkEntity "PSNR" "metric" None (8 # 10)%Q None ∅])
         "EntityExtractor" empty_state
       = (Throw err, st1).
Proof.
  apply (upsertEntities_stops_at_unknown_kind
           [SampleEntities.technique_x (6 # 10)%Q "first"]
           [mkEntity "PSNR" "metric" None (8 # 10)%Q None ∅]
           (mkEntity "Kerbl" "person" None 1%Q None ∅)
           "EntityExtractor" empty_state).
  - constructor; [|constructor]. exists technique. reflexivity.
  - reflexivity.
Defined.

Lemma create_keeps_edges_witness :
  edges_unique
    (snd (EdgeRepository.create "improves_on" 0 1 None (Some "e1") (1 # 2)%Q
                                "RelationshipExtractor" ∅ SampleEdges.st_nodes))
  /\ edges_reference_nodes
       (snd (EdgeRepository.create "improves_on" 0 1 None (Some "e1") (1 # 2)%Q
                                   "RelationshipExtractor" ∅ SampleEdges.st_nodes)).
Proof.
  pose proof (create_keeps_edges "improves_on" 0 1 None (Some "e1") (1 # 2)%Q
                                 "RelationshipExtractor" ∅ SampleEdges.st_nodes) as H.
  cbv zeta in H. destruct H as (Hu & Hfk & _).
  - apply NoDup_nil_2.
  - intros e He. vm_compute in He. now apply elem_of_nil in He.
  - split; assumption.
Defined.

Lemma edge_direction_matters_witness :
  exists id1 id2 st1 st2,
    EdgeRepository.create "improves_on" 0 1 None (Some "e1") (1 # 2)%Q
                          "RelationshipExtractor" ∅ SampleEdges.st_nodes
    = (Return id1, st1)
    /\ EdgeRepository.create "improves_on" 1 0 None None (1 # 2)%Q
                             "RelationshipExtractor" ∅ st1
       = (Return id2, st2)
    /\ id1 <> id2
    /\ length (edges st2) = 2 + length (edges SampleEdges.st_nodes).
Proof.
  destruct (edge_direction_matters
              "improves_on" improves_on 0 1 None (Some "e1") None None
              (1 # 2)%Q (1 # 2)%Q "RelationshipExtractor" ∅ ∅ SampleEdges.st_nodes)
    as [H _]; [reflexivity | discriminate | reflexivity | reflexivity
               | reflexivity | reflexivity |].
  exact H.
Defined.

Lemma createRelationships_rerun_witness :
  exists n st1 st2,
    EdgeRepository.createRelationships
      SampleResolution.no_match
      [SampleResolution.x_to_zeta; SampleResolution.x_to_y] 7
      SampleResolution.entityMap "RelationshipExtractor" SampleEdges.st_nodes
    = (Return n, st1)
    /\ EdgeRepository.createRelationships
         SampleResolution.no_match
         [SampleResolution.x_to_zeta; SampleResolution.x_to_y] 7
         SampleResolution.entityMap "Reprocess" st1
       = (Return n, st2)
    /\ map edge_key (edges st2) = map edge_key (edges st1).
Proof.
  destruct (EdgeRepository.createRelationships
              SampleResolution.no_match
              [SampleResolution.x_to_zeta; SampleResolution.x_to_y] 7
              SampleResolution.entityMap "RelationshipExtractor" SampleEdges.st_nodes)
    as [[n|e] st1] eqn:Hrun; [|vm_compute in Hrun; discriminate Hrun].
  assert (Hfk : edges_reference_nodes SampleEdges.st_nodes).
  { intros e He. vm_compute in He. now apply elem_of_nil in He. }
  destruct (createRelationships_rerun _ _ _ _ _ "Reprocess" _ _ _ Hfk Hrun)
    as (st2 & Hagain & Hkeys & _).
  exists n, st1, st2. auto.
Defined.

Lemma paper_create_known_arxiv_witness :
  exists row st',
    PaperRepository.create SampleArxiv.second_version SampleArxiv.st_first
    = (Return row, st')
    /\ map paper_id (papers st') = map paper_id (papers SampleArxiv.st_first)
    /\ title row = "3D Gaussian Splatting for Real-Time Rendering"
    /\ full_text row = Some "body".
Proof.
  edestruct (paper_create_known_arxiv
               SampleArxiv.second_version "2308.04079" SampleArxiv.st_first)
    as (row & st' & Hrun & _ & Hids & _ & Htitle & _ & Htext & _);
    [reflexivity | reflexivity |].
  exists row, st'. split; [exact Hrun|]. split; [exact Hids|].
  split; [exact Htitle | exact Htext].
Defined.

Lemma ingestPaper_twice_without_arxiv_witness :
  exists err st2,
    IngestionPipeline.ingestPaper
      Sample.entityCapability SampleIngestion.relationshipCapability
      SampleResolution.no_match (SampleIngestion.paperData "P1")
      (snd (IngestionPipeline.ingestPaper
              Sample.entityCapability SampleIngestion.relationshipCapability
              SampleResolution.no_match (SampleIngestion.paperData "P1") empty_state))
    = (Throw err, st2).
Proof.
  epose proof (ingestPaper_twice_without_arxiv
                 Sample.entityCapability SampleIngestion.relationshipCapability
                 SampleResolution.no_match (SampleIngestion.paperData "P1")
                 empty_state _ _ eq_refl eq_refl) as H.
  cbv zeta in H. destruct H as (err & st2 & Hrun & _).
  exists err, st2. exact Hrun.
Defined.

Lemma processPaper_analysis_witness :
  exists analysis st',
    AgentOrchestrator.processPaper Sample.entityCapability Sample.relationshipCapability
                                   Sample.paper0 "body" SamplePipeline.st_paper
    = (Return analysis, st')
    /\ NoDup (map entity_key (analysis_entities analysis))
    /\ Forall (fun e => in_unit_interval (ent_confidence e)) (analysis_entities analysis)
    /\ nodes st' = nodes SamplePipeline.st_paper.
Proof.
  destruct (AgentOrchestrator.processPaper
              Sample.entityCapability Sample.relationshipCapability
              Sample.paper0 "body" SamplePipeline.st_paper)
    as [[analysis|e] st'] eqn:Hrun; [|vm_compute in Hrun; discriminate Hrun].
  destruct (processPaper_analysis _ _ _ _ _ _ _ Hrun) as (_ & Hnd & Hconf & _ & Hn & _).
  exists analysis, st'. auto.
Defined.

Lemma processPaper_endpoints_witness :
  exists analysis st',
    AgentOrchestrator.processPaper Sample.entityCapability Sample.relationshipCapability
                                   Sample.paper0 "body" SamplePipeline.st_paper
    = (Return analysis, st')
    /\ Forall (fun r =>
                 forall endpoint, endpoint = rel_source r \/ endpoint = rel_target r ->
                   normalizeName endpoint ∈ map entity_key (analysis_entities analysis)
                   \/ exists q, q ∈ papers SamplePipeline.st_paper
                                /\ processing_status q = completed
                                /\ String_toLowerCase (title q)
                                   = String_toLowerCase endpoint)
              (analysis_relationships analysis).
Proof.
  destruct (AgentOrchestrator.processPaper
              Sample.entityCapability Sample.relationshipCapability
              Sample.paper0 "body" SamplePipeline.st_paper)
    as [[analysis|e] st'] eqn:Hrun; [|vm_compute in Hrun; discriminate Hrun].
  exists analysis, st'. split; [reflexivity|].
  exact (processPaper_endpoints _ _ _ _ _ _ _ Hrun).
Defined.

Lemma processPapers_collects_witness :
  exists results st',
    OrchestratorBatches.processPapers
      Sample.entityCapability Sample.relationshipCapability 3
      [(Sample.paper0, "body"); (Sample.paper0, "body")] 1 SamplePipeline.st_paper
    = (Return (Some results), st')
    /\ nodes st' = nodes SamplePipeline.st_paper.
Proof.
  destruct (processPapers_collects
              Sample.entityCapability Sample.relationshipCapability
              [(Sample.paper0, "body"); (Sample.paper0, "body")] 1 3
              SamplePipeline.st_paper)
    as (st' & Hrun & Hn & _); [lia | simpl; lia |].
  eexists _, st'. split; [exact Hrun | exact Hn].
Defined.

Lemma ingestPaper_stores_entities_witness :
  exists p analysis st',
    IngestionPipeline.ingestPaper
      Sample.entityCapability SampleIngestion.relationshipCapability
      SampleResolution.no_match (SampleIngestion.paperData "P1") empty_state
    = (Return (p, analysis), st')
    /\ is_Some (id_of_key st' paper "p1")
    /\ Forall (fun e => exists ty, node_type_of_string (ent_type e) = Some ty
                                   /\ is_Some (id_of_key st' ty (entity_key e)))
              (analysis_entities analysis).
Proof.
  destruct (IngestionPipeline.ingestPaper
              Sample.entityCapability SampleIngestion.relationshipCapability
              SampleResolution.no_match (SampleIngestion.paperData "P1") empty_state)
    as [[[p analysis]|e] st'] eqn:Hrun; [|vm_compute in Hrun; discriminate Hrun].
  destruct (ingestPaper_stores_entities _ _ _ _ _ _ _ _ Hrun) as (Hp & Hall & _).
  exists p, analysis, st'. split; [reflexivity|]. split; [exact Hp | exact Hall].
Defined.

Lemma upsert_then_find_witness :
  exists id st' n,
    NodeRepository.upsert "technique" "TECHNIQUE X" SampleStore.md_b
                          "EntityExtractor" (9 # 10)%Q SampleStore.st_x
    = (Return id, st')
    /\ NodeRepository.findById id st' = (Return (Some n), st')
    /\ NodeRepository.findByName technique "technique x" st' = (Return (Some n), st').
Proof.
  destruct (NodeRepository.upsert "technique" "TECHNIQUE X" SampleStore.md_b
                                  "EntityExtractor" (9 # 10)%Q SampleStore.st_x)
    as [[id|e] st'] eqn:Hrun; [|vm_compute in Hrun; discriminate Hrun].
  assert (Hfresh : node_ids_fresh SampleStore.st_x).
  { split; [vm_compute; apply NoDup_singleton|]. vm_compute. repeat constructor. }
  destruct (upsert_then_find _ _ _ _ _ _ _ _ Hfresh Hrun)
    as (ty & n & Hty & _ & _ & Hid & Hname).
  injection Hty as <-.
  exists id, st', n. split; [reflexivity|]. split; [exact Hid|].
  apply Hname. reflexivity.
Defined.

(** * Concurrent batches *)

(** ** Calls, statement by statement *)

Lemma Task_induction {A} (P : Task A -> Prop) :
  (forall o, P (Settled o)) ->
  (forall statement, (forall st, P (fst (statement st))) -> P (Await statement)) ->
  forall t, P t.
Proof.
  intros Hs Ha. fix IH 1. intros [o|statement].
  - apply Hs.
  - apply Ha. intros st. apply IH.
Qed.

Lemma run_task_atomic {A} (m : M A) st : run_task (atomic m) st = m st.
Proof. unfold atomic. simpl. now destruct (m st). Qed.

Lemma run_task_bind {A B} (t : Task A) (k : A -> Task B) :
  forall st, run_task (Task_bind t k) st
             = bind (run_task t) (fun a => run_task (k a)) st.
Proof.
  induction t as [[a|e]|statement IH] using Task_induction; intros st;
    try reflexivity.
  unfold bind. simpl. specialize (IH st). destruct (statement st) as [t' st'].
  simpl in IH. rewrite IH. reflexivity.
Qed.

Lemma run_task_catch {A} (t : Task A) (h : exn -> Task A) :
  forall st, run_task (Task_catch t h) st
             = try_catch (run_task t) (fun e => run_task (h e)) st.
Proof.
  induction t as [[a|e]|statement IH] using Task_induction; intros st;
    try reflexivity.
  unfold try_catch. simpl. specialize (IH st). destruct (statement st) as [t' st'].
  simpl in IH. rewrite IH. reflexivity.
Qed.

Lemma bind_ext {A B} (m m' : M A) (f g : A -> M B) st :
  (forall st', m st' = m' st') ->
  (forall a st', f a st' = g a st') -> bind m f st = bind m' g st.
Proof. intros Hm H. unfold bind. rewrite Hm. destruct (m' st) as [[a|e] st']; auto. Qed.

Lemma try_catch_ext {A} (m m' : M A) (h h' : exn -> M A) st :
  (forall st', m st' = m' st') -> (forall e st', h e st' = h' e st') ->
  try_catch m h st = try_catch m' h' st.
Proof.
  intros Hm Hh. unfold try_catch. rewrite Hm.
  destruct (m' st) as [[a|e] st']; auto.
Qed.

Section Alone.
Variable entityCapability : Paper -> string -> outcome (list ParsedEntity).
Variable relationshipCapability :
  Paper -> list ExtractedEntity -> string -> option (list PaperRef) ->
  outcome (list ParsedRelationship).
Variable ranked_search : list Node -> string -> option NodeType -> nat -> list Node.

Ltac alone :=
  repeat first
    [ rewrite run_task_bind | rewrite run_task_catch | rewrite run_task_atomic
    | apply bind_ext; [intros ? | intros ? ?]
    | apply try_catch_ext; [intros ? | intros ? ?] ];
  try reflexivity.

Lemma create_alone paperData st :
  run_task (Async.create paperData) st = PaperRepository.create paperData st.
Proof. unfold Async.create, PaperRepository.create. alone. Qed.

Lemma processPaper_alone p fullText st :
  run_task (Async.processPaper entityCapability relationshipCapability p fullText) st
  = AgentOrchestrator.processPaper entityCapability relationshipCapability p fullText st.
Proof. unfold Async.processPaper, AgentOrchestrator.processPaper. alone. Qed.

Lemma upsertEntities_from_alone entities extractedBy :
  forall acc st,
    run_task (Async.upsertEntities_from acc entities extractedBy) st
    = NodeRepository.upsertEntities_from acc entities extractedBy st.
Proof.
  induction entities as [|e rest IH]; intros acc st; [reflexivity|].
  cbn [Async.upsertEntities_from NodeRepository.upsertEntities_from]. alone.
  apply IH.
Qed.

Lemma resolveEntityId_alone entityName paperId m st :
  run_task (Async.resolveEntityId ranked_search entityName paperId m) st
  = EdgeRepository.resolveEntityId ranked_search entityName paperId m st.
Proof.
  unfold Async.resolveEntityId, EdgeRepository.resolveEntityId.
  destruct (m !! normalizeName entityName); [reflexivity|]. alone.
  destruct (match a with Some n => _ | None => false end); [reflexivity|]. alone.
  now destruct a0.
Qed.

Lemma createRelationship_alone rel paperId m extractedBy createdCount st :
  run_task (Async.createRelationship ranked_search rel paperId m extractedBy
                                     createdCount) st
  = EdgeRepository.createRelationship ranked_search rel paperId m extractedBy
                                      createdCount st.
Proof.
  unfold Async.createRelationship, EdgeRepository.createRelationship. alone.
  - apply resolveEntityId_alone.
  - apply resolveEntityId_alone.
  - destruct a, a0; alone.
Qed.

Lemma createRelationships_from_alone relationships paperId m extractedBy :
  forall createdCount st,
    run_task (Async.createRelationships_from ranked_search createdCount relationships
                                             paperId m extractedBy) st
    = EdgeRepository.createRelationships_from ranked_search createdCount relationships
                                              paperId m extractedBy st.
Proof.
  induction relationships as [|rel rest IH]; intros c st; [reflexivity|].
  cbn [Async.createRelationships_from EdgeRepository.createRelationships_from].
  rewrite run_task_bind. apply bind_ext; [apply createRelationship_alone|].
  intros n st1. apply IH.
Qed.

Lemma runStages_alone p fullText st :
  run_task (Async.runStages entityCapability relationshipCapability ranked_search
                            p fullText) st
  = IngestionPipeline.runStages entityCapability relationshipCapability ranked_search
                                p fullText st.
Proof.
  unfold Async.runStages, IngestionPipeline.runStages.
  rewrite run_task_bind. apply bind_ext; [apply processPaper_alone|].
  intros analysis st1.
  rewrite run_task_bind. apply bind_ext; [apply upsertEntities_from_alone|].
  intros entityMap st2.
  rewrite run_task_bind. apply bind_ext; [apply createRelationships_from_alone|].
  reflexivity.
Qed.

(** A call of [ingestPaper] that runs alone is the sequential
    [ingestPaper]. *)
Lemma ingestPaper_alone paperData st :
  run_task (Async.ingestPaper entityCapability relationshipCapability ranked_search
                              paperData) st
  = IngestionPipeline.ingestPaper entityCapability relationshipCapability ranked_search
                                  paperData st.
Proof.
  unfold Async.ingestPaper, IngestionPipeline.ingestPaper.
  rewrite run_task_bind. apply bind_ext; [apply create_alone|]. intros p st1.
  alone. apply runStages_alone.
Qed.
End Alone.

(** ** What the statements leave in place *)

Lemma grows_refl st : grows st st.
Proof.
  repeat split; auto. exists []. split; [now rewrite app_nil_r | constructor].
Qed.

Lemma grows_trans st1 st2 st3 : grows st1 st2 -> grows st2 st3 -> grows st1 st3.
Proof.
  intros (Hk & Hp & Ha & evs & Ht & Hd) (Hk' & Hp' & Ha' & evs' & Ht' & Hd').
  repeat split; auto.
  exists (evs ++ evs')%list. split; [now rewrite Ht', Ht, app_assoc|].
  now apply Forall_app.
Qed.

Lemma existsb_comp {A B} (f : B -> bool) (g : A -> B) (l : list A) :
  existsb f (map g l) = existsb (fun x => f (g x)) l.
Proof. induction l as [|x l IH]; simpl; [reflexivity | now rewrite IH]. Qed.

Lemma paper_stored_ids id st st' :
  map paper_id (papers st') = map paper_id (papers st) ->
  paper_stored id st' = paper_stored id st.
Proof.
  unfold paper_stored. intros H.
  assert (Hmap : forall ps,
             existsb (fun p => Nat.eqb (paper_id p) id) ps
             = existsb (fun i => Nat.eqb i id) (map paper_id ps)).
  { intros ps. rewrite existsb_comp. reflexivity. }
  now rewrite !Hmap, H.
Qed.

Lemma arxiv_stored_ids a st st' :
  map arxiv_id (papers st') = map arxiv_id (papers st) ->
  arxiv_stored a st' = arxiv_stored a st.
Proof.
  unfold arxiv_stored. intros H.
  assert (Hmap : forall ps,
             existsb (PaperRepository.arxiv_conflict (Some a)) ps
             = existsb (fun x => match x with Some b => String.eqb a b | None => false end)
                       (map arxiv_id ps)).
  { intros ps. rewrite existsb_comp. reflexivity. }
  now rewrite !Hmap, H.
Qed.

(** A statement that keeps the nodes, the ids and arXiv ids of the papers,
    and adds the events [evs] to the trace. *)
Lemma grows_rows st st' evs :
  (forall ty cn id, id_of_key st ty cn = Some id -> id_of_key st' ty cn = Some id) ->
  map paper_id (papers st') = map paper_id (papers st) ->
  map arxiv_id (papers st') = map arxiv_id (papers st) ->
  trace st' = (trace st ++ evs)%list ->
  Forall (fun ev => is_delay ev = false) evs ->
  grows st st'.
Proof.
  intros Hk Hids Harx Ht Hd. split; [exact Hk|].
  split; [intros id; now rewrite (paper_stored_ids id st st' Hids)|].
  split; [intros a; now rewrite (arxiv_stored_ids a st st' Harx)|].
  now exists evs.
Qed.

Lemma grows_quiet st st' :
  nodes st' = nodes st -> papers st' = papers st -> trace st' = trace st ->
  grows st st'.
Proof.
  intros Hn Hp Ht. apply (grows_rows st st' []).
  - intros ty cn id. unfold id_of_key. now rewrite Hn.
  - now rewrite Hp.
  - now rewrite Hp.
  - now rewrite Ht, app_nil_r.
  - constructor.
Qed.

Lemma upsert_grows kind name metadata extractedBy confidence st :
  grows st (snd (NodeRepository.upsert kind name metadata extractedBy confidence st)).
Proof.
  pose proof (upsert_frame kind name metadata extractedBy confidence st)
    as (Hp & Ht & _).
  apply (grows_rows _ _ []).
  - intros ty cn id. apply upsert_id_of_key_stable.
  - now rewrite Hp.
  - now rewrite Hp.
  - now rewrite Ht, app_nil_r.
  - constructor.
Qed.

Lemma edge_create_grows kind s t description evidence confidence extractedBy metadata st :
  grows st (snd (EdgeRepository.create kind s t description evidence confidence
                                       extractedBy metadata st)).
Proof.
  pose proof (create_frame kind s t description evidence confidence extractedBy
                           metadata st) as (Hp & Ht).
  apply grows_quiet; [apply create_nodes | exact Hp | exact Ht].
Qed.

Lemma logExtraction_grows paperId agentName extractionType success errorMessage st :
  grows st (snd (AgentOrchestrator.logExtraction paperId agentName extractionType
                                                 success errorMessage st)).
Proof.
  rewrite logExtraction_run. simpl.
  apply grows_quiet; [apply logged_nodes | apply logged_papers | apply logged_trace].
Qed.

Lemma entity_process_grows cap (p : Paper) text st :
  grows st (snd (EntityExtractorAgent.process cap p text st)).
Proof.
  rewrite entity_process_run. simpl.
  apply (grows_rows _ _ [EvCapability "EntityExtractor" (paper_id p)]);
    auto; repeat constructor.
Qed.

Lemma relationship_process_grows cap (p : Paper) entities text existingPapers st :
  grows st (snd (RelationshipExtractorAgent.process cap p entities text
                                                    existingPapers st)).
Proof.
  rewrite relationship_process_run. simpl.
  apply (grows_rows _ _ [EvCapability "RelationshipExtractor" (paper_id p)]);
    auto; repeat constructor.
Qed.

Lemma updateStatus_grows id status st :
  grows st (snd (PaperRepository.updateStatus id status st)).
Proof.
  apply (grows_rows _ _ [EvStatus id status]).
  - auto.
  - apply updateStatus_ids.
  - simpl. rewrite map_map. apply map_ext. intros q.
    now destruct (Nat.eqb (paper_id q) id).
  - reflexivity.
  - repeat constructor.
Qed.

Lemma existsb_snoc {A} (f : A -> bool) (l : list A) (x : A) :
  existsb f (l ++ [x]) = existsb f l || f x.
Proof. rewrite existsb_app. simpl. now rewrite orb_false_r. Qed.

Lemma insertPaper_grows paperData nodeId st :
  grows st (snd (PaperRepository.insertPaper paperData nodeId st)).
Proof.
  unfold PaperRepository.insertPaper. cbv zeta.
  destruct (List.find _ (papers st)) as [existing|].
  - apply (grows_rows _ _ [EvPaperStored
                             (paper_id (PaperRepository.retitle paperData existing))]).
    + auto.
    + simpl. now rewrite map_update_first.
    + simpl. now rewrite map_update_first.
    + reflexivity.
    + repeat constructor.
  - destruct (existsb _ (papers st)); [apply grows_refl|].
    split; [auto|]. split; [|split].
    + intros id. unfold paper_stored. simpl. rewrite existsb_snoc.
      intros ->. reflexivity.
    + intros a. unfold arxiv_stored. simpl. rewrite existsb_snoc.
      intros ->. reflexivity.
    + exists [EvPaperStored nodeId]. split; [reflexivity | repeat constructor].
Qed.

(** ** Calls whose statements all leave them in place *)

Lemma Obeys_atomic {A} (m : M A) : (forall st, grows st (snd (m st))) -> Obeys (atomic m).
Proof.
  intros H. apply Obeys_await; intros st; specialize (H st);
    destruct (m st) as [o st']; [exact H | constructor].
Qed.

Lemma Obeys_bind {A B} (t : Task A) (k : A -> Task B) :
  Obeys t -> (forall a, Obeys (k a)) -> Obeys (Task_bind t k).
Proof.
  intros Ht Hk. induction Ht as [[a|e]|statement Hg Ho IH]; simpl; auto;
    [constructor|].
  apply Obeys_await; intros st; specialize (Hg st); specialize (IH st);
    destruct (statement st) as [t' st']; assumption.
Qed.

Lemma Obeys_catch {A} (t : Task A) (h : exn -> Task A) :
  Obeys t -> (forall e, Obeys (h e)) -> Obeys (Task_catch t h).
Proof.
  intros Ht Hh. induction Ht as [[a|e]|statement Hg Ho IH]; simpl; auto;
    [constructor|].
  apply Obeys_await; intros st; specialize (Hg st); specialize (IH st);
    destruct (statement st) as [t' st']; assumption.
Qed.

Create HintDb obeys.
#[local] Hint Resolve upsert_grows edge_create_grows logExtraction_grows
  entity_process_grows relationship_process_grows updateStatus_grows
  insertPaper_grows grows_refl : obeys.
#[local] Hint Constructors Obeys : obeys.

Ltac obeys :=
  repeat first
    [ apply Obeys_bind; [|intros ?] | apply Obeys_catch; [|intros ?]
    | apply Obeys_atomic; intros ? | apply Obeys_settled ];
  auto with obeys.

Section Obedient.
Variable entityCapability : Paper -> string -> outcome (list ParsedEntity).
Variable relationshipCapability :
  Paper -> list ExtractedEntity -> string -> option (list PaperRef) ->
  outcome (list ParsedRelationship).
Variable ranked_search : list Node -> string -> option NodeType -> nat -> list Node.

Lemma create_obeys paperData : Obeys (Async.create paperData).
Proof. unfold Async.create. obeys. Qed.

Lemma processPaper_obeys p fullText :
  Obeys (Async.processPaper entityCapability relationshipCapability p fullText).
Proof. unfold Async.processPaper. obeys. Qed.

Lemma upsertEntities_from_obeys entities extractedBy :
  forall acc, Obeys (Async.upsertEntities_from acc entities extractedBy).
Proof.
  induction entities as [|e rest IH]; intros acc;
    cbn [Async.upsertEntities_from]; [constructor|].
  apply Obeys_bind; [|intros id; apply IH].
  apply Obeys_atomic. intros st. apply upsert_grows.
Qed.

Lemma resolveEntityId_obeys entityName paperId m :
  Obeys (Async.resolveEntityId ranked_search entityName paperId m).
Proof.
  unfold Async.resolveEntityId.
  destruct (m !! normalizeName entityName); [constructor|]. obeys.
  destruct (match a with Some n => _ | None => false end); obeys.
  destruct a0; constructor.
Qed.

Lemma createRelationship_obeys rel paperId m extractedBy createdCount :
  Obeys (Async.createRelationship ranked_search rel paperId m extractedBy createdCount).
Proof.
  unfold Async.createRelationship.
  apply Obeys_catch; [|constructor].
  apply Obeys_bind; [apply resolveEntityId_obeys|]. intros s.
  apply Obeys_bind; [apply resolveEntityId_obeys|]. intros t.
  destruct s, t; obeys.
Qed.

Lemma createRelationships_from_obeys relationships paperId m extractedBy :
  forall createdCount,
    Obeys (Async.createRelationships_from ranked_search createdCount relationships
                                          paperId m extractedBy).
Proof.
  induction relationships as [|rel rest IH]; intros c;
    cbn [Async.createRelationships_from]; [constructor|].
  apply Obeys_bind; [apply createRelationship_obeys | auto].
Qed.

Lemma runStages_obeys p fullText :
  Obeys (Async.runStages entityCapability relationshipCapability ranked_search
                         p fullText).
Proof.
  unfold Async.runStages.
  apply Obeys_bind; [apply processPaper_obeys|]. intros analysis.
  apply Obeys_bind; [apply upsertEntities_from_obeys|]. intros entityMap.
  apply Obeys_bind; [apply createRelationships_from_obeys|]. constructor.
Qed.

Lemma ingestPaper_obeys paperData :
  Obeys (Async.ingestPaper entityCapability relationshipCapability ranked_search
                           paperData).
Proof.
  unfold Async.ingestPaper.
  apply Obeys_bind; [apply create_obeys|]. intros p.
  apply Obeys_bind; [obeys|]. intros _.
  apply Obeys_catch.
  - apply Obeys_bind; [apply runStages_obeys|]. intros analysis. obeys.
  - intros e. obeys.
Qed.
End Obedient.

(** ** What a call ensures, whatever runs beside it *)

Lemma Ensures_grows {A} (Q : outcome A -> State -> Prop) (t : Task A) st st1 :
  Ensures Q t st -> grows st st1 -> Ensures Q t st1.
Proof.
  intros [o st0 H | statement st0 H] Hg.
  - apply Ensures_settled. intros st2 Hg2. apply H. eapply grows_trans; eauto.
  - apply Ensures_await. intros st2 Hg2. apply H. eapply grows_trans; eauto.
Qed.

Lemma Ensures_bind {A B} (Q : outcome B -> State -> Prop) (t : Task A)
      (k : A -> Task B) :
  forall st,
    Ensures (fun o st1 => match o with
                          | Return a => Ensures Q (k a) st1
                          | Throw e => Q (Throw e) st1
                          end) t st ->
    Ensures Q (Task_bind t k) st.
Proof.
  induction t as [[a|e]|statement IH] using Task_induction; intros st H;
    inversion H as [o st0 Hq | statement0 st0 Hs]; subst; simpl.
  - apply Hq, grows_refl.
  - apply Ensures_settled. exact Hq.
  - apply Ensures_await. intros st1 Hg. specialize (Hs st1 Hg). specialize (IH st1).
    destruct (statement st1) as [t' st']. simpl in *. now apply IH.
Qed.

Lemma Ensures_catch {A} (Q : outcome A -> State -> Prop) (t : Task A)
      (h : exn -> Task A) :
  forall st,
    Ensures (fun o st1 => match o with
                          | Return a => Q (Return a) st1
                          | Throw e => Ensures Q (h e) st1
                          end) t st ->
    Ensures Q (Task_catch t h) st.
Proof.
  induction t as [[a|e]|statement IH] using Task_induction; intros st H;
    inversion H as [o st0 Hq | statement0 st0 Hs]; subst; simpl.
  - apply Ensures_settled. exact Hq.
  - apply Hq, grows_refl.
  - apply Ensures_await. intros st1 Hg. specialize (Hs st1 Hg). specialize (IH st1).
    destruct (statement st1) as [t' st']. simpl in *. now apply IH.
Qed.

Lemma Ensures_atomic {A} (Q : outcome A -> State -> Prop) (m : M A) st :
  (forall st1, grows st st1 ->
               forall st2, grows (snd (m st1)) st2 -> Q (fst (m st1)) st2) ->
  Ensures Q (atomic m) st.
Proof.
  intros H. apply Ensures_await. intros st1 Hg. specialize (H st1 Hg).
  destruct (m st1) as [o st']. simpl in *. apply Ensures_settled. exact H.
Qed.

(** A call of which nothing is known but that its statements obey. *)
Lemma Ensures_obeys {A} (Q : outcome A -> State -> Prop) (t : Task A) :
  Obeys t ->
  forall st, (forall o st1, grows st st1 -> Q o st1) -> Ensures Q t st.
Proof.
  induction 1 as [o|statement Hg Ho IH]; intros st H.
  - apply Ensures_settled. intros st1. apply H.
  - apply Ensures_await. intros st1 Hg1. apply IH.
    intros o st2 Hg2. apply H.
    eapply grows_trans; [exact Hg1|]. eapply grows_trans; [apply Hg | exact Hg2].
Qed.

Lemma recorded_grows paperData st st1 :
  recorded paperData st -> grows st st1 -> recorded paperData st1.
Proof.
  intros (nodeId & Hkey & Hrow) (Hk & Hp & Ha & _).
  exists nodeId. split; [auto|].
  destruct Hrow as [Hrow | (a & Harx & Hrow)]; [left | right]; eauto.
Qed.

Lemma emitted_since_grows st0 ev st st1 :
  emitted_since st0 ev st -> grows st st1 -> emitted_since st0 ev st1.
Proof.
  intros (before & after & Ht) (_ & _ & _ & evs & Ht1 & _).
  exists before, (after ++ evs)%list. rewrite Ht1, Ht.
  now rewrite <- !app_assoc.
Qed.

Lemma emitted_since_now st0 ev st st' :
  grows st0 st -> trace st' = (trace st ++ [ev])%list -> emitted_since st0 ev st'.
Proof.
  intros (_ & _ & _ & evs & Ht & _) Ht'.
  exists evs, []. now rewrite Ht', Ht, <- app_assoc.
Qed.

Section Ingestion.
Variable entityCapability : Paper -> string -> outcome (list ParsedEntity).
Variable relationshipCapability :
  Paper -> list ExtractedEntity -> string -> option (list PaperRef) ->
  outcome (list ParsedRelationship).
Variable ranked_search : list Node -> string -> option NodeType -> nat -> list Node.
Variable st0 : State.
Variable paperData : PaperData.

Let Q := processed st0 paperData.

(** The call once the row of the paper is there. *)
Lemma ingestPaper_tail_ensures (row : Paper) :
  forall st,
    grows st0 st -> recorded paperData st -> paper_stored (paper_id row) st = true ->
    Ensures Q
      (run!! atomic (PaperRepository.updateStatus (paper_id row) processing) in
       Task_catch
         (let!! analysis :=
            Async.runStages entityCapability relationshipCapability ranked_search
                            row (pd_full_text paperData) in
          run!! atomic (PaperRepository.updateStatus (paper_id row) completed) in
          Settled (Return (row, analysis)))
         (fun error =>
            run!! atomic (PaperRepository.updateStatus (paper_id row) failed) in
            Settled (Throw error)))
      st.
Proof.
  intros st Hg0 Hrec Hstored.
  assert (Hfacts : forall st1,
             grows st st1 ->
             grows st0 st1 /\ recorded paperData st1
             /\ paper_stored (paper_id row) st1 = true).
  { intros st1 Hg. split; [eapply grows_trans; eauto|].
    split; [eapply recorded_grows; eauto|]. now apply Hg. }
  clear Hg0 Hrec Hstored.
  apply Ensures_bind, Ensures_atomic. intros st1 Hg1 st2 Hg2.
  assert (Hg : grows st st2).
  { eapply grows_trans; [exact Hg1|]. eapply grows_trans; [|exact Hg2].
    apply updateStatus_grows. }
  cbn [fst PaperRepository.updateStatus].
  apply Ensures_catch, Ensures_bind, Ensures_obeys; [apply runStages_obeys|].
  intros [analysis|e] st3 Hg3.
  - apply Ensures_bind, Ensures_atomic. intros st4 Hg4 st5 Hg5.
    cbn [fst PaperRepository.updateStatus].
    apply Ensures_settled. intros st6 Hg6.
    assert (Hg04 : grows st st4).
    { eapply grows_trans; [exact Hg|]. eapply grows_trans; eauto. }
    assert (Hg46 : grows (snd (PaperRepository.updateStatus (paper_id row) completed st4))
                         st6) by (eapply grows_trans; eauto).
    destruct (Hfacts st4 Hg04) as (H0 & Hrec & Hst).
    pose proof (updateStatus_grows (paper_id row) completed st4) as Hup.
    split; [|split].
    + eapply recorded_grows; [|exact Hg46]. eapply recorded_grows; eauto.
    + apply Hg46. now apply Hup.
    + eapply emitted_since_grows; [|exact Hg46].
      eapply emitted_since_now; [exact H0 | reflexivity].
  - apply Ensures_bind, Ensures_atomic. intros st4 Hg4 st5 Hg5.
    cbn [fst PaperRepository.updateStatus].
    apply Ensures_settled. intros st6 Hg6.
    assert (Hg04 : grows st st4).
    { eapply grows_trans; [exact Hg|]. eapply grows_trans; eauto. }
    assert (Hg46 : grows (snd (PaperRepository.updateStatus (paper_id row) failed st4))
                         st6) by (eapply grows_trans; eauto).
    destruct (Hfacts st4 Hg04) as (H0 & Hrec & Hst).
    pose proof (updateStatus_grows (paper_id row) failed st4) as Hup.
    split.
    + eapply recorded_grows; [|exact Hg46]. eapply recorded_grows; eauto.
    + left. exists (paper_id row).
      eapply emitted_since_grows; [|exact Hg46].
      eapply emitted_since_now; [exact H0 | reflexivity].
Qed.

Lemma find_arxiv_conflict arx (ps : list Paper) existing :
  List.find (PaperRepository.arxiv_conflict arx) ps = Some existing ->
  exists a, arx = Some a
            /\ existsb (PaperRepository.arxiv_conflict (Some a)) ps = true
            /\ existsb (fun p => Nat.eqb (paper_id p) (paper_id existing)) ps = true.
Proof.
  intros Hf. apply List.find_some in Hf as [Hin Hc].
  destruct arx as [a|]; [|discriminate Hc].
  exists a. split; [reflexivity|]. split; apply existsb_exists.
  - exists existing. auto.
  - exists existing. split; [exact Hin | apply Nat.eqb_refl].
Qed.

(** Whatever runs beside it, a call of [ingestPaper] processes its paper
    to the end. *)
Lemma ingestPaper_ensures :
  Ensures Q (Async.ingestPaper entityCapability relationshipCapability ranked_search
                               paperData) st0.
Proof.
  unfold Async.ingestPaper, Async.create.
  apply Ensures_bind, Ensures_bind, Ensures_atomic. intros st1 Hg1 st2 Hg2.
  destruct (paper_upsert_returns paperData st1)
    as (nodeId & st1' & Hup & _ & _ & _ & Hkey).
  rewrite Hup in *. cbn [fst snd] in *.
  assert (Hkey2 : forall st, grows st2 st ->
                             id_of_key st paper (normalizeName (pd_title paperData))
                             = Some nodeId).
  { intros st Hg. apply Hg. apply Hg2. exact Hkey. }
  assert (Hg02 : grows st0 st2).
  { eapply grows_trans; [exact Hg1|]. eapply grows_trans; [|exact Hg2].
    pose proof (upsert_grows "paper" (pd_title paperData)
                  (PaperRepository.paper_node_metadata paperData) "system" 1%Q st1) as H.
    now rewrite Hup in H. }
  apply Ensures_atomic. intros st3 Hg3 st4 Hg4.
  pose proof (insertPaper_grows paperData nodeId st3) as Hins.
  assert (Hg04 : grows st0 st4).
  { eapply grows_trans; [exact Hg02|]. eapply grows_trans; [exact Hg3|].
    eapply grows_trans; eauto. }
  assert (Hkey4 : id_of_key st4 paper (normalizeName (pd_title paperData)) = Some nodeId).
  { apply Hkey2. eapply grows_trans; [exact Hg3|]. eapply grows_trans; eauto. }
  revert Hg4 Hins. unfold PaperRepository.insertPaper. cbv zeta.
  destruct (List.find _ (papers st3)) as [existing|] eqn:Hf.
  - cbn [fst snd]. intros Hg4 Hins.
    destruct (find_arxiv_conflict _ _ _ Hf) as (a & Harx & Ha & Hid).
    apply ingestPaper_tail_ensures; [exact Hg04| |].
    + exists nodeId. split; [exact Hkey4|]. right. exists a. split; [exact Harx|].
      apply Hg4, Hins. exact Ha.
    + apply Hg4, Hins. exact Hid.
  - destruct (existsb _ (papers st3)) eqn:Hpk; cbn [fst snd]; intros Hg4 Hins.
    + assert (Hrow : paper_stored nodeId st4 = true) by (apply Hg4; exact Hpk).
      split; [|right]; exists nodeId; auto.
    + assert (Hrow : paper_stored nodeId st4 = true).
      { apply Hg4. unfold paper_stored. simpl. rewrite existsb_snoc. simpl.
        rewrite Nat.eqb_refl. apply orb_true_r. }
      apply ingestPaper_tail_ensures; [exact Hg04 | | exact Hrow].
      exists nodeId. auto.
Qed.
End Ingestion.

(** ** Pools of calls *)

Lemma outcomes_settled {A} (pool : list (Task A)) results :
  outcomes pool = Some results -> pool = map Settled results.
Proof.
  revert results. induction pool as [|[o|statement] rest IH]; intros results; simpl.
  - now intros [= <-].
  - destruct (outcomes rest) as [os|]; [|discriminate].
    intros [= <-]. simpl. now rewrite (IH os).
  - discriminate.
Qed.

Lemma first_pending_lookup {A} (pool : list (Task A)) :
  outcomes pool = None ->
  exists statement, pool !! first_pending pool = Some (Await statement).
Proof.
  induction pool as [|[o|statement] rest IH]; simpl; [discriminate| |eauto].
  destruct (outcomes rest); [discriminate|]. auto.
Qed.

(** A pool that is not settled runs the statement of one of its pending
    calls. *)
Lemma step_pool_pending {A} (index : nat) (pool : list (Task A)) st :
  outcomes pool = None ->
  exists i statement,
    pool !! i = Some (Await statement)
    /\ step_pool index pool st
       = (<[i := fst (statement st)]> pool, snd (statement st)).
Proof.
  intros Hnone. unfold step_pool, advance.
  destruct (pool !! index) as [[o|statement]|] eqn:Hl.
  2:{ exists index, statement. split; [exact Hl|]. now destruct (statement st). }
  all: destruct (first_pending_lookup pool Hnone) as (statement & Hfirst);
    rewrite Hfirst; exists (first_pending pool), statement;
    (split; [exact Hfirst|]); now destruct (statement st).
Qed.

Lemma pool_finite_cons {A} (t : Task A) :
  forall rest, Acc pool_next rest -> Acc pool_next (t :: rest).
Proof.
  induction t as [o|statement IHt] using Task_induction; intros rest Hacc.
  - induction Hacc as [rest _ IHr]. constructor.
    intros pool' (i & s & st & Hl & ->). destruct i as [|i]; [discriminate Hl|].
    apply IHr. exists i, s, st. auto.
  - induction Hacc as [rest Hrest IHr]. constructor.
    intros pool' (i & s & st & Hl & ->). destruct i as [|i].
    + injection Hl as <-. apply IHt. constructor. exact Hrest.
    + apply IHr. exists i, s, st. auto.
Qed.

(** Every pool is settled after finitely many statements, whichever
    pending call runs next. *)
Lemma pool_finite {A} (pool : list (Task A)) : Acc pool_next pool.
Proof.
  induction pool as [|t rest IH]; [|now apply pool_finite_cons].
  constructor. intros pool' (i & s & st & Hl & _). discriminate Hl.
Qed.

Lemma run_pool_settled {A} fuel schedule k (pool : list (Task A)) st results :
  outcomes pool = Some results ->
  run_pool fuel schedule k pool st = (Some results, st).
Proof. intros H. destruct fuel; simpl; now rewrite H. Qed.

Lemma run_pool_terminates {A} (schedule : nat -> nat) (pool : list (Task A)) :
  forall k st, exists fuel0 results st',
      forall fuel, fuel0 <= fuel ->
                   run_pool fuel schedule k pool st = (Some results, st').
Proof.
  induction (pool_finite pool) as [pool _ IH]. intros k st.
  destruct (outcomes pool) as [results|] eqn:Hout.
  - exists 0, results, st. intros fuel _. now apply run_pool_settled.
  - destruct (step_pool_pending (schedule k) pool st Hout)
      as (i & statement & Hl & Hstep).
    destruct (IH (<[i := fst (statement st)]> pool)
                 ltac:(exists i, statement, st; auto) (S k) (snd (statement st)))
      as (fuel1 & results & st' & Hrun).
    exists (S fuel1), results, st'. intros fuel Hfuel.
    destruct fuel as [|fuel]; [lia|]. simpl. rewrite Hout, Hstep.
    apply Hrun. lia.
Qed.

(** What the calls of a pool ensure, each for itself, holds when the pool
    is settled. *)
Lemma run_pool_ensures {A X} (Q : X -> outcome A -> State -> Prop)
      (schedule : nat -> nat) (xs : list X) :
  forall fuel k (pool : list (Task A)) st results st',
    Forall Obeys pool ->
    Forall2 (fun x t => Ensures (Q x) t st) xs pool ->
    run_pool fuel schedule k pool st = (Some results, st') ->
    grows st st' /\ Forall2 (fun x o => Q x o st') xs results.
Proof.
  induction fuel as [|fuel IH]; intros k pool st results st' Hobeys Hens;
    simpl; destruct (outcomes pool) as [os|] eqn:Hout; try discriminate.
  1,2: intros [= <- <-]; split; [apply grows_refl|];
    apply outcomes_settled in Hout; subst pool;
    apply Forall2_fmap_r in Hens;
    eapply Forall2_impl; [exact Hens|]; simpl; intros x o H;
    inversion H as [o0 st0 Hq|]; subst; apply Hq, grows_refl.
  destruct (step_pool_pending (schedule k) pool st Hout)
    as (i & statement & Hl & ->).
  intros Hrun.
  assert (Hi : Obeys (Await statement)).
  { rewrite Forall_forall in Hobeys. apply Hobeys.
    eapply list_elem_of_lookup_2; eauto. }
  inversion Hi as [|statement0 Hg Ho]; subst.
  destruct (Forall2_lookup_r _ _ _ _ _ Hens Hl) as (x & Hx & Hex).
  apply IH in Hrun.
  - destruct Hrun as [Hgrow Hq]. split; [|exact Hq].
    eapply grows_trans; [apply Hg | exact Hgrow].
  - apply Forall_insert; [exact Hobeys | apply Ho].
  - rewrite <- (list_insert_id xs i x Hx).
    apply Forall2_insert.
    + eapply Forall2_impl; [exact Hens|]. simpl. intros y t H.
      eapply Ensures_grows; [exact H | apply Hg].
    + inversion Hex as [|statement0 st0 Hs]; subst. apply Hs, grows_refl.
Qed.

(** ** Batch ingestion *)

Lemma Chunked_run_length cs st results st' :
  Chunked_run cs st results st' -> length results = length (concat cs).
Proof.
  induction 1 as [st|c rest st results st1 later st' Hg Hall _ IH]; [reflexivity|].
  cbn [concat]. rewrite !length_app, IH. f_equal.
  symmetry. eapply Forall2_length; eauto.
Qed.

Lemma grows_delays st st1 :
  grows st st1 ->
  List.filter is_delay (trace st1) = List.filter is_delay (trace st).
Proof.
  intros (_ & _ & _ & evs & -> & Hd). rewrite List.filter_app.
  replace (List.filter is_delay evs) with (@nil Event); [apply app_nil_r|].
  symmetry. induction Hd as [|ev evs Hev _ IH]; [reflexivity|].
  simpl. now rewrite Hev.
Qed.

(** A chunked run adds one timer event of 2000 ms between two chunks, and
    no other. *)
Lemma Chunked_run_delays cs st results st' :
  Chunked_run cs st results st' ->
  List.filter is_delay (trace st')
  = (List.filter is_delay (trace st) ++ repeat (EvDelay 2000) (length cs - 1))%list.
Proof.
  induction 1 as [st|c rest st results st1 later st' Hg Hall Hrest IH].
  - simpl. now rewrite app_nil_r.
  - rewrite IH. destruct rest as [|c' rest].
    + simpl. now rewrite (grows_delays _ _ Hg).
    + cbn [trace emit]. rewrite List.filter_app, (grows_delays _ _ Hg).
      cbn [List.filter is_delay length]. rewrite <- app_assoc.
      replace (S (S (length rest)) - 1) with (S (S (length rest) - 1)) by lia.
      reflexivity.
Qed.

Section Batch.
Variable entityCapability : Paper -> string -> outcome (list ParsedEntity).
Variable relationshipCapability :
  Paper -> list ExtractedEntity -> string -> option (list PaperRef) ->
  outcome (list ParsedRelationship).
Variable ranked_search : list Node -> string -> option NodeType -> nat -> list Node.
Variable schedule : Z -> nat -> nat.
Variable papers : list PaperData.
Variable batchSize : Z.
Hypothesis batchSize_pos : (1 <= batchSize)%Z.

Let n := Z.to_nat batchSize.
Let ingest := Async.ingestPaper entityCapability relationshipCapability ranked_search.

(** The calls of a batch all settle, under every schedule, and each has
    processed its paper by then. *)
Lemma allSettled_batch (batch : list PaperData) (order : nat -> nat) st :
  exists fuel0 results st1,
    (forall fuel, fuel0 <= fuel ->
                  allSettled order fuel (map ingest batch) st
                  = (Return (Some results), st1))
    /\ grows st st1
    /\ Forall2 (fun paperData o => processed st paperData o st1) batch results.
Proof.
  destruct (run_pool_terminates order (map ingest batch) 0 st)
    as (fuel0 & results & st1 & Hrun).
  exists fuel0, results, st1. split.
  { intros fuel Hfuel. unfold allSettled. now rewrite (Hrun fuel Hfuel). }
  apply (run_pool_ensures (processed st) order batch fuel0 0 (map ingest batch));
    [| |apply Hrun; lia].
  - apply Forall_fmap, Forall_forall. intros paperData _. apply ingestPaper_obeys.
  - apply Forall2_fmap_r, Forall_Forall2_diag, Forall_forall.
    intros paperData _. apply ingestPaper_ensures.
Qed.

Lemma ingestPapers_from_run :
  forall m (i : Z) successCount failCount st,
    (0 <= i)%Z ->
    length (skipn (Z.to_nat i) papers) <= m ->
    exists fuel0 results st',
      (forall fuel, fuel0 <= fuel ->
         IngestionPipeline.ingestPapers_from
           entityCapability relationshipCapability ranked_search schedule
           fuel i successCount failCount papers batchSize st
         = (Return (Some (mkSummary
                            (successCount + length (List.filter fulfilled results))
                            (failCount + length (List.filter rejected results)))),
            st'))
      /\ Chunked_run (chunks n (skipn (Z.to_nat i) papers)) st results st'.
Proof.
  assert (Hn : 1 <= n) by (subst n; lia).
  assert (Hdone : forall (i : Z) s f st,
             (Z.of_nat (length papers) <= i)%Z ->
             exists fuel0 results st',
               (forall fuel, fuel0 <= fuel ->
                  IngestionPipeline.ingestPapers_from
                    entityCapability relationshipCapability ranked_search schedule
                    fuel i s f papers batchSize st
                  = (Return (Some (mkSummary
                                     (s + length (List.filter fulfilled results))
                                     (f + length (List.filter rejected results)))),
                     st'))
               /\ Chunked_run (chunks n (skipn (Z.to_nat i) papers)) st results st').
  { intros i s f st Hi. exists 1, [], st. split.
    - intros fuel Hfuel. destruct fuel as [|fuel]; [lia|].
      cbn [IngestionPipeline.ingestPapers_from].
      replace (i <? Z.of_nat (length papers))%Z with false
        by (symmetry; apply Z.ltb_ge; lia).
      simpl. now rewrite !Nat.add_0_r.
    - rewrite skipn_all2 by lia. constructor. }
  induction m as [|m IH]; intros i s f st Hi Hm.
  { apply Hdone. rewrite length_skipn in Hm. lia. }
  destruct (Z.le_gt_cases (Z.of_nat (length papers)) i) as [Hge | Hlt];
    [now apply Hdone|].
  destruct (skipn (Z.to_nat i) papers) as [|x l] eqn:Htodo.
  { apply (f_equal (@length _)) in Htodo. rewrite length_skipn in Htodo.
    simpl in Htodo. lia. }
  assert (Hslice : slice papers i (i + batchSize) = firstn n (x :: l)).
  { rewrite slice_window by lia. now rewrite Htodo. }
  assert (Hnext : skipn (Z.to_nat (i + batchSize)) papers = skipn n (x :: l)).
  { rewrite <- Htodo, skipn_skipn. f_equal. subst n. lia. }
  destruct (allSettled_batch (firstn n (x :: l)) (schedule i) st)
    as (fuel_a & results1 & st1 & Hrun1 & Hg1 & Hall1).
  set (st2 := match chunks n (skipn n (x :: l)) with
              | [] => st1
              | _ :: _ => emit (EvDelay 2000) st1
              end).
  assert (Hwait :
            (if (i + batchSize <? Z.of_nat (length papers))%Z
             then delay 2000 else ret tt) st1 = (Return tt, st2)).
  { subst st2. destruct (i + batchSize <? Z.of_nat (length papers))%Z eqn:Hmore.
    - apply Z.ltb_lt in Hmore.
      destruct (chunks n (skipn n (x :: l))) eqn:Hc; [|reflexivity].
      apply (proj1 (chunks_empty_iff n Hn _)) in Hc. rewrite <- Hnext in Hc.
      apply (f_equal (@length _)) in Hc. rewrite length_skipn in Hc.
      simpl in Hc. lia.
    - apply Z.ltb_ge in Hmore.
      assert (Hnil : skipn n (x :: l) = []).
      { rewrite <- Hnext. apply skipn_all2. lia. }
      rewrite Hnil. reflexivity. }
  destruct (IH (i + batchSize)%Z
               (s + length (List.filter fulfilled results1))
               (f + length (List.filter rejected results1)) st2)
    as (fuel_b & results2 & st' & Hrun2 & Hchunks2); [lia| |].
  { rewrite Hnext, length_skipn.
    assert (length (x :: l) <= S m) by exact Hm. lia. }
  exists (S (Nat.max fuel_a fuel_b)), (results1 ++ results2)%list, st'. split.
  - intros fuel Hfuel. destruct fuel as [|fuel]; [lia|].
    cbn [IngestionPipeline.ingestPapers_from].
    replace (i <? Z.of_nat (length papers))%Z with true
      by (symmetry; apply Z.ltb_lt; lia).
    rewrite Hslice. fold ingest. unfold bind at 1.
    rewrite Hrun1 by lia. unfold bind at 1. rewrite Hwait.
    rewrite Hrun2 by lia.
    rewrite !List.filter_app, !length_app, !Nat.add_assoc. reflexivity.
  - rewrite (chunks_cons n Hn). rewrite Hnext in Hchunks2.
    now apply (Chunked_chunk _ _ st results1 st1 results2 st').
Qed.
End Batch.



(** The scenario of the specification: five papers in one chunk of five,
    the relationship stage of the third throws; whether the server takes
    the statements of the five calls in turn or serves one call after the
    other, four papers end completed, the third failed, and the summary
    counts 4 and 1. *)
Example five_papers_one_failure :
  forall schedule,
    schedule = SampleConcurrency.round_robin 5
    \/ schedule = SampleConcurrency.one_by_one ->
    let run := IngestionPipeline.ingestPapers
                 Sample.entityCapability SampleIngestion.relationshipCapability
                 SampleResolution.no_match schedule 200 SampleIngestion.five 5
                 empty_state in
    fst run = Return (Some (mkSummary 4 1))
    /\ map (fun p => (title p, processing_status p)) (papers (snd run))
       = [("P1", completed); ("P2", completed); ("P3", failed);
          ("P4", completed); ("P5", completed)].
Proof. intros schedule [-> | ->]; vm_compute; split; reflexivity. Qed.

(** The same papers in chunks of two: three chunks, two delays. *)
Example five_papers_in_pairs :
  let run := IngestionPipeline.ingestPapers
               Sample.entityCapability SampleIngestion.relationshipCapability
               SampleResolution.no_match (SampleConcurrency.round_robin 2)
               200 SampleIngestion.five 2 empty_state in
  map length (chunks 2 SampleIngestion.five) = [2; 2; 1]
  /\ List.filter is_delay (trace (snd run)) = [EvDelay 2000; EvDelay 2000].
Proof. vm_compute. split; reflexivity. Qed.

(** What is stored depends on the order of the statements.  The second of
    two papers names the first in a relationship: when the first call is
    served to its end before the second starts, the first paper is known as
    completed and the edge is stored; when the statements alternate, the
    relationship agent is not offered the first paper and no edge is
    stored. *)
Example stored_edges_depend_on_schedule :
  let run schedule :=
    IngestionPipeline.ingestPapers
      Sample.entityCapability SampleConcurrency.cites_first
      SampleConcurrency.exact_match schedule 200 SampleConcurrency.two 2 empty_state in
  fst (run SampleConcurrency.one_by_one) = Return (Some (mkSummary 2 0))
  /\ fst (run (SampleConcurrency.round_robin 2)) = Return (Some (mkSummary 2 0))
  /\ map edge_key (edges (snd (run SampleConcurrency.one_by_one)))
     = [(builds_upon, 1, 0)]
  /\ edges (snd (run (SampleConcurrency.round_robin 2))) = [].
Proof. vm_compute. repeat split. Qed.

(** With a chunk size below 1 the index never passes the end of a
    non-empty input: whatever the fuel and the schedule, the loop does not
    finish. *)
Lemma ingestPapers_no_progress ecap rcap ranked_search schedule papers batchSize :
  (batchSize <= 0)%Z ->
  forall fuel (i : Z) successCount failCount st,
    (i < Z.of_nat (length papers))%Z ->
    fst (IngestionPipeline.ingestPapers_from ecap rcap ranked_search schedule fuel i
                                             successCount failCount papers batchSize st)
    = Return None.
Proof.
  intros Hbs. induction fuel as [|fuel IH]; intros i s f st Hi; [reflexivity|].
  cbn [IngestionPipeline.ingestPapers_from].
  replace (i <? Z.of_nat (length papers))%Z with true
    by (symmetry; apply Z.ltb_lt; lia).
  replace (i + batchSize <? Z.of_nat (length papers))%Z with true
    by (symmetry; apply Z.ltb_lt; lia).
  unfold bind at 1. unfold allSettled.
  destruct (run_pool fuel (schedule i) 0 _ st) as [[results|] st1]; [|reflexivity].
  unfold bind. simpl. apply IH. lia.
Qed.

(** The count of [createRelationships] counts merges: three times the same
    relationship gives the count 3 and one edge. *)
Example createRelationships_counts_merges :
  let run := EdgeRepository.createRelationships
               SampleResolution.no_match
               [SampleResolution.x_to_y; SampleResolution.x_to_y; SampleResolution.x_to_y]
               7 SampleResolution.entityMap "RelationshipExtractor"
               SampleEdges.st_nodes in
  fst run = Return 3 /\ map edge_key (edges (snd run)) = [(improves_on, 0, 1)].
Proof. vm_compute. split; reflexivity. Qed.
